(** * telesync.core: change tracking, data descriptors and the diff protocol

    A shallow embedding of [py/telesync/core.py]: the guards on keys and
    values, the recursive [_dump], the [Data] placeholder and its wire
    encoding, the [Ref] handle, the mutation buffer of [PageBase] and the
    JSON [marshal] / [unmarshal] pair; then the [data] factory, [pack],
    [Expando], [configure] and the [save] of both kinds of page.

    Conventions of the embedding.
    - Python values are the trees of [pyval].  Python [int] is unbounded, so
      it is [Z].  A [str] is a Rocq [string]: one [ascii] per character, so
      the characters are the code points 0..255.  A [dict] is an association
      list in insertion order; its keys are strings, as in every mapping the
      library builds ([dict(k=.., v=..)]) and as the annotation
      [Dict[str, Any]] says.  Python [float] is left out of the value
      universe: no binary floating point is modelled.
    - An object that is neither a builtin nor a [Data] is [PObj]: it carries
      what its zero-argument [dump] method returns when it has one.
    - A raised exception is [Raise e]; stateful methods thread the page
      through the monad [py].
    - Python stores the caller's [dict] itself in the buffer, and [add]
      rewrites it where it stands.  The trees of [pyval] show what one call
      does to the value it is given; what several calls do to a mapping they
      share is modelled in [Shared], where a mapping can be an object of a
      store, and the statements about sequences of mutations are made there.
      On values that share nothing the two agree ([perform_all_unshared]).
    - The hub and the channel of an application are functions handed to
      [save]: they answer or fail, and the requests issued are listed in
      the order they leave. *)

From Stdlib Require Import ZArith String Ascii List Bool Lia.
From Stdlib Require Import DecimalString DecimalZ DecimalPos DecimalFacts.
Import ListNotations.

Local Open Scope string_scope.
Local Open Scope Z_scope.

(** ** Values *)

#[local] Unset Elimination Schemes.
Inductive pyval : Type :=
| PNone
| PBool (b : bool)
| PInt (n : Z)
| PStr (s : string)
| PList (xs : list pyval)
| PTuple (xs : list pyval)
| PDict (kvs : list (string * pyval))
| PData (fields : pyval) (size : Z) (data : pyval)
| PObj (dump : option pyval).
#[local] Set Elimination Schemes.

(** The induction principle that reaches below lists, mappings and the
    fields of objects. *)
Section pyval_induction.
Variable P : pyval -> Prop.
Hypothesis HNone : P PNone.
Hypothesis HBool : forall b, P (PBool b).
Hypothesis HInt : forall n, P (PInt n).
Hypothesis HStr : forall s, P (PStr s).
Hypothesis HList : forall xs, Forall P xs -> P (PList xs).
Hypothesis HTuple : forall xs, Forall P xs -> P (PTuple xs).
Hypothesis HDict : forall kvs, Forall (fun kv => P (snd kv)) kvs -> P (PDict kvs).
Hypothesis HData : forall f n d, P f -> P d -> P (PData f n d).
Hypothesis HObjNone : P (PObj None).
Hypothesis HObjSome : forall r, P r -> P (PObj (Some r)).

Fixpoint pyval_ind (v : pyval) : P v :=
  match v with
  | PNone => HNone
  | PBool b => HBool b
  | PInt n => HInt n
  | PStr s => HStr s
  | PList xs =>
      HList xs ((fix go (l : list pyval) : Forall P l :=
                   match l with
                   | [] => Forall_nil P
                   | x :: l' => Forall_cons x (pyval_ind x) (go l')
                   end) xs)
  | PTuple xs =>
      HTuple xs ((fix go (l : list pyval) : Forall P l :=
                    match l with
                    | [] => Forall_nil P
                    | x :: l' => Forall_cons x (pyval_ind x) (go l')
                    end) xs)
  | PDict kvs =>
      HDict kvs ((fix go (l : list (string * pyval))
                    : Forall (fun kv => P (snd kv)) l :=
                    match l with
                    | [] => Forall_nil _
                    | kv :: l' =>
                        Forall_cons kv (pyval_ind (snd kv)) (go l')
                    end) kvs)
  | PData f n d => HData f n d (pyval_ind f) (pyval_ind d)
  | PObj None => HObjNone
  | PObj (Some r) => HObjSome r (pyval_ind r)
  end.
End pyval_induction.

(** ** Exceptions and the page monad *)

(** The exceptions the module and [json] raise.  [OutsideModel] is no Python
    exception: it marks an answer that lies outside this model (a float, a
    character above 255) and the end of the decoder's fuel, which
    [unmarshal] never reaches. *)
Inductive exn : Type :=
| ValueError (msg : string)
| KeyError (msg : string)
| TypeError (msg : string)
| JSONDecodeError (msg : string)
| OutsideModel (what : string).

Inductive result (A : Type) : Type :=
| Ok (a : A)
| Raise (e : exn).
Arguments Ok {A} a.
Arguments Raise {A} e.

Definition rbind {A B} (r : result A) (k : A -> result B) : result B :=
  match r with
  | Ok a => k a
  | Raise e => Raise e
  end.

(** The spec's error taxonomy, read off the exceptions the code raises. *)
Definition InvalidKeyError (e : exn) : Prop :=
  exists msg, e = KeyError msg.

Definition InvalidAssignmentError (e : exn) : Prop :=
  e = ValueError "Data instances cannot be used in assignments.".

Definition InvalidValueError (e : exn) : Prop :=
  e = ValueError "value must be a primitive" \/
  e = ValueError "value must be a primitive list or tuple".

Definition InvalidCardError (e : exn) : Prop :=
  e = ValueError "card must have a key" \/
  e = ValueError "key must be str" \/
  e = ValueError "card must be dict or implement .dump() -> dict".

(** ** Builtins the module relies on *)



Definition is_dict (x : pyval) : bool :=
  match x with PDict _ => true | _ => false end.

Definition is_Data (x : pyval) : bool :=
  match x with PData _ _ _ => true | _ => false end.

(** [c in s] for a one-character [c]. *)
Fixpoint str_contains (c : ascii) (s : string) : bool :=
  match s with
  | EmptyString => false
  | String a s' => Ascii.eqb a c || str_contains c s'
  end.

(** [str(x)] on the values a guarded key can be; the text of a container or
    of an object never reaches a path and is not modelled. *)
Definition py_str (x : pyval) : string :=
  match x with
  | PStr s => s
  | PInt n => NilZero.string_of_int (Z.to_int n)
  | PBool true => "True"
  | PBool false => "False"
  | PNone => "None"
  | _ => ""
  end.

(** Truth value of [if d:]. *)
Definition truthy (x : pyval) : bool :=
  match x with
  | PNone => false
  | PBool b => b
  | PInt n => negb (n =? 0)
  | PStr s => negb (String.eqb s "")
  | PList xs | PTuple xs => match xs with [] => false | _ => true end
  | PDict kvs => match kvs with [] => false | _ => true end
  | PData _ _ _ => true
  | PObj _ => true
  end.

(** Insertion-ordered [dict] operations. *)
Fixpoint dict_get (k : string) (d : list (string * pyval)) : option pyval :=
  match d with
  | [] => None
  | (k', v) :: d' => if String.eqb k' k then Some v else dict_get k d'
  end.

(** [d[k] = v]: overwrite in place, or append a new entry. *)
Fixpoint dict_set (k : string) (v : pyval) (d : list (string * pyval))
  : list (string * pyval) :=
  match d with
  | [] => [(k, v)]
  | (k', v') :: d' =>
      if String.eqb k' k then (k', v) :: d' else (k', v') :: dict_set k v d'
  end.

(** [del d[k]]: raises [KeyError] when the key is absent. *)
Fixpoint dict_del (k : string) (d : list (string * pyval))
  : result (list (string * pyval)) :=
  match d with
  | [] => Raise (KeyError k)
  | (k', v') :: d' =>
      if String.eqb k' k then Ok d'
      else rbind (dict_del k d') (fun r => Ok ((k', v') :: r))
  end.

(** ** Guards *)

Definition _key_sep : string := " ".

Definition _is_int (x : pyval) : bool :=
  match x with PInt _ | PBool _ => true | _ => false end.

Definition _is_str (x : pyval) : bool :=
  match x with PStr _ => true | _ => false end.

Definition _is_list (x : pyval) : bool :=
  match x with PList _ | PTuple _ => true | _ => false end.

Definition _is_primitive (x : pyval) : bool :=
  match x with
  | PNone | PBool _ | PStr _ | PInt _ => true
  | _ => false
  end.

Definition _guard_primitive (x : pyval) : result unit :=
  if negb (_is_primitive x) then Raise (ValueError "value must be a primitive")
  else Ok tt.

Definition _are_primitives (xs : pyval) : bool :=
  match xs with
  | PNone => true
  | PList l | PTuple l => forallb _is_primitive l
  | _ => false
  end.

Definition _guard_primitive_list (xs : pyval) : result unit :=
  if negb (_are_primitives xs)
  then Raise (ValueError "value must be a primitive list or tuple")
  else Ok tt.

Fixpoint guard_each (xs : list pyval) : result unit :=
  match xs with
  | [] => Ok tt
  | x :: xs' => rbind (_guard_primitive x) (fun _ => guard_each xs')
  end.

Definition _guard_primitive_dict_values (d : list (string * pyval)) : result unit :=
  guard_each (map snd d).

Definition _guard_key (key : pyval) : result unit :=
  if _is_str key then
    match key with
    | PStr s =>
        if str_contains " "%char s
        then Raise (KeyError "keys cannot contain spaces")
        else Ok tt
    | _ => Ok tt
    end
  else if negb (_is_int key)
       then Raise (KeyError "invalid key type: want str or int")
       else Ok tt.

(** ** The Data placeholder *)

Module Data.

(** [Data(fields, size, data)] is the value [PData fields size data]. *)
Definition dump (fields : pyval) (size : Z) (data : pyval) : pyval :=
  let f := fields in
  let d := data in
  let n := size in
  if truthy d then
    if is_dict d then PDict [("m", PDict [("f", f); ("d", d)])]
    else if n <? 0 then PDict [("c", PDict [("f", f); ("d", d)])]
         else PDict [("f", PDict [("f", f); ("d", d)])]
  else
    if n =? 0 then PDict [("m", PDict [("f", f)])]
    else if n <? 0 then PDict [("c", PDict [("f", f); ("n", PInt (- n))])]
         else PDict [("f", PDict [("f", f); ("n", PInt n)])].

End Data.

(** ** Recursive dump *)

Definition _can_dump (x : pyval) : bool :=
  match x with
  | PData _ _ _ => true
  | PObj (Some _) => true
  | _ => false
  end.

Fixpoint _dump (xs : pyval) : pyval :=
  match xs with
  | PList l | PTuple l => PList (map _dump l)
  | PDict kvs => PDict (map (fun kv => (fst kv, _dump (snd kv))) kvs)
  | PData f n d => Data.dump f n d
  | PObj (Some r) => r
  | _ => xs
  end.

(** ** JSON: what [json.dumps] and [json.loads] do

    [marshal] and [unmarshal] delegate to Python's [json] module; this is
    its encoder with [ensure_ascii] on and the separators [(',', ':')], and
    its strict decoder. *)

Notation "x <- e ;; k" := (rbind e (fun x => k))
  (at level 61, e at next level, right associativity).
Notation "' p <- e ;; k" := (rbind e (fun x => match x with p => k end))
  (at level 61, p pattern, e at next level, right associativity).

Definition dquote : ascii := "034"%char.
Definition backslash : ascii := "092"%char.

Module Json.

Definition hex_digit (n : N) : ascii :=
  if (n <? 10)%N then ascii_of_N (48 + n) else ascii_of_N (87 + n).

(** One character of a string literal, as [py_encode_basestring_ascii]
    writes it. *)
Definition escape_char (c : ascii) : string :=
  let n := N_of_ascii c in
  if Ascii.eqb c dquote then String backslash (String dquote EmptyString)
  else if Ascii.eqb c backslash then String backslash (String backslash EmptyString)
  else if (n =? 10)%N then String backslash "n"
  else if (n =? 13)%N then String backslash "r"
  else if (n =? 9)%N then String backslash "t"
  else if (n =? 12)%N then String backslash "f"
  else if (n =? 8)%N then String backslash "b"
  else if ((32 <=? n) && (n <=? 126))%N then String c EmptyString
  else String backslash
         (String "u" (String "0" (String "0"
            (String (hex_digit (n / 16)) (String (hex_digit (n mod 16)) EmptyString))))).

Fixpoint escape_body (s : string) : string :=
  match s with
  | EmptyString => EmptyString
  | String c s' => escape_char c ++ escape_body s'
  end.

Definition encode_str (s : string) : string :=
  String dquote (escape_body s ++ String dquote EmptyString).

Definition encode_int (n : Z) : string :=
  NilZero.string_of_int (Z.to_int n).

Section items.
Context {A : Type} (enc : A -> result string).

(** The items of an array or an object, joined by the item separator. *)
Fixpoint encode_items (l : list A) : result string :=
  match l with
  | [] => Ok EmptyString
  | x :: l' =>
      a <- enc x ;;
      match l' with
      | [] => Ok a
      | _ => b <- encode_items l' ;; Ok (a ++ "," ++ b)
      end
  end.
End items.

Fixpoint dumps (v : pyval) : result string :=
  match v with
  | PNone => Ok "null"
  | PBool true => Ok "true"
  | PBool false => Ok "false"
  | PInt n => Ok (encode_int n)
  | PStr s => Ok (encode_str s)
  | PList xs | PTuple xs =>
      body <- encode_items dumps xs ;; Ok ("[" ++ body ++ "]")
  | PDict kvs =>
      body <- encode_items
                (fun kv => t <- dumps (snd kv) ;; Ok (encode_str (fst kv) ++ ":" ++ t))
                kvs ;;
      Ok ("{" ++ body ++ "}")
  | PData _ _ _ => Raise (TypeError "Object of type Data is not JSON serializable")
  | PObj _ => Raise (TypeError "Object is not JSON serializable")
  end.

(** *** The decoder *)

Definition is_ws (c : ascii) : bool :=
  let n := N_of_ascii c in
  ((n =? 32) || (n =? 9) || (n =? 10) || (n =? 13))%N.

Fixpoint skip_ws (s : string) : string :=
  match s with
  | EmptyString => EmptyString
  | String c s' => if is_ws c then skip_ws s' else s
  end.

Definition is_digit (c : ascii) : bool :=
  let n := N_of_ascii c in ((48 <=? n) && (n <=? 57))%N.

Definition hex_value (c : ascii) : option N :=
  let n := N_of_ascii c in
  if ((48 <=? n) && (n <=? 57))%N then Some (n - 48)%N
  else if ((97 <=? n) && (n <=? 102))%N then Some (n - 87)%N
  else if ((65 <=? n) && (n <=? 70))%N then Some (n - 55)%N
  else None.

Definition hex4 (a b c d : ascii) : option N :=
  match hex_value a, hex_value b, hex_value c, hex_value d with
  | Some x, Some y, Some z, Some w => Some (((x * 16 + y) * 16 + z) * 16 + w)%N
  | _, _, _, _ => None
  end.

(** The character a one-letter escape stands for. *)
Definition unescape (e : ascii) : option ascii :=
  let n := N_of_ascii e in
  if Ascii.eqb e dquote then Some dquote
  else if Ascii.eqb e backslash then Some backslash
  else if (n =? 47)%N then Some "/"%char
  else if (n =? 98)%N then Some (ascii_of_N 8)
  else if (n =? 102)%N then Some (ascii_of_N 12)
  else if (n =? 110)%N then Some (ascii_of_N 10)
  else if (n =? 114)%N then Some (ascii_of_N 13)
  else if (n =? 116)%N then Some (ascii_of_N 9)
  else None.

(** [scanstring] in strict mode, from just after the opening quote: the
    decoded text and what follows the closing quote.  An escape that names a
    code point above 255 leaves the universe of [string]. *)
Fixpoint scanstring (s : string) : result (string * string) :=
  match s with
  | EmptyString => Raise (JSONDecodeError "Unterminated string starting at")
  | String c s' =>
      if Ascii.eqb c dquote then Ok (EmptyString, s')
      else if Ascii.eqb c backslash then
        match s' with
        | EmptyString => Raise (JSONDecodeError "Unterminated string starting at")
        | String e s'' =>
            if Ascii.eqb e "u"%char then
              match s'' with
              | String h1 (String h2 (String h3 (String h4 rest))) =>
                  match hex4 h1 h2 h3 h4 with
                  | Some n =>
                      if (n <? 256)%N then
                        '(body, r) <- scanstring rest ;;
                        Ok (String (ascii_of_N n) body, r)
                      else Raise (OutsideModel "code point above 255")
                  | None => Raise (JSONDecodeError "Invalid \uXXXX escape")
                  end
              | _ => Raise (JSONDecodeError "Invalid \uXXXX escape")
              end
            else
              match unescape e with
              | Some ch =>
                  '(body, r) <- scanstring s'' ;; Ok (String ch body, r)
              | None => Raise (JSONDecodeError "Invalid \escape")
              end
        end
      else if (N_of_ascii c <? 32)%N
           then Raise (JSONDecodeError "Invalid control character at")
           else '(body, r) <- scanstring s' ;; Ok (String c body, r)
  end.

(** The longest run of decimal digits at the head of [s]. *)
Fixpoint scan_uint (s : string) : Decimal.uint * string :=
  match s with
  | EmptyString => (Decimal.Nil, EmptyString)
  | String c s' =>
      let (u, r) := scan_uint s' in
      match uint_of_char c (Some u) with
      | Some u' => (u', r)
      | None => (Decimal.Nil, s)
      end
  end.

Definition starts_with_digit (s : string) : bool :=
  match s with
  | String c _ => is_digit c
  | EmptyString => false
  end.

(** A fraction: a dot and at least one digit. *)
Definition has_frac (s : string) : bool :=
  match s with
  | String "."%char s' => starts_with_digit s'
  | _ => false
  end.

(** An exponent: e or E, an optional sign, at least one digit. *)
Definition has_exp (s : string) : bool :=
  match s with
  | String c s' =>
      if Ascii.eqb c "e"%char || Ascii.eqb c "E"%char then
        match s' with
        | String d s'' =>
            if Ascii.eqb d "-"%char || Ascii.eqb d "+"%char
            then starts_with_digit s''
            else is_digit d
        | EmptyString => false
        end
      else false
  | EmptyString => false
  end.

(** A number: an optional minus sign, then a lone zero or a digit run
    that starts with a non-zero digit; a float when a fraction or an
    exponent follows. *)
Definition number_digits (neg : bool) (s1 : string) : result (pyval * string) :=
  match s1 with
  | EmptyString => Raise (JSONDecodeError "Expecting value")
  | String c s2 =>
      if is_digit c then
        let (u, r) :=
          if Ascii.eqb c "0"%char then (Decimal.D0 Decimal.Nil, s2)
          else scan_uint s1 in
        if has_frac r || has_exp r then Raise (OutsideModel "float")
        else Ok (PInt (if neg then - Z.of_uint u else Z.of_uint u), r)
      else Raise (JSONDecodeError "Expecting value")
  end.

Definition match_number (s : string) : result (pyval * string) :=
  match s with
  | String c s' =>
      if Ascii.eqb c "-"%char then number_digits true s' else number_digits false s
  | EmptyString => number_digits false s
  end.

Fixpoint starts_with (p s : string) : option string :=
  match p, s with
  | EmptyString, _ => Some s
  | String a p', String b s' => if Ascii.eqb a b then starts_with p' s' else None
  | _, EmptyString => None
  end.

(** [dict(pairs)]: a repeated key keeps its first place and its last
    value. *)
Definition dict_of_pairs (pairs : list (string * pyval)) : list (string * pyval) :=
  fold_left (fun d kv => dict_set (fst kv) (snd kv) d) pairs [].

(** [scan_once], with the loops of [JSONArray] and [JSONObject].  The
recursion is on [fuel]; [loads] supplies more than any text needs
(see [unmarshal_in_fuel]). *)
Fixpoint scan_once (fuel : nat) (s : string) {struct fuel}
  : result (pyval * string) :=
  match fuel with
  | O => Raise (OutsideModel "fuel")
  | S fuel' =>
      match s with
      | EmptyString => Raise (JSONDecodeError "Expecting value")
      | String c s' =>
          if Ascii.eqb c dquote then
            '(b, r) <- scanstring s' ;; Ok (PStr b, r)
          else if Ascii.eqb c "{"%char then
            let s1 := skip_ws s' in
            let object :=
              '(pairs, r) <- parse_object fuel' s1 ;;
              Ok (PDict (dict_of_pairs pairs), r) in
            match s1 with
            | String c1 r => if Ascii.eqb c1 "}"%char then Ok (PDict [], r) else object
            | EmptyString => object
            end
          else if Ascii.eqb c "["%char then
            let s1 := skip_ws s' in
            let array := '(vs, r) <- parse_array fuel' s1 ;; Ok (PList vs, r) in
            match s1 with
            | String c1 r => if Ascii.eqb c1 "]"%char then Ok (PList [], r) else array
            | EmptyString => array
            end
          else
            match starts_with "null" s, starts_with "true" s, starts_with "false" s with
            | Some r, _, _ => Ok (PNone, r)
            | _, Some r, _ => Ok (PBool true, r)
            | _, _, Some r => Ok (PBool false, r)
            | None, None, None =>
                match starts_with "NaN" s, starts_with "Infinity" s,
                      starts_with "-Infinity" s with
                | None, None, None => match_number s
                | _, _, _ => Raise (OutsideModel "float")
                end
            end
      end
  end

with parse_array (fuel : nat) (s : string) {struct fuel}
  : result (list pyval * string) :=
  match fuel with
  | O => Raise (OutsideModel "fuel")
  | S fuel' =>
      '(v, r) <- scan_once fuel' s ;;
      match skip_ws r with
      | String c r' =>
          if Ascii.eqb c "]"%char then Ok ([v], r')
          else if Ascii.eqb c ","%char then
            '(vs, r'') <- parse_array fuel' (skip_ws r') ;; Ok (v :: vs, r'')
          else Raise (JSONDecodeError "Expecting ',' delimiter")
      | EmptyString => Raise (JSONDecodeError "Expecting ',' delimiter")
      end
  end

with parse_object (fuel : nat) (s : string) {struct fuel}
  : result (list (string * pyval) * string) :=
  match fuel with
  | O => Raise (OutsideModel "fuel")
  | S fuel' =>
      match s with
      | String q s1 =>
          if Ascii.eqb q dquote then
            '(k, r) <- scanstring s1 ;;
            match skip_ws r with
            | String c r1 =>
                if Ascii.eqb c ":"%char then
                  '(v, r2) <- scan_once fuel' (skip_ws r1) ;;
                  match skip_ws r2 with
                  | String d r3 =>
                      if Ascii.eqb d "}"%char then Ok ([(k, v)], r3)
                      else if Ascii.eqb d ","%char then
                        '(kvs, r4) <- parse_object fuel' (skip_ws r3) ;;
                        Ok ((k, v) :: kvs, r4)
                      else Raise (JSONDecodeError "Expecting ',' delimiter")
                  | EmptyString => Raise (JSONDecodeError "Expecting ',' delimiter")
                  end
                else Raise (JSONDecodeError "Expecting ':' delimiter")
            | EmptyString => Raise (JSONDecodeError "Expecting ':' delimiter")
            end
          else Raise (JSONDecodeError
                        "Expecting property name enclosed in double quotes")
      | EmptyString =>
          Raise (JSONDecodeError "Expecting property name enclosed in double quotes")
      end
  end.

Definition loads (s : string) : result pyval :=
  '(v, r) <- scan_once (S (2 * String.length s)) (skip_ws s) ;;
  match skip_ws r with
  | EmptyString => Ok v
  | _ => Raise (JSONDecodeError "Extra data")
  end.

End Json.

(** ** marshal / unmarshal *)

Definition marshal (d : pyval) : result string := Json.dumps d.

Definition unmarshal (s : string) : result pyval := Json.loads s.

(** ** References and pages: the data *)

(** A reference holds the path it addresses.  The page it belongs to is the
    page threaded through the assignment methods. *)
Record Ref : Type := mkRef { __key__ : string }.

Record PageBase : Type := mkPage { url : string; _changes : list pyval }.

(** A method of a page: it returns or raises, and leaves a page behind. *)
Definition py (A : Type) : Type := PageBase -> result A * PageBase.

Definition ret {A} (a : A) : py A := fun self => (Ok a, self).

Definition raise {A} (e : exn) : py A := fun self => (Raise e, self).

Definition bind {A B} (m : py A) (k : A -> py B) : py B :=
  fun self =>
    match m self with
    | (Ok a, self') => k a self'
    | (Raise e, self') => (Raise e, self')
    end.

Definition lift {A} (r : result A) : py A := fun self => (r, self).

Notation "x <~ m ;; k" := (bind m (fun x => k))
  (at level 61, m at next level, right associativity).

(** ** Set operations *)

Definition _set_op (o : Ref) (k : pyval) (v : pyval) : result pyval :=
  _ <- _guard_key k ;;
  let k := __key__ o ++ _key_sep ++ py_str k in
  match v with
  | PData f n d =>
      match Data.dump f n d with
      | PDict op => Ok (PDict (dict_set "k" (PStr k) op))
      | op => Ok op
      end
  | _ => Ok (PDict [("k", PStr k); ("v", v)])
  end.

(** ** PageBase *)

Module PageBase.

(** [PageBase(url)] *)
Definition __init__ (url : string) : PageBase := mkPage url [].

Definition _track (op : pyval) : py unit :=
  fun self => (Ok tt, mkPage (url self) (_changes self ++ [op])%list).

(** The first loop of [add]: the keys of the Data-valued properties, each
    with the index of its buffer, and the buffers. *)
Definition scan_data (props : list (string * pyval))
  : list (string * Z) * list pyval :=
  fold_left
    (fun (acc : list (string * Z) * list pyval) (kv : string * pyval) =>
       let (data, bufs) := acc in
       match snd kv with
       | PData f n d =>
           ((data ++ [(fst kv, Z.of_nat (length bufs))])%list,
            (bufs ++ [Data.dump f n d])%list)
       | _ => (data, bufs)
       end)
    props ([], []).

(** The second loop of [add]: each Data-valued property is deleted and
    its marker is set. *)
Fixpoint rename_data (data : list (string * Z)) (props : list (string * pyval))
  : result (list (string * pyval)) :=
  match data with
  | [] => Ok props
  | (k, v) :: data' =>
      props' <- dict_del k props ;;
      rename_data data' (dict_set ("~" ++ k) (PInt v) props')
  end.

(** [add(key, card)].  [props = card] is the caller's own mapping, which the
    second loop rewrites and the operation then holds.  Here the card is a
    tree, so this is what one call does to the mapping it is given;
    [Shared.PageBase.add] is the same method on a mapping that other values
    refer to as well. *)
Definition add (key : pyval) (card : pyval) : py Ref :=
  match key with
  | PNone => raise (ValueError "card must have a key")
  | PStr key =>
      let props :=
        if is_dict card then card
        else if _can_dump card then _dump card
        else PNone in
      match props with
      | PDict props =>
          let (data, bufs) := scan_data props in
          props <~ lift (rename_data data props) ;;
          _ <~ match bufs with
               | _ :: _ =>
                   _track (PDict [("k", PStr key); ("d", PDict props);
                                  ("b", PList bufs)])
               | [] =>
                   _track (PDict [("k", PStr key); ("d", PDict props)])
               end ;;
          ret (mkRef key)
      | _ => raise (ValueError "card must be dict or implement .dump() -> dict")
      end
  | _ => raise (ValueError "key must be str")
  end.

(** The no-diff sentinel is Python's [None]. *)
Definition _diff : py (option string) :=
  fun self =>
    match _changes self with
    | [] => (Ok None, self)
    | _ :: _ =>
        match marshal (PDict [("d", PList (_changes self))]) with
        | Ok d => (Ok (Some d), mkPage (url self) [])
        | Raise e => (Raise e, self)
        end
    end.

Definition drop : py unit := _track (PDict []).

Definition __setitem__ (key card : pyval) : py unit :=
  _ <~ add key card ;; ret tt.

Definition __getitem__ (key : pyval) : py Ref :=
  match key with
  | PStr key => ret (mkRef key)
  | _ => raise (ValueError "key must be str")
  end.

Definition __delitem__ (key : pyval) : py unit :=
  _track (PDict [("k", key)]).

End PageBase.

(** ** Ref *)

Module Ref.

(** [ref.key]: an attribute name is a string.  Python calls [__getattr__] for
every name that is no attribute of the object itself. *)
Definition __getattr__ (self : Ref) (key : string) : result Ref :=
  _ <- _guard_key (PStr key) ;;
  Ok (mkRef (__key__ self ++ _key_sep ++ key)).

(** [ref[key]] *)
Definition __getitem__ (self : Ref) (key : pyval) : result Ref :=
  _ <- _guard_key key ;;
  Ok (mkRef (__key__ self ++ _key_sep ++ py_str key)).

(** [ref.key = value], on the page the reference belongs to. *)
Definition __setattr__ (self : Ref) (key : string) (value : pyval) : py unit :=
  if is_Data value
  then raise (ValueError "Data instances cannot be used in assignments.")
  else op <~ lift (_set_op self (PStr key) (_dump value)) ;; PageBase._track op.

(** [ref[key] = value] *)
Definition __setitem__ (self : Ref) (key : pyval) (value : pyval) : py unit :=
  if is_Data value
  then raise (ValueError "Data instances cannot be used in assignments.")
  else op <~ lift (_set_op self key (_dump value)) ;; PageBase._track op.

End Ref.

(** ** Mutations of a page, as a caller issues them *)

Inductive mutation : Type :=
| MAdd (key card : pyval)
| MSetAttr (ref : Ref) (key : string) (value : pyval)
| MSetItem (ref : Ref) (key value : pyval)
| MDelete (key : pyval)
| MDrop.

Definition perform (m : mutation) : py unit :=
  match m with
  | MAdd key card => PageBase.__setitem__ key card
  | MSetAttr ref key value => Ref.__setattr__ ref key value
  | MSetItem ref key value => Ref.__setitem__ ref key value
  | MDelete key => PageBase.__delitem__ key
  | MDrop => PageBase.drop
  end.

(** A script of mutations; it stops at the first one that raises. *)
Fixpoint perform_all (ms : list mutation) : py unit :=
  match ms with
  | [] => ret tt
  | m :: ms' => _ <~ perform m ;; perform_all ms'
  end.

(** [m] succeeds on every page, and what it does is append [op]. *)
Definition tracks (m : mutation) (op : pyval) : Prop :=
  forall p, perform m p = (Ok tt, mkPage (url p) (_changes p ++ [op])).

(** ** Vocabulary of the statements *)

(** *** Values and cards *)

(** A list or a tuple all of whose elements are primitives. *)
Definition is_primitive_container (x : pyval) : bool :=
  _is_list x && _are_primitives x.

(** What a card hands to [add] as its properties: the card itself when it is
    a mapping, what [_dump] makes of it when it can be dumped. *)
Definition card_props (card : pyval) (props : list (string * pyval)) : Prop :=
  card = PDict props \/
  (is_dict card = false /\ _can_dump card = true /\ _dump card = PDict props).

(** The Data-valued properties of a mapping, in order, and their names. *)
Definition data_props (props : list (string * pyval)) : list (string * pyval) :=
  filter (fun kv => is_Data (snd kv)) props.

Definition data_keys (props : list (string * pyval)) : list string :=
  map fst (data_props props).

(** The marker that takes the place of a Data-valued property. *)
Definition marker (k : string) : string := "~" ++ k.

(** No Data-valued property bears the marker name of another one. *)
Definition no_marker_clash (props : list (string * pyval)) : Prop :=
  forall k, In k (data_keys props) -> ~ In (marker k) (data_keys props).

(** The wire encoding of a value that is a Data placeholder. *)
Definition encoded (v : pyval) : pyval :=
  match v with
  | PData f n d => Data.dump f n d
  | _ => v
  end.

(** Keys numbered from [n] on, in order. *)
Fixpoint index_from (n : nat) (ks : list string) : list (string * Z) :=
  match ks with
  | [] => []
  | k :: ks' => (k, Z.of_nat n) :: index_from (S n) ks'
  end.

(** The Add-card operation: the buffer list is there when it is not empty. *)
Definition add_op (key : string) (props : list (string * pyval)) (bufs : list pyval)
  : pyval :=
  PDict (("k", PStr key) :: ("d", PDict props) ::
         match bufs with
         | [] => []
         | _ :: _ => [("b", PList bufs)]
         end).

(** *** Places inside a value *)

(** One step into a container: to the element at an index of a list or a
    tuple, or to the value of a name in a mapping. *)
Inductive step : Type :=
| At (i : nat)
| Under (name : string).

Definition child (s : step) (v : pyval) : option pyval :=
  match s, v with
  | At i, PList xs => nth_error xs i
  | At i, PTuple xs => nth_error xs i
  | Under name, PDict kvs => dict_get name kvs
  | _, _ => None
  end.

(** What stands at the end of a sequence of steps, at any depth. *)
Fixpoint descend (steps : list step) (v : pyval) : option pyval :=
  match steps with
  | [] => Some v
  | s :: steps' =>
      match child s v with
      | Some w => descend steps' w
      | None => None
      end
  end.

(** *** JSON values and Python equality *)

(** Writing JSON text: an apostrophe stands for a double quote. *)
Fixpoint sq (s : string) : string :=
  match s with
  | EmptyString => EmptyString
  | String c s' => String (if Ascii.eqb c "'"%char then dquote else c) (sq s')
  end.

Fixpoint nodup_keys (ks : list string) : bool :=
  match ks with
  | [] => true
  | k :: ks' => negb (existsb (String.eqb k) ks') && nodup_keys ks'
  end.

(** Values made of [None], booleans, integers, strings, lists and mappings
    (their keys distinct, as in every [dict]): what [json.loads] can give
    back. *)
Fixpoint json_value (v : pyval) : bool :=
  match v with
  | PNone | PBool _ | PInt _ | PStr _ => true
  | PList xs => forallb json_value xs
  | PDict kvs =>
      nodup_keys (map fst kvs) && forallb (fun kv => json_value (snd kv)) kvs
  | PTuple _ | PData _ _ _ | PObj _ => false
  end.

Definition as_int (v : pyval) : option Z :=
  match v with
  | PInt n => Some n
  | PBool true => Some 1
  | PBool false => Some 0
  | _ => None
  end.

(** Python's [==]: a boolean is the integer 0 or 1, a list never equals a
    tuple, mappings compare without regard to order.  An object equals only
    itself; the trees carry no identity, so the answer is [false] wherever an
    object is involved, and [py_eq] is used on JSON values and tuples only. *)
Fixpoint py_eq (a b : pyval) {struct a} : bool :=
  match a, b with
  | PNone, PNone => true
  | PBool _, _ | PInt _, _ =>
      match as_int a, as_int b with
      | Some x, Some y => x =? y
      | _, _ => false
      end
  | PStr s, PStr t => String.eqb s t
  | PList xs, PList ys | PTuple xs, PTuple ys =>
      (fix go (l : list pyval) (r : list pyval) : bool :=
         match l, r with
         | [], [] => true
         | x :: l', y :: r' => py_eq x y && go l' r'
         | _, _ => false
         end) xs ys
  | PDict kvs, PDict kvs' =>
      Nat.eqb (length kvs) (length kvs') &&
      (fix go (l : list (string * pyval)) : bool :=
         match l with
         | [] => true
         | kv :: l' =>
             match dict_get (fst kv) kvs' with
             | Some v' => py_eq (snd kv) v' && go l'
             | None => false
             end
         end) kvs
  | _, _ => false
  end.

(** *** Reading a text back *)

(** What may follow a value inside an array or an object, or end the text. *)
Definition closes (rest : string) : bool :=
  match rest with
  | EmptyString => true
  | String c _ => Ascii.eqb c ","%char || Ascii.eqb c "]"%char || Ascii.eqb c "}"%char
  end.

(** A character a value's text may start with: no blank, no closing bracket. *)
Definition opens (c : ascii) : bool :=
  negb (Json.is_ws c) && negb (Ascii.eqb c "]"%char).

(** The fuel [scan_once] uses on the text of a value. *)
Fixpoint weight (v : pyval) : nat :=
  match v with
  | PList xs | PTuple xs => S (fold_right (fun x acc => S (weight x + acc)%nat) O xs)
  | PDict kvs => S (fold_right (fun kv acc => S (weight (snd kv) + acc)%nat) O kvs)
  | _ => 1%nat
  end.

(** Not the exception that stands for exhausted fuel. *)
Definition in_fuel {A : Type} (r : result A) : Prop :=
  r <> Raise (OutsideModel "fuel").

(** A successful scan leaves strictly less text. *)
Definition consumes {A : Type} (s : string) (r : result (A * string)) : Prop :=
  forall a rest, r = Ok (a, rest) -> (String.length rest < String.length s)%nat.

(** [x] survives the trip: it has a text, the text starts a value, and
    [scan_once] reads [x] back from it with fuel [weight x], whatever closes
    the value. *)
Definition roundtrips (x : pyval) : Prop :=
  exists s,
    Json.dumps x = Ok s /\
    (exists c t, s = String c t /\ opens c = true) /\
    (weight x <= String.length s)%nat /\
    (forall fuel rest,
        (weight x <= fuel)%nat -> closes rest = true ->
        Json.scan_once fuel (s ++ rest) = Ok (x, rest)).

(** * More of the module *)

(** ** Text helpers of [str] *)

(** [str.isspace] on one character: the white space among the code points
    0..255. *)
Definition py_isspace (c : ascii) : bool :=
  let n := N_of_ascii c in
  (((9 <=? n) && (n <=? 13)) || ((28 <=? n) && (n <=? 32)) ||
   (n =? 133) || (n =? 160))%N.

Fixpoint py_lstrip (s : string) : string :=
  match s with
  | EmptyString => EmptyString
  | String c s' => if py_isspace c then py_lstrip s' else s
  end.

Fixpoint py_rstrip (s : string) : string :=
  match s with
  | EmptyString => EmptyString
  | String c s' =>
      match py_rstrip s' with
      | EmptyString => if py_isspace c then EmptyString else String c EmptyString
      | r => String c r
      end
  end.

(** [s.strip()] *)
Definition py_strip (s : string) : string := py_rstrip (py_lstrip s).

(** [s.split()]: the words between runs of white space. *)
Fixpoint py_split (s : string) : list string :=
  match s with
  | EmptyString => []
  | String c s' =>
      if py_isspace c then py_split s'
      else
        match s' with
        | EmptyString => [String c EmptyString]
        | String c' _ =>
            if py_isspace c' then String c EmptyString :: py_split s'
            else
              match py_split s' with
              | w :: ws => String c w :: ws
              | [] => [String c EmptyString]
              end
        end
  end.

(** [sep.join(words)] *)
Fixpoint py_join (sep : string) (words : list string) : string :=
  match words with
  | [] => EmptyString
  | [w] => w
  | w :: ws => w ++ sep ++ py_join sep ws
  end.

(** ** The data factory *)

(** The loop of [data] over the field names. *)
Fixpoint check_fields (fields : list pyval) : result unit :=
  match fields with
  | [] => Ok tt
  | field :: rest =>
      match field with
      | PStr s =>
          if String.eqb s EmptyString
          then Raise (ValueError "field cannot be empty str")
          else check_fields rest
      | _ => Raise (ValueError "field must be str")
      end
  end.

(** [isinstance(x, list)] *)
Definition is_list (x : pyval) : bool :=
  match x with PList _ => true | _ => false end.

(** [len(x)] of a list or a tuple. *)
Definition seq_items (x : pyval) : list pyval :=
  match x with
  | PList l | PTuple l => l
  | _ => []
  end.

(** [data(fields, size, rows, columns, pack)].  A [bool] passes for an
    [int] size in Python; a Data sized by a boolean has no image among the
    trees, whose sizes are integers. *)
Definition data (fields size rows columns pack : pyval) : result pyval :=
  fields <-
    match fields with
    | PStr s =>
        let s := py_strip s in
        if String.eqb s EmptyString then Raise (ValueError "fields is empty")
        else Ok (PList (map PStr (py_split s)))
    | _ => Ok fields
    end ;;
  if negb (_is_list fields) then Raise (ValueError "fields must be tuple or list")
  else if Nat.eqb (length (seq_items fields)) 0 then Raise (ValueError "fields is empty")
  else
    _ <- check_fields (seq_items fields) ;;
    if truthy pack then
      if truthy rows then
        if negb (is_list rows) then Raise (ValueError "rows must be a list")
        else s <- marshal (PTuple [fields; rows]) ;; Ok (PStr ("rows:" ++ s))
      else if truthy columns then
        if negb (is_list columns) then Raise (ValueError "columns must be a list")
        else s <- marshal (PTuple [fields; columns]) ;; Ok (PStr ("cols:" ++ s))
      else Raise (ValueError "either rows or columns must be provided if pack=True")
    else
      _ <- (if truthy rows
            then if negb (is_list rows || is_dict rows)
                 then Raise (ValueError "rows must be list or dict")
                 else Ok tt
            else Ok tt) ;;
      match size with
      | PInt n => Ok (PData fields n rows)
      | PBool _ => Raise (OutsideModel "a boolean size")
      | _ => Raise (ValueError "size must be int")
      end.

(** ** Packing and keyed values *)

(** [pack(data)] *)
Definition pack (data : pyval) : result string :=
  s <- marshal (_dump data) ;; Ok ("data:" ++ s).

(** [_kv(key, index, value)] *)
Definition _kv (key index value : pyval) : pyval :=
  match index with
  | PNone | PStr EmptyString => PDict [("k", key); ("v", value)]
  | _ => PDict [("k", key); ("i", index); ("v", value)]
  end.

(** ** Expando *)

(** The attributes of an expando, held in its [__kv] mapping.  Attribute
    names are strings; so are the keys of the trees' mappings, and item
    access by another kind of key is left out.  The definitions are the
    methods: Python calls [__setattr__] for every attribute assignment and
    the two item methods for every item access, but [__getattr__] only for
    a name that the normal lookup misses; reading [e.__kv], [e.__class__]
    or the name of a method does not reach it. *)
Record Expando : Type := mkExpando { __kv : list (string * pyval) }.

Module Expando.

Definition __init__ (args : pyval) : Expando :=
  match args with
  | PDict d => mkExpando d
  | _ => mkExpando []
  end.

(** [dict.get(k)] *)
Definition __getattr__ (self : Expando) (k : string) : pyval :=
  match dict_get k (__kv self) with
  | Some v => v
  | None => PNone
  end.

Definition __getitem__ (self : Expando) (k : string) : pyval :=
  match dict_get k (__kv self) with
  | Some v => v
  | None => PNone
  end.

Definition __setattr__ (self : Expando) (k : string) (v : pyval) : Expando :=
  mkExpando (dict_set k v (__kv self)).

Definition __setitem__ (self : Expando) (k : string) (v : pyval) : Expando :=
  mkExpando (dict_set k v (__kv self)).

Definition __contains__ (self : Expando) (k : string) : bool :=
  match dict_get k (__kv self) with
  | Some _ => true
  | None => false
  end.

End Expando.

Definition expando_to_dict (e : Expando) : pyval := PDict (__kv e).

(** ** Configuration *)

Definition _default_internal_address : string := "ws://localhost:55556".

Record _Config : Type := mkConfig {
  internal_address : string;
  external_address : string;
  hub_address : string;
  hub_access_key_id : string;
  hub_access_key_secret : string;
  shutdown_timeout : Z
}.

(** What [_BasicAuthClient()] keeps: the credentials it was built with. *)
Record _BasicAuthClient : Type := mkClient {
  _auth : string * string;
  _secure : bool
}.

(** The module's two globals, [_config] and [_client]. *)
Definition globals : Type := (_Config * _BasicAuthClient)%type.

(** Truth of an [Optional[str]] argument. *)
Definition given (a : option string) : bool :=
  match a with
  | Some s => negb (String.eqb s EmptyString)
  | None => false
  end.

(** The string of an argument that was given. *)
Definition value_of (a : option string) : string :=
  match a with
  | Some s => s
  | None => EmptyString
  end.

(** The assignments [_config.internal_address = v] and the like. *)
Definition set_internal_address (v : string) (c : _Config) : _Config :=
  mkConfig v (external_address c) (hub_address c) (hub_access_key_id c)
    (hub_access_key_secret c) (shutdown_timeout c).

Definition set_external_address (v : string) (c : _Config) : _Config :=
  mkConfig (internal_address c) v (hub_address c) (hub_access_key_id c)
    (hub_access_key_secret c) (shutdown_timeout c).

Definition set_hub_address (v : string) (c : _Config) : _Config :=
  mkConfig (internal_address c) (external_address c) v (hub_access_key_id c)
    (hub_access_key_secret c) (shutdown_timeout c).

Definition set_hub_access_key_id (v : string) (c : _Config) : _Config :=
  mkConfig (internal_address c) (external_address c) (hub_address c) v
    (hub_access_key_secret c) (shutdown_timeout c).

Definition set_hub_access_key_secret (v : string) (c : _Config) : _Config :=
  mkConfig (internal_address c) (external_address c) (hub_address c)
    (hub_access_key_id c) v (shutdown_timeout c).

Module _BasicAuthClient.

(** [_BasicAuthClient()], reading the configuration of the moment. *)
Definition __init__ (c : _Config) : _BasicAuthClient :=
  mkClient (hub_access_key_id c, hub_access_key_secret c) false.

End _BasicAuthClient.

Definition configure
  (internal external hub key_id key_secret : option string) (g : globals) : globals :=
  let c := fst g in
  let c := if given internal then set_internal_address (value_of internal) c else c in
  let c :=
    if given external then set_external_address (value_of external) c
    else if given internal &&
            String.eqb (external_address c) _default_internal_address
         then set_external_address (value_of internal) c
         else c in
  let c := if given hub then set_hub_address (value_of hub) c else c in
  let c := if given key_id then set_hub_access_key_id (value_of key_id) c else c in
  let c :=
    if given key_secret then set_hub_access_key_secret (value_of key_secret) c else c in
  (c, _BasicAuthClient.__init__ c).

(** ** Saving a page *)

(** What a save can raise besides the exceptions above: the client's
    [ServiceError], and whatever the transport itself raises. *)
Inductive net_exn : Type :=
| PyExn (e : exn)
| ServiceError (msg : string)
| TransportError (what : string).

Inductive net_result (A : Type) : Type :=
| NetOk (a : A)
| NetRaise (e : net_exn).
Arguments NetOk {A} a.
Arguments NetRaise {A} e.

(** A request as it leaves: where it goes and what it carries. *)
Definition request : Type := (string * string)%type.

(** The truth of what [_diff] returned, [None] or a string. *)
Definition diff_truthy (p : option string) : bool :=
  match p with
  | Some d => negb (String.eqb d EmptyString)
  | None => false
  end.

Module Site.

(** [site[url]]: a new page each time, its buffer empty. *)
Definition __getitem__ (url : string) : PageBase := PageBase.__init__ url.

(** [Site._save], through [_BasicAuthClient.patch]: the PATCH goes to the
    hub address of the moment; [http] is the hub, answering with a status
    and a text or failing on the way.  [wire] lists the requests issued. *)
Definition _save (http : request -> net_result (Z * string)) (c : _Config)
  (url data : string) (wire : list request) : net_result unit * list request :=
  let req := (hub_address c ++ url, data) in
  (match http req with
   | NetOk (status, text) =>
       if negb (status =? 200)
       then NetRaise (ServiceError ("Request failed (code=" ++ py_str (PInt status)
                                    ++ "): " ++ text))
       else NetOk tt
   | NetRaise e => NetRaise e
   end,
   (wire ++ [req])%list).

End Site.

Module Page.

(** [page.save()] *)
Definition save (http : request -> net_result (Z * string)) (c : _Config)
  (self : PageBase) (wire : list request)
  : net_result unit * PageBase * list request :=
  match PageBase._diff self with
  | (Raise e, self') => (NetRaise (PyExn e), self', wire)
  | (Ok p, self') =>
      if diff_truthy p then
        match p with
        | Some d =>
            let (r, wire') := Site._save http c (url self') d wire in
            (r, self', wire')
        | None => (NetOk tt, self', wire)
        end
      else (NetOk tt, self', wire)
  end.

(** [page.sync()], deprecated: it warns and saves. *)
Definition sync := save.

End Page.

Module AsyncPage.

(** [await page.save()]: one text per save on the page's channel; [send] is
    the channel, which may fail.  [wire] lists the texts handed to it. *)
Definition save (send : string -> net_result unit) (self : PageBase)
  (wire : list string) : net_result unit * PageBase * list string :=
  match PageBase._diff self with
  | (Raise e, self') => (NetRaise (PyExn e), self', wire)
  | (Ok p, self') =>
      if diff_truthy p then
        match p with
        | Some d =>
            let msg := "* " ++ url self' ++ " " ++ d in
            (send msg, self', (wire ++ [msg])%list)
        | None => (NetOk tt, self', wire)
        end
      else (NetOk tt, self', wire)
  end.

(** [await page.push()], deprecated: it warns and saves. *)
Definition push := save.

End AsyncPage.

(** ** Vocabulary of the further statements *)

(** [ref.k1.k2...]: attribute navigation along a list of names. *)
Fixpoint navigate (r : Ref) (ks : list string) : result Ref :=
  match ks with
  | [] => Ok r
  | k :: ks' => r' <- Ref.__getattr__ r k ;; navigate r' ks'
  end.

(** Values without objects: [None], booleans, integers, strings, lists,
    tuples and mappings with distinct keys. *)
Fixpoint plain (v : pyval) : bool :=
  match v with
  | PNone | PBool _ | PInt _ | PStr _ => true
  | PList xs | PTuple xs => forallb plain xs
  | PDict kvs => nodup_keys (map fst kvs) && forallb (fun kv => plain (snd kv)) kvs
  | PData _ _ _ | PObj _ => false
  end.

(** Plain values in which Data placeholders may stand, their fields and
    initial data plain. *)
Fixpoint packable (v : pyval) : bool :=
  match v with
  | PNone | PBool _ | PInt _ | PStr _ => true
  | PList xs | PTuple xs => forallb packable xs
  | PDict kvs => nodup_keys (map fst kvs) && forallb (fun kv => packable (snd kv)) kvs
  | PData f _ d => plain f && plain d
  | PObj _ => false
  end.

(** A Data placeholder or another object somewhere below lists, tuples and
    the values of mappings. *)
Fixpoint holds_object (v : pyval) : bool :=
  match v with
  | PNone | PBool _ | PInt _ | PStr _ => false
  | PList xs | PTuple xs => existsb holds_object xs
  | PDict kvs => existsb (fun kv => holds_object (snd kv)) kvs
  | PData _ _ _ | PObj _ => true
  end.

(** Every character is printable ASCII. *)
Fixpoint printable (s : string) : bool :=
  match s with
  | EmptyString => true
  | String c s' =>
      ((32 <=? N_of_ascii c) && (N_of_ascii c <=? 126))%N && printable s'
  end.

(** No space in [s]: what the key guard asks of a string. *)
Definition spaceless (s : string) : bool := negb (str_contains " "%char s).

(** The path below a root: each name after a space. *)
Fixpoint path_tail (ks : list string) : string :=
  match ks with
  | [] => EmptyString
  | k :: ks' => " " ++ k ++ path_tail ks'
  end.

Definition path_of (root : string) (ks : list string) : string :=
  root ++ path_tail ks.

(** A word: not empty, and no white space in it. *)
Fixpoint unbroken (s : string) : bool :=
  match s with
  | EmptyString => true
  | String c s' => negb (py_isspace c) && unbroken s'
  end.

Definition is_word (s : string) : bool :=
  negb (String.eqb s EmptyString) && unbroken s.

(** * Mappings that are shared

    [add] keeps the card's mapping itself: [props = card] rewrites the
    caller's [dict] in place and buffers that same object, so an operation
    already buffered changes when a mapping it holds is later added as a
    card.  In this part a mapping is an object: either written out, when
    nothing else refers to it, or the object at an address of the store.
    The methods of a page are the ones above, on these values; on values
    without shared mappings they do what the ones above do
    ([perform_unshared]). *)

Module Shared.

Definition addr : Type := nat.

#[local] Unset Elimination Schemes.
Inductive obj : Type :=
| ONone
| OBool (b : bool)
| OInt (n : Z)
| OStr (s : string)
| OList (xs : list obj)
| OTuple (xs : list obj)
| ODict (kvs : list (string * obj))
| OAt (a : addr)
| OData (fields : obj) (size : Z) (data : obj)
| OObj (dump : option obj).
#[local] Set Elimination Schemes.

Section obj_induction.
Variable P : obj -> Prop.
Hypothesis HNone : P ONone.
Hypothesis HBool : forall b, P (OBool b).
Hypothesis HInt : forall n, P (OInt n).
Hypothesis HStr : forall s, P (OStr s).
Hypothesis HList : forall xs, Forall P xs -> P (OList xs).
Hypothesis HTuple : forall xs, Forall P xs -> P (OTuple xs).
Hypothesis HDict : forall kvs, Forall (fun kv => P (snd kv)) kvs -> P (ODict kvs).
Hypothesis HAt : forall a, P (OAt a).
Hypothesis HData : forall f n d, P f -> P d -> P (OData f n d).
Hypothesis HObjNone : P (OObj None).
Hypothesis HObjSome : forall r, P r -> P (OObj (Some r)).

Fixpoint obj_ind (v : obj) : P v :=
  match v with
  | ONone => HNone
  | OBool b => HBool b
  | OInt n => HInt n
  | OStr s => HStr s
  | OList xs =>
      HList xs ((fix all (l : list obj) : Forall P l :=
                   match l with
                   | [] => Forall_nil P
                   | x :: l' => Forall_cons x (obj_ind x) (all l')
                   end) xs)
  | OTuple xs =>
      HTuple xs ((fix all (l : list obj) : Forall P l :=
                    match l with
                    | [] => Forall_nil P
                    | x :: l' => Forall_cons x (obj_ind x) (all l')
                    end) xs)
  | ODict kvs =>
      HDict kvs ((fix all (l : list (string * obj))
                    : Forall (fun kv => P (snd kv)) l :=
                    match l with
                    | [] => Forall_nil _
                    | kv :: l' => Forall_cons kv (obj_ind (snd kv)) (all l')
                    end) kvs)
  | OAt a => HAt a
  | OData f n d => HData f n d (obj_ind f) (obj_ind d)
  | OObj None => HObjNone
  | OObj (Some r) => HObjSome r (obj_ind r)
  end.
End obj_induction.

(** The mapping objects, by address. *)
Definition store : Type := list (list (string * obj)).

(** The entries of the mapping object at an address. *)
Definition cell (h : store) (a : addr) : list (string * obj) := nth a h [].

(** The store after the mapping at an address was rewritten. *)
Fixpoint put (h : store) (a : addr) (c : list (string * obj)) : store :=
  match h, a with
  | [], _ => []
  | _ :: h', O => c :: h'
  | c0 :: h', S a' => c0 :: put h' a' c
  end.

(** A tree as an object: every mapping written out. *)
Fixpoint unshared (v : pyval) : obj :=
  match v with
  | PNone => ONone
  | PBool b => OBool b
  | PInt n => OInt n
  | PStr s => OStr s
  | PList xs => OList (map unshared xs)
  | PTuple xs => OTuple (map unshared xs)
  | PDict kvs => ODict (map (fun kv => (fst kv, unshared (snd kv))) kvs)
  | PData f n d => OData (unshared f) n (unshared d)
  | PObj None => OObj None
  | PObj (Some r) => OObj (Some (unshared r))
  end.

(** *** Builtins *)

Definition is_dict (x : obj) : bool :=
  match x with ODict _ | OAt _ => true | _ => false end.

Definition is_Data (x : obj) : bool :=
  match x with OData _ _ _ => true | _ => false end.

(** [x.items()] of a mapping. *)
Definition items (h : store) (x : obj) : list (string * obj) :=
  match x with
  | ODict kvs => kvs
  | OAt a => cell h a
  | _ => []
  end.

Definition truthy (h : store) (x : obj) : bool :=
  match x with
  | ONone => false
  | OBool b => b
  | OInt n => negb (n =? 0)
  | OStr s => negb (String.eqb s "")
  | OList xs | OTuple xs => match xs with [] => false | _ => true end
  | ODict _ | OAt _ => match items h x with [] => false | _ => true end
  | OData _ _ _ => true
  | OObj _ => true
  end.

(** What the tests on the class of a value see: a key is guarded, and
    turned into text, by its class and its own content alone. *)
Definition shallow (x : obj) : pyval :=
  match x with
  | ONone => PNone
  | OBool b => PBool b
  | OInt n => PInt n
  | OStr s => PStr s
  | OList _ => PList []
  | OTuple _ => PTuple []
  | ODict _ | OAt _ => PDict []
  | OData _ n _ => PData PNone n PNone
  | OObj _ => PObj None
  end.

(** [d[k] = v] and [del d[k]] on the entries of a mapping object. *)
Fixpoint dict_set (k : string) (v : obj) (d : list (string * obj))
  : list (string * obj) :=
  match d with
  | [] => [(k, v)]
  | (k', v') :: d' =>
      if String.eqb k' k then (k', v) :: d' else (k', v') :: dict_set k v d'
  end.

Fixpoint dict_del (k : string) (d : list (string * obj))
  : result (list (string * obj)) :=
  match d with
  | [] => Raise (KeyError k)
  | (k', v') :: d' =>
      if String.eqb k' k then Ok d'
      else rbind (dict_del k d') (fun r => Ok ((k', v') :: r))
  end.

Section each.
Context {A B : Type} (f : A -> result B).

(** A comprehension, left to right; the first element that raises ends it. *)
Fixpoint each (l : list A) : result (list B) :=
  match l with
  | [] => Ok []
  | x :: l' => y <- f x ;; ys <- each l' ;; Ok (y :: ys)
  end.

Fixpoint each_value (kvs : list (string * A)) : result (list (string * B)) :=
  match kvs with
  | [] => Ok []
  | kv :: kvs' => y <- f (snd kv) ;; ys <- each_value kvs' ;; Ok ((fst kv, y) :: ys)
  end.
End each.

(** *** The Data placeholder *)

Module Data.

Definition dump (h : store) (fields : obj) (size : Z) (data : obj) : obj :=
  let f := fields in
  let d := data in
  let n := size in
  if truthy h d then
    if is_dict d then ODict [("m", ODict [("f", f); ("d", d)])]
    else if n <? 0 then ODict [("c", ODict [("f", f); ("d", d)])]
         else ODict [("f", ODict [("f", f); ("d", d)])]
  else
    if n =? 0 then ODict [("m", ODict [("f", f)])]
    else if n <? 0 then ODict [("c", ODict [("f", f); ("n", OInt (- n))])]
         else ODict [("f", ODict [("f", f); ("n", OInt n)])].

End Data.

(** *** Recursive dump *)

Definition _can_dump (x : obj) : bool :=
  match x with
  | OData _ _ _ => true
  | OObj (Some _) => true
  | _ => false
  end.

(** [_dump]: the comprehensions build new lists and new mappings, and a
    shared mapping is read where it stands.  [path] holds the shared
    mappings the recursion is inside of: a mapping that holds itself makes
    the source recurse without end, which is no answer of the model.  The
    recursion is on [fuel], one unit for each shared mapping entered;
    [dump_in_fuel] shows that one more than the size of the store is
    enough. *)
Fixpoint _dump (fuel : nat) (h : store) (path : list addr) (xs : obj) {struct fuel}
  : result obj :=
  match fuel with
  | O => Raise (OutsideModel "fuel")
  | S fuel' =>
      (fix here (xs : obj) : result obj :=
         match xs with
         | OList l | OTuple l => l' <- each here l ;; Ok (OList l')
         | ODict kvs => kvs' <- each_value here kvs ;; Ok (ODict kvs')
         | OAt a =>
             if existsb (Nat.eqb a) path
             then Raise (OutsideModel "recursion without end")
             else kvs' <- each_value (_dump fuel' h (a :: path)) (cell h a) ;;
                  Ok (ODict kvs')
         | OData f n d => Ok (Data.dump h f n d)
         | OObj (Some r) => Ok r
         | _ => Ok xs
         end) xs
  end.

(** *** marshal *)

(** What [json.dumps] walks through, in its order: the tree that the value
    is at this moment.  An object ends the walk with TypeError, and a
    mapping met inside itself with the ValueError of the circular check. *)
Fixpoint snapshot (fuel : nat) (h : store) (path : list addr) (v : obj) {struct fuel}
  : result pyval :=
  match fuel with
  | O => Raise (OutsideModel "fuel")
  | S fuel' =>
      (fix here (v : obj) : result pyval :=
         match v with
         | ONone => Ok PNone
         | OBool b => Ok (PBool b)
         | OInt n => Ok (PInt n)
         | OStr s => Ok (PStr s)
         | OList xs => ts <- each here xs ;; Ok (PList ts)
         | OTuple xs => ts <- each here xs ;; Ok (PTuple ts)
         | ODict kvs => kts <- each_value here kvs ;; Ok (PDict kts)
         | OAt a =>
             if existsb (Nat.eqb a) path
             then Raise (ValueError "Circular reference detected")
             else kts <- each_value (snapshot fuel' h (a :: path)) (cell h a) ;;
                  Ok (PDict kts)
         | OData _ _ _ => Raise (TypeError "Object of type Data is not JSON serializable")
         | OObj _ => Raise (TypeError "Object is not JSON serializable")
         end) v
  end.

(** The tree of a value, with fuel to spare. *)
Definition tree (h : store) (v : obj) : result pyval :=
  snapshot (S (length h)) h [] v.

Definition marshal (h : store) (d : obj) : result string :=
  t <- tree h d ;; marshal t.

(** *** Pages *)

Record PageBase : Type := mkPage { url : string; _changes : list obj }.

(** A page and the mapping objects of the program. *)
Definition world : Type := (PageBase * store)%type.

Definition py (A : Type) : Type := world -> result A * world.

Definition ret {A} (a : A) : py A := fun w => (Ok a, w).

Definition raise {A} (e : exn) : py A := fun w => (Raise e, w).

Definition bind {A B} (m : py A) (k : A -> py B) : py B :=
  fun w =>
    match m w with
    | (Ok a, w') => k a w'
    | (Raise e, w') => (Raise e, w')
    end.

(** A computation that reads the store. *)
Definition reading {A} (f : store -> result A) : py A := fun w => (f (snd w), w).

Definition _set_op (h : store) (o : Ref) (k : obj) (v : obj) : result obj :=
  _ <- _guard_key (shallow k) ;;
  let k := __key__ o ++ _key_sep ++ py_str (shallow k) in
  match v with
  | OData f n d =>
      match Data.dump h f n d with
      | ODict op => Ok (ODict (dict_set "k" (OStr k) op))
      | op => Ok op
      end
  | _ => Ok (ODict [("k", OStr k); ("v", v)])
  end.

Module PageBase.

Definition __init__ (url : string) : PageBase := mkPage url [].

Definition _track (op : obj) : py unit :=
  fun w => (Ok tt, (mkPage (url (fst w)) (_changes (fst w) ++ [op])%list, snd w)).

(** The first loop of [add]. *)
Definition scan_data (h : store) (props : list (string * obj))
  : list (string * Z) * list obj :=
  fold_left
    (fun (acc : list (string * Z) * list obj) (kv : string * obj) =>
       let (data, bufs) := acc in
       match snd kv with
       | OData f n d =>
           ((data ++ [(fst kv, Z.of_nat (length bufs))])%list,
            (bufs ++ [Data.dump h f n d])%list)
       | _ => (data, bufs)
       end)
    props ([], []).

(** The second loop of [add], on the entries of the mapping. *)
Fixpoint rename_data (data : list (string * Z)) (props : list (string * obj))
  : result (list (string * obj)) :=
  match data with
  | [] => Ok props
  | (k, v) :: data' =>
      props' <- dict_del k props ;;
      rename_data data' (dict_set ("~" ++ k) (OInt v) props')
  end.

(** [add]: the properties are the card's own mapping, or what the card
    dumps to.  The second loop rewrites that mapping: where it is a
    mapping object of the store, the store changes, and every value that
    holds the object sees it. *)
Definition add (key : obj) (card : obj) : py Ref :=
  fun w =>
    let (self, h) := w in
    match key with
    | ONone => (Raise (ValueError "card must have a key"), w)
    | OStr key =>
        match (if is_dict card then Ok card
               else if _can_dump card then _dump (S (length h)) h [] card
               else Ok ONone) with
        | Raise e => (Raise e, w)
        | Ok props =>
            if is_dict props then
              let (data, bufs) := scan_data h (items h props) in
              match rename_data data (items h props) with
              | Raise e => (Raise e, w)
              | Ok kvs =>
                  let (props', h') :=
                    match props with
                    | OAt a => (OAt a, put h a kvs)
                    | _ => (ODict kvs, h)
                    end in
                  let op :=
                    match bufs with
                    | _ :: _ => ODict [("k", OStr key); ("d", props'); ("b", OList bufs)]
                    | [] => ODict [("k", OStr key); ("d", props')]
                    end in
                  (Ok (mkRef key),
                   (mkPage (url self) (_changes self ++ [op])%list, h'))
              end
            else (Raise (ValueError "card must be dict or implement .dump() -> dict"), w)
        end
    | _ => (Raise (ValueError "key must be str"), w)
    end.

Definition _diff : py (option string) :=
  fun w =>
    let (self, h) := w in
    match _changes self with
    | [] => (Ok None, w)
    | _ :: _ =>
        match marshal h (ODict [("d", OList (_changes self))]) with
        | Ok d => (Ok (Some d), (mkPage (url self) [], h))
        | Raise e => (Raise e, w)
        end
    end.

Definition drop : py unit := _track (ODict []).

Definition __setitem__ (key card : obj) : py unit :=
  bind (add key card) (fun _ => ret tt).

Definition __getitem__ (key : obj) : py Ref :=
  match key with
  | OStr key => ret (mkRef key)
  | _ => raise (ValueError "key must be str")
  end.

Definition __delitem__ (key : obj) : py unit :=
  _track (ODict [("k", key)]).

End PageBase.

Module Ref.

(** [ref[key] = value]: the value is dumped first, then the key is guarded. *)
Definition __setitem__ (self : Ref) (key : obj) (value : obj) : py unit :=
  if is_Data value
  then raise (ValueError "Data instances cannot be used in assignments.")
  else
    bind (reading (fun h => _dump (S (length h)) h [] value))
      (fun v => bind (reading (fun h => _set_op h self key v)) PageBase._track).

Definition __setattr__ (self : Ref) (key : string) (value : obj) : py unit :=
  __setitem__ self (OStr key) value.

End Ref.

(** *** Mutations, as a caller issues them *)

Inductive mutation : Type :=
| MAdd (key card : obj)
| MSetAttr (ref : Ref) (key : string) (value : obj)
| MSetItem (ref : Ref) (key value : obj)
| MDelete (key : obj)
| MDrop.

Definition perform (m : mutation) : py unit :=
  match m with
  | MAdd key card => PageBase.__setitem__ key card
  | MSetAttr ref key value => Ref.__setattr__ ref key value
  | MSetItem ref key value => Ref.__setitem__ ref key value
  | MDelete key => PageBase.__delitem__ key
  | MDrop => PageBase.drop
  end.

(** A script of mutations; it stops at the first one that raises. *)
Fixpoint perform_all (ms : list mutation) : py unit :=
  match ms with
  | [] => ret tt
  | m :: ms' => bind (perform m) (fun _ => perform_all ms')
  end.

(** A script in which the caller catches what a mutation raises and goes
    on; the number of mutations that succeeded comes back. *)
Fixpoint attempt_all (ms : list mutation) (w : world) : nat * world :=
  match ms with
  | [] => (O, w)
  | m :: ms' =>
      match perform m w with
      | (Ok _, w') => let (n, w'') := attempt_all ms' w' in (S n, w'')
      | (Raise _, w') => attempt_all ms' w'
      end
  end.

(** *** Saving *)

Module Page.

Definition save (http : request -> net_result (Z * string)) (c : _Config)
  (w : world) (wire : list request) : net_result unit * world * list request :=
  match PageBase._diff w with
  | (Raise e, w') => (NetRaise (PyExn e), w', wire)
  | (Ok p, w') =>
      if diff_truthy p then
        match p with
        | Some d =>
            let (r, wire') := Site._save http c (url (fst w')) d wire in
            (r, w', wire')
        | None => (NetOk tt, w', wire)
        end
      else (NetOk tt, w', wire)
  end.

End Page.

Module AsyncPage.

Definition save (send : string -> net_result unit) (w : world)
  (wire : list string) : net_result unit * world * list string :=
  match PageBase._diff w with
  | (Raise e, w') => (NetRaise (PyExn e), w', wire)
  | (Ok p, w') =>
      if diff_truthy p then
        match p with
        | Some d =>
            let msg := "* " ++ url (fst w') ++ " " ++ d in
            (send msg, w', (wire ++ [msg])%list)
        | None => (NetOk tt, w', wire)
        end
      else (NetOk tt, w', wire)
  end.

End AsyncPage.

(** *** Vocabulary of the statements *)

(** Every mapping has distinct names, as every [dict] has: the ones
    written out in a value, and the ones in the store. *)
Fixpoint distinct (v : obj) : bool :=
  match v with
  | OList xs | OTuple xs => forallb distinct xs
  | ODict kvs => nodup_keys (map fst kvs) && forallb (fun kv => distinct (snd kv)) kvs
  | OData f _ d => distinct f && distinct d
  | OObj (Some r) => distinct r
  | _ => true
  end.

Definition distinct_cell (c : list (string * obj)) : bool :=
  nodup_keys (map fst c) && forallb (fun kv => distinct (snd kv)) c.

Definition distinct_world (w : world) : bool :=
  forallb distinct (_changes (fst w)) && forallb distinct_cell (snd w).

Definition distinct_mutation (m : mutation) : bool :=
  match m with
  | MAdd key card => distinct key && distinct card
  | MSetAttr _ _ value => distinct value
  | MSetItem _ key value => distinct key && distinct value
  | MDelete key => distinct key
  | MDrop => true
  end.

(** The operation a mutation builds, as far as it is fixed when it is
    built: its kind and its key.  The properties of a card added are the
    card's own mapping when the card is a mapping object of the store. *)
Definition issued (m : mutation) (op : obj) : Prop :=
  match m with
  | MAdd key card =>
      exists props rest,
        op = ODict (("k", key) :: ("d", props) :: rest) /\
        (rest = [] \/ exists bufs, bufs <> [] /\ rest = [("b", OList bufs)]) /\
        (forall a, card = OAt a -> props = OAt a)
  | MSetAttr ref key _ =>
      exists kvs, op = ODict kvs /\
                  dict_get "k" (map (fun kv => (fst kv, shallow (snd kv))) kvs) =
                  Some (PStr (__key__ ref ++ " " ++ key))
  | MSetItem ref key _ =>
      exists kvs, op = ODict kvs /\
                  dict_get "k" (map (fun kv => (fst kv, shallow (snd kv))) kvs) =
                  Some (PStr (__key__ ref ++ " " ++ py_str (shallow key)))
  | MDelete key => op = ODict [("k", key)]
  | MDrop => op = ODict []
  end.

(** In the store [h], [m] succeeds on every page: it appends [op] to the
    buffer and leaves the store [h']. *)
Definition tracks (h : store) (m : mutation) (op : obj) (h' : store) : Prop :=
  forall p, perform m (p, h) = (Ok tt, (mkPage (url p) (_changes p ++ [op]), h')).

(** The same for a script: [ops] are the operations its mutations track one
    after the other, each in the store the ones before it left. *)
Inductive tracks_all : store -> list mutation -> list obj -> store -> Prop :=
| tracks_nil (h : store) : tracks_all h [] [] h
| tracks_cons (h h' h'' : store) (m : mutation) (op : obj)
    (ms : list mutation) (ops : list obj) :
    tracks h m op h' -> tracks_all h' ms ops h'' ->
    tracks_all h (m :: ms) (op :: ops) h''.

(** An object that stands in a value outside every shared mapping: no
    later rewriting of a mapping can take it away. *)
Fixpoint holds_object (v : obj) : bool :=
  match v with
  | OList xs | OTuple xs => existsb holds_object xs
  | ODict kvs => existsb (fun kv => holds_object (snd kv)) kvs
  | OData _ _ _ | OObj _ => true
  | _ => false
  end.

(** What the walk of the encoder raises: TypeError at an object, ValueError
    at a mapping that contains itself. *)
Definition refusal (e : exn) : Prop :=
  (exists msg, e = TypeError msg) \/ e = ValueError "Circular reference detected".

End Shared.

(** A page of trees, its operations as objects: nothing in them is shared. *)
Definition unshared_page (p : PageBase) : Shared.PageBase :=
  Shared.mkPage (url p) (map Shared.unshared (_changes p)).

Definition unshared_mutation (m : mutation) : Shared.mutation :=
  match m with
  | MAdd key card => Shared.MAdd (Shared.unshared key) (Shared.unshared card)
  | MSetAttr ref key value => Shared.MSetAttr ref key (Shared.unshared value)
  | MSetItem ref key value =>
      Shared.MSetItem ref (Shared.unshared key) (Shared.unshared value)
  | MDelete key => Shared.MDelete (Shared.unshared key)
  | MDrop => Shared.MDrop
  end.

(** * The whole of the primitives: [float], and [str] in full

    [Primitive] lists [float], and a [str] holds any code points.  The
    trees of [pyval] leave both out; this part has them, for what
    [marshal] and [unmarshal] do to a value.  A [str] is the list of its
    code points, surrogates among them; a [float] is an IEEE 754 binary64
    number.  The text that [marshal] writes is ASCII ([ensure_ascii]), so a
    text stays a [string], one [ascii] per character.  Mappings have [str]
    keys, as above; objects are left out, [marshal] refuses them as shown
    for [pyval]. *)

Module Wide.

(** ** Values *)

(** A [str]: its code points, each below 0x110000. *)
Definition ustr : Type := list N.

(** A binary64 number: not-a-number, an infinity, a zero, or
    [m * 2 ^ e] with its sign. *)
Inductive pyfloat : Type :=
| FNan
| FInf (neg : bool)
| FZero (neg : bool)
| FFinite (neg : bool) (m : positive) (e : Z).

(** The one way a finite binary64 number is held: 53 bits of mantissa, the
    leading one set unless the exponent is the least one. *)
Definition canonical (m : positive) (e : Z) : bool :=
  (Z.pos m <? 2 ^ 53) && (e <=? 971) &&
  (((2 ^ 52 <=? Z.pos m) && (-1074 <=? e)) || (e =? -1074)).

#[local] Unset Elimination Schemes.
Inductive value : Type :=
| WNone
| WBool (b : bool)
| WInt (n : Z)
| WFloat (f : pyfloat)
| WStr (s : ustr)
| WList (xs : list value)
| WTuple (xs : list value)
| WDict (kvs : list (ustr * value)).
#[local] Set Elimination Schemes.

Section value_induction.
Variable P : value -> Prop.
Hypothesis HNone : P WNone.
Hypothesis HBool : forall b, P (WBool b).
Hypothesis HInt : forall n, P (WInt n).
Hypothesis HFloat : forall f, P (WFloat f).
Hypothesis HStr : forall s, P (WStr s).
Hypothesis HList : forall xs, Forall P xs -> P (WList xs).
Hypothesis HTuple : forall xs, Forall P xs -> P (WTuple xs).
Hypothesis HDict : forall kvs, Forall (fun kv => P (snd kv)) kvs -> P (WDict kvs).

Fixpoint value_ind (v : value) : P v :=
  match v with
  | WNone => HNone
  | WBool b => HBool b
  | WInt n => HInt n
  | WFloat f => HFloat f
  | WStr s => HStr s
  | WList xs =>
      HList xs ((fix all (l : list value) : Forall P l :=
                   match l with
                   | [] => Forall_nil P
                   | x :: l' => Forall_cons x (value_ind x) (all l')
                   end) xs)
  | WTuple xs =>
      HTuple xs ((fix all (l : list value) : Forall P l :=
                    match l with
                    | [] => Forall_nil P
                    | x :: l' => Forall_cons x (value_ind x) (all l')
                    end) xs)
  | WDict kvs =>
      HDict kvs ((fix all (l : list (ustr * value))
                   : Forall (fun kv => P (snd kv)) l :=
                    match l with
                    | [] => Forall_nil _
                    | kv :: l' => Forall_cons kv (value_ind (snd kv)) (all l')
                    end) kvs)
  end.
End value_induction.

(** ** Mappings with [str] keys *)

Fixpoint ustr_eqb (a b : ustr) : bool :=
  match a, b with
  | [], [] => true
  | x :: a', y :: b' => (x =? y)%N && ustr_eqb a' b'
  | _, _ => false
  end.

Fixpoint dict_get (k : ustr) (d : list (ustr * value)) : option value :=
  match d with
  | [] => None
  | (k', v) :: d' => if ustr_eqb k' k then Some v else dict_get k d'
  end.

Fixpoint dict_set (k : ustr) (v : value) (d : list (ustr * value))
  : list (ustr * value) :=
  match d with
  | [] => [(k, v)]
  | (k', v') :: d' =>
      if ustr_eqb k' k then (k', v) :: d' else (k', v') :: dict_set k v d'
  end.

(** ** The text of a [str] *)

Definition hex4_text (n : N) : string :=
  String (Json.hex_digit (n / 4096))
    (String (Json.hex_digit ((n / 256) mod 16))
       (String (Json.hex_digit ((n / 16) mod 16))
          (String (Json.hex_digit (n mod 16)) EmptyString))).

Definition u_escape (n : N) : string :=
  String backslash (String "u" (hex4_text n)).

(** One code point of a string literal, as [py_encode_basestring_ascii]
    writes it: a code point above 0xFFFF as a surrogate pair. *)
Definition escape_point (c : N) : string :=
  if (c =? 34)%N then String backslash (String dquote EmptyString)
  else if (c =? 92)%N then String backslash (String backslash EmptyString)
  else if (c =? 10)%N then String backslash "n"
  else if (c =? 13)%N then String backslash "r"
  else if (c =? 9)%N then String backslash "t"
  else if (c =? 12)%N then String backslash "f"
  else if (c =? 8)%N then String backslash "b"
  else if ((32 <=? c) && (c <=? 126))%N then String (ascii_of_N c) EmptyString
  else if (c <? 65536)%N then u_escape c
  else
    let n := (c - 65536)%N in
    u_escape (N.lor 55296 (N.land (N.shiftr n 10) 1023)) ++
    u_escape (N.lor 56320 (N.land n 1023)).

Fixpoint escape_body (s : ustr) : string :=
  match s with
  | [] => EmptyString
  | c :: s' => escape_point c ++ escape_body s'
  end.

Definition encode_str (s : ustr) : string :=
  String dquote (escape_body s ++ String dquote EmptyString).

(** ** The text of a [float] *)

(** A positive number as a fraction: of a binary64 number, and of the
    decimal [c * 10 ^ E]. *)
Definition ratio_of_float (m : positive) (e : Z) : Z * Z :=
  if 0 <=? e then (Z.pos m * 2 ^ e, 1) else (Z.pos m, 2 ^ (- e)).

Definition ratio_of_decimal (c E : Z) : Z * Z :=
  if 0 <=? E then (c * 10 ^ E, 1) else (c, 10 ^ (- E)).

(** [num / den / 2 ^ e], as a fraction. *)
Definition scale2 (num den e : Z) : Z * Z :=
  if 0 <=? e then (num, den * 2 ^ e) else (num * 2 ^ (- e), den).

(** The binary64 number nearest to [num / den], ties to the even mantissa:
    what [float] makes of a decimal text.  The exponent is the one that
    leaves 53 bits before the point, or the least one; a mantissa rounded
    up to 2 ^ 53 moves to the next exponent; past the greatest exponent the
    result is an infinity, and a mantissa rounded to nothing is a zero. *)
Definition round_ratio (neg : bool) (num den : Z) : pyfloat :=
  let e1 := Z.max (Z.log2 num - Z.log2 den - 53) (-1074) in
  let e2 :=
    let (a, b) := scale2 num den e1 in
    if 2 ^ 53 <=? a / b then e1 + 1 else e1 in
  let (a, b) := scale2 num den e2 in
  let q := a / b in
  let r := a mod b in
  let m :=
    if 2 * r <? b then q
    else if b <? 2 * r then q + 1
    else if Z.even q then q else q + 1 in
  let (m, e) := if m =? 2 ^ 53 then (2 ^ 52, e2 + 1) else (m, e2) in
  if m =? 0 then FZero neg
  else if 971 <? e then FInf neg
  else FFinite neg (Z.to_pos m) e.

(** [float] of the decimal [c * 10 ^ E], [c] not negative. *)
Definition float_of_decimal (neg : bool) (c E : Z) : pyfloat :=
  if c <=? 0 then FZero neg
  else
    let (num, den) := ratio_of_decimal c E in
    let g := Z.gcd num den in
    round_ratio neg (num / g) (den / g).

Definition pyfloat_eqb (a b : pyfloat) : bool :=
  match a, b with
  | FNan, FNan => true
  | FInf s, FInf t | FZero s, FZero t => Bool.eqb s t
  | FFinite s m e, FFinite t n f => Bool.eqb s t && (m =? n)%positive && (e =? f)
  | _, _ => false
  end.

(** [num / den < 10 ^ k] *)
Definition below_power (num den k : Z) : bool :=
  if 0 <=? k then num <? den * 10 ^ k else num * 10 ^ (- k) <? den.

(** The least [k] from [k] on with [num / den < 10 ^ k]. *)
Fixpoint decimal_exponent_from (fuel : nat) (k : Z) (num den : Z) : Z :=
  match fuel with
  | O => k
  | S fuel' =>
      if below_power num den k then k
      else decimal_exponent_from fuel' (k + 1) num den
  end.

(** The place of the decimal point: the [k] with
    [10 ^ (k - 1) <= num / den < 10 ^ k].  A binary64 number lies between
    [10 ^ -324] and [10 ^ 309]. *)
Definition decimal_exponent (num den : Z) : Z :=
  decimal_exponent_from 640 (-324) num den.

(** The decimal of [n] digits that reads back as the number, if there is
    one: of the two next to the number, the nearer when both do, the even
    one when they are as near. *)
Definition candidate (neg : bool) (m : positive) (e : Z) (k n : Z) : option Z :=
  let (num, den) := ratio_of_float m e in
  let j := n - k in
  let (a, b) := if 0 <=? j then (num * 10 ^ j, den) else (num, den * 10 ^ (- j)) in
  let lo := a / b in
  let r := a mod b in
  let hi := lo + 1 in
  let reads c := pyfloat_eqb (float_of_decimal neg c (- j)) (FFinite neg m e) in
  match reads lo, reads hi with
  | true, true =>
      Some (if 2 * r <? b then lo
            else if b <? 2 * r then hi
            else if Z.even lo then lo else hi)
  | true, false => Some lo
  | false, true => Some hi
  | false, false => None
  end.

(** The shortest decimal that reads back as the number: its digits as a
    number, and its exponent.  The search is on [fuel]; it ends at the
    latest where the decimal is the number itself (see
    [shortest_in_fuel]). *)
Fixpoint shortest (fuel : nat) (neg : bool) (m : positive) (e : Z) (k n : Z)
  : option (Z * Z) :=
  match fuel with
  | O => None
  | S fuel' =>
      match candidate neg m e k n with
      | Some c => Some (c, k - n)
      | None => shortest fuel' neg m e k (n + 1)
      end
  end.

(** Zeros at the end of the digits go into the exponent. *)
Fixpoint strip_zeros (fuel : nat) (c E : Z) : Z * Z :=
  match fuel with
  | O => (c, E)
  | S fuel' =>
      if (0 <? c) && (c mod 10 =? 0) then strip_zeros fuel' (c / 10) (E + 1)
      else (c, E)
  end.

(** The decimal digits of a number, the first one first. *)
Fixpoint digits_from (fuel : nat) (n : Z) (acc : list Z) : list Z :=
  match fuel with
  | O => acc
  | S fuel' =>
      if n <? 10 then n :: acc else digits_from fuel' (n / 10) (n mod 10 :: acc)
  end.

Definition digits (n : Z) : list Z :=
  digits_from (S (Z.to_nat (Z.log2 n))) n [].

Definition digit_char (d : Z) : ascii := ascii_of_N (48 + Z.to_N d).

Fixpoint text_of_digits (ds : list Z) : string :=
  match ds with
  | [] => EmptyString
  | d :: ds' => String (digit_char d) (text_of_digits ds')
  end.

(** The exponent of the scientific notation: a sign and two digits at
    least. *)
Definition format_exponent (x : Z) : string :=
  String "e"
    ((if x <? 0 then "-" else "+") ++
     (if Z.abs x <? 10 then "0" else EmptyString) ++ text_of_digits (digits (Z.abs x))).

(** [float_repr_style = 'short']: the digits [ds] with the decimal point
    after the first [decpt] of them, in scientific notation when
    [decpt <= -4] or [decpt > 16], and with [.0] after a whole number. *)
Definition format_float (ds : list Z) (decpt : Z) : string :=
  if (decpt <=? -4) || (16 <? decpt) then
    match ds with
    | [] => EmptyString
    | [d] => text_of_digits [d] ++ format_exponent (decpt - 1)
    | d :: ds' =>
        text_of_digits [d] ++ "." ++ text_of_digits ds' ++ format_exponent (decpt - 1)
    end
  else if decpt <=? 0 then
    "0." ++ text_of_digits (repeat 0 (Z.to_nat (- decpt))) ++ text_of_digits ds
  else if Z.of_nat (length ds) <=? decpt then
    text_of_digits ds ++
    text_of_digits (repeat 0 (Z.to_nat (decpt - Z.of_nat (length ds)))) ++ ".0"
  else
    text_of_digits (firstn (Z.to_nat decpt) ds) ++ "." ++
    text_of_digits (skipn (Z.to_nat decpt) ds).

(** [float.__repr__] of a finite number that is not zero. *)
Definition float_repr (neg : bool) (m : positive) (e : Z) : result string :=
  let (num, den) := ratio_of_float m e in
  match shortest 1400 neg m e (decimal_exponent num den) 1 with
  | Some (c, E) =>
      let (c', E') := strip_zeros (Z.to_nat (Z.log2 c)) c E in
      let ds := digits c' in
      Ok ((if neg then "-" else EmptyString) ++
          format_float ds (Z.of_nat (length ds) + E'))
  | None => Raise (OutsideModel "fuel")
  end.

(** [allow_nan=False]: no text for what JSON has no number for. *)
Definition encode_float (f : pyfloat) : result string :=
  match f with
  | FNan | FInf _ =>
      Raise (ValueError "Out of range float values are not JSON compliant")
  | FZero neg => Ok (if neg then "-0.0" else "0.0")
  | FFinite neg m e => float_repr neg m e
  end.

(** ** The encoder *)

(** [int.__repr__]: the decimal digits, after the sign. *)
Definition encode_int (n : Z) : string :=
  (if n <? 0 then "-" else EmptyString) ++ text_of_digits (digits (Z.abs n)).

Fixpoint dumps (v : value) : result string :=
  match v with
  | WNone => Ok "null"
  | WBool true => Ok "true"
  | WBool false => Ok "false"
  | WInt n => Ok (encode_int n)
  | WFloat f => encode_float f
  | WStr s => Ok (encode_str s)
  | WList xs | WTuple xs =>
      body <- Json.encode_items dumps xs ;; Ok ("[" ++ body ++ "]")
  | WDict kvs =>
      body <- Json.encode_items
                (fun kv => t <- dumps (snd kv) ;; Ok (encode_str (fst kv) ++ ":" ++ t))
                kvs ;;
      Ok ("{" ++ body ++ "}")
  end.

(** ** The decoder *)

Definition is_high (n : N) : bool := ((55296 <=? n) && (n <=? 56319))%N.

Definition is_low (n : N) : bool := ((56320 <=? n) && (n <=? 57343))%N.

(** The code point a surrogate pair stands for. *)
Definition join (hi lo : N) : N :=
  (65536 + N.lor (N.shiftl (hi - 55296) 10) (lo - 56320))%N.

(** [scanstring] in strict mode, from just after the opening quote.  After
    an escaped high surrogate, a backslash and a u open a second escape: a
    low surrogate there is joined with the first into one code point. *)
Fixpoint scanstring (s : string) : result (ustr * string) :=
  match s with
  | EmptyString => Raise (JSONDecodeError "Unterminated string starting at")
  | String c s' =>
      if Ascii.eqb c dquote then Ok ([], s')
      else if Ascii.eqb c backslash then
        match s' with
        | EmptyString => Raise (JSONDecodeError "Unterminated string starting at")
        | String e s'' =>
            if Ascii.eqb e "u"%char then
              match s'' with
              | String h1 (String h2 (String h3 (String h4 rest))) =>
                  match Json.hex4 h1 h2 h3 h4 with
                  | Some n =>
                      let single :=
                        '(body, r) <- scanstring rest ;; Ok (n :: body, r) in
                      if is_high n then
                        match rest with
                        | String b1 (String u1 rest1) =>
                            if Ascii.eqb b1 backslash && Ascii.eqb u1 "u"%char then
                              match rest1 with
                              | String g1 (String g2 (String g3 (String g4 rest2))) =>
                                  match Json.hex4 g1 g2 g3 g4 with
                                  | Some n2 =>
                                      if is_low n2 then
                                        '(body, r) <- scanstring rest2 ;;
                                        Ok (join n n2 :: body, r)
                                      else single
                                  | None =>
                                      Raise (JSONDecodeError "Invalid \uXXXX escape")
                                  end
                              | _ => Raise (JSONDecodeError "Invalid \uXXXX escape")
                              end
                            else single
                        | _ => single
                        end
                      else single
                  | None => Raise (JSONDecodeError "Invalid \uXXXX escape")
                  end
              | _ => Raise (JSONDecodeError "Invalid \uXXXX escape")
              end
            else
              match Json.unescape e with
              | Some ch =>
                  '(body, r) <- scanstring s'' ;; Ok (N_of_ascii ch :: body, r)
              | None => Raise (JSONDecodeError "Invalid \escape")
              end
        end
      else if (N_of_ascii c <? 32)%N
           then Raise (JSONDecodeError "Invalid control character at")
           else '(body, r) <- scanstring s' ;; Ok (N_of_ascii c :: body, r)
  end.

(** The longest run of decimal digits at the head of [s], and the rest. *)
Fixpoint span_digits (s : string) : string * string :=
  match s with
  | EmptyString => (EmptyString, EmptyString)
  | String c s' =>
      if Json.is_digit c then let (d, r) := span_digits s' in (String c d, r)
      else (EmptyString, s)
  end.

(** The number a run of digits writes. *)
Fixpoint digits_value_from (acc : Z) (s : string) : Z :=
  match s with
  | EmptyString => acc
  | String c s' => digits_value_from (10 * acc + (Z.of_N (N_of_ascii c) - 48)) s'
  end.

Definition digits_value (s : string) : Z := digits_value_from 0 s.

(** The fraction of a number, where there is one: the digits after the
    dot. *)
Definition scan_frac (r : string) : string * string :=
  if Json.has_frac r then
    match r with
    | String _ r' => span_digits r'
    | EmptyString => (EmptyString, r)
    end
  else (EmptyString, r).

(** The exponent of a number, where there is one. *)
Definition scan_exp (r : string) : option Z * string :=
  if Json.has_exp r then
    match r with
    | String _ (String d r') =>
        if Ascii.eqb d "-"%char then
          let (x, r'') := span_digits r' in (Some (- digits_value x), r'')
        else if Ascii.eqb d "+"%char then
          let (x, r'') := span_digits r' in (Some (digits_value x), r'')
        else
          let (x, r'') := span_digits (String d r') in (Some (digits_value x), r'')
    | _ => (None, r)
    end
  else (None, r).

(** A number: [int] of the digits when neither a fraction nor an exponent
    follows them, [float] of the whole text otherwise. *)
Definition number_digits (neg : bool) (s1 : string) : result (value * string) :=
  match s1 with
  | EmptyString => Raise (JSONDecodeError "Expecting value")
  | String c s2 =>
      if Json.is_digit c then
        let (int, r) :=
          if Ascii.eqb c "0"%char then ("0", s2) else span_digits s1 in
        let (frac, r1) := scan_frac r in
        let (exp, r2) := scan_exp r1 in
        match frac, exp with
        | EmptyString, None =>
            Ok (WInt (if neg then - digits_value int else digits_value int), r2)
        | _, _ =>
            let x := match exp with Some x => x | None => 0 end in
            Ok (WFloat (float_of_decimal neg (digits_value (int ++ frac))
                          (x - Z.of_nat (String.length frac))), r2)
        end
      else Raise (JSONDecodeError "Expecting value")
  end.

Definition match_number (s : string) : result (value * string) :=
  match s with
  | String c s' =>
      if Ascii.eqb c "-"%char then number_digits true s' else number_digits false s
  | EmptyString => number_digits false s
  end.

(** [dict(pairs)]: a repeated key keeps its first place and its last
    value. *)
Definition dict_of_pairs (pairs : list (ustr * value)) : list (ustr * value) :=
  fold_left (fun d kv => dict_set (fst kv) (snd kv) d) pairs [].

(** [scan_once], with the loops of [JSONArray] and [JSONObject], on
    [fuel]. *)
Fixpoint scan_once (fuel : nat) (s : string) {struct fuel}
  : result (value * string) :=
  match fuel with
  | O => Raise (OutsideModel "fuel")
  | S fuel' =>
      match s with
      | EmptyString => Raise (JSONDecodeError "Expecting value")
      | String c s' =>
          if Ascii.eqb c dquote then
            '(b, r) <- scanstring s' ;; Ok (WStr b, r)
          else if Ascii.eqb c "{"%char then
            let s1 := Json.skip_ws s' in
            let object :=
              '(pairs, r) <- parse_object fuel' s1 ;;
              Ok (WDict (dict_of_pairs pairs), r) in
            match s1 with
            | String c1 r => if Ascii.eqb c1 "}"%char then Ok (WDict [], r) else object
            | EmptyString => object
            end
          else if Ascii.eqb c "["%char then
            let s1 := Json.skip_ws s' in
            let array := '(vs, r) <- parse_array fuel' s1 ;; Ok (WList vs, r) in
            match s1 with
            | String c1 r => if Ascii.eqb c1 "]"%char then Ok (WList [], r) else array
            | EmptyString => array
            end
          else
            match Json.starts_with "null" s, Json.starts_with "true" s,
                  Json.starts_with "false" s with
            | Some r, _, _ => Ok (WNone, r)
            | _, Some r, _ => Ok (WBool true, r)
            | _, _, Some r => Ok (WBool false, r)
            | None, None, None =>
                match Json.starts_with "NaN" s, Json.starts_with "Infinity" s,
                      Json.starts_with "-Infinity" s with
                | Some r, _, _ => Ok (WFloat FNan, r)
                | _, Some r, _ => Ok (WFloat (FInf false), r)
                | _, _, Some r => Ok (WFloat (FInf true), r)
                | None, None, None => match_number s
                end
            end
      end
  end

with parse_array (fuel : nat) (s : string) {struct fuel}
  : result (list value * string) :=
  match fuel with
  | O => Raise (OutsideModel "fuel")
  | S fuel' =>
      '(v, r) <- scan_once fuel' s ;;
      match Json.skip_ws r with
      | String c r' =>
          if Ascii.eqb c "]"%char then Ok ([v], r')
          else if Ascii.eqb c ","%char then
            '(vs, r'') <- parse_array fuel' (Json.skip_ws r') ;; Ok (v :: vs, r'')
          else Raise (JSONDecodeError "Expecting ',' delimiter")
      | EmptyString => Raise (JSONDecodeError "Expecting ',' delimiter")
      end
  end

with parse_object (fuel : nat) (s : string) {struct fuel}
  : result (list (ustr * value) * string) :=
  match fuel with
  | O => Raise (OutsideModel "fuel")
  | S fuel' =>
      match s with
      | String q s1 =>
          if Ascii.eqb q dquote then
            '(k, r) <- scanstring s1 ;;
            match Json.skip_ws r with
            | String c r1 =>
                if Ascii.eqb c ":"%char then
                  '(v, r2) <- scan_once fuel' (Json.skip_ws r1) ;;
                  match Json.skip_ws r2 with
                  | String d r3 =>
                      if Ascii.eqb d "}"%char then Ok ([(k, v)], r3)
                      else if Ascii.eqb d ","%char then
                        '(kvs, r4) <- parse_object fuel' (Json.skip_ws r3) ;;
                        Ok ((k, v) :: kvs, r4)
                      else Raise (JSONDecodeError "Expecting ',' delimiter")
                  | EmptyString => Raise (JSONDecodeError "Expecting ',' delimiter")
                  end
                else Raise (JSONDecodeError "Expecting ':' delimiter")
            | EmptyString => Raise (JSONDecodeError "Expecting ':' delimiter")
            end
          else Raise (JSONDecodeError
                        "Expecting property name enclosed in double quotes")
      | EmptyString =>
          Raise (JSONDecodeError "Expecting property name enclosed in double quotes")
      end
  end.

Definition loads (s : string) : result value :=
  '(v, r) <- scan_once (S (2 * String.length s)) (Json.skip_ws s) ;;
  match Json.skip_ws r with
  | EmptyString => Ok v
  | _ => Raise (JSONDecodeError "Extra data")
  end.

(** ** marshal / unmarshal *)

Definition marshal (d : value) : result string := dumps d.

Definition unmarshal (s : string) : result value := loads s.

(** ** Vocabulary of the statements *)

(** A [str] that holds code points, and no high surrogate right before a
    low one. *)
Definition code_point (c : N) : bool := (c <? 1114112)%N.

Fixpoint no_surrogate_pair (s : ustr) : bool :=
  match s with
  | [] => true
  | c :: s' =>
      match s' with
      | c' :: _ => negb (is_high c && is_low c')
      | [] => true
      end && no_surrogate_pair s'
  end.

Definition sound_str (s : ustr) : bool :=
  forallb code_point s && no_surrogate_pair s.

(** The text goes on with an escape that [scanstring] would take, after an
    escaped high surrogate, for the second half of a pair, or refuse. *)
Definition low_escape (s : string) : bool :=
  match s with
  | String b1 (String u1 rest1) =>
      Ascii.eqb b1 backslash && Ascii.eqb u1 "u"%char &&
      match rest1 with
      | String g1 (String g2 (String g3 (String g4 _))) =>
          match Json.hex4 g1 g2 g3 g4 with
          | Some n2 => is_low n2
          | None => true
          end
      | _ => true
      end
  | _ => false
  end.

(** The fraction [num / den] is the number [m * 2 ^ e]. *)
Definition is_ratio (num den : Z) (m : positive) (e : Z) : Prop :=
  if 0 <=? e then num = Z.pos m * 2 ^ e * den
  else num * 2 ^ (- e) = Z.pos m * den.

(** The text of a number from its parts: the digits before the point,
    the digits after it if there are any, and the exponent if there is
    one. *)
Definition number_text (I F : list Z) (X : option Z) : string :=
  text_of_digits I ++
  match F with
  | [] => EmptyString
  | _ :: _ => "." ++ text_of_digits F
  end ++
  match X with
  | Some x => format_exponent x
  | None => EmptyString
  end.

(** A float that JSON has a number for. *)
Definition finite (f : pyfloat) : bool :=
  match f with
  | FZero _ => true
  | FFinite _ m e => canonical m e
  | FNan | FInf _ => false
  end.

Fixpoint nodup_keys (ks : list ustr) : bool :=
  match ks with
  | [] => true
  | k :: ks' => negb (existsb (ustr_eqb k) ks') && nodup_keys ks'
  end.

(** What JSON can represent: [None], booleans, integers, finite floats,
    sound strings, lists, tuples and mappings with sound and distinct
    keys. *)
Fixpoint representable (v : value) : bool :=
  match v with
  | WNone | WBool _ | WInt _ => true
  | WFloat f => finite f
  | WStr s => sound_str s
  | WList xs | WTuple xs => forallb representable xs
  | WDict kvs =>
      forallb (fun kv => sound_str (fst kv)) kvs &&
      nodup_keys (map fst kvs) &&
      forallb (fun kv => representable (snd kv)) kvs
  end.

(** No tuple in the value. *)
Fixpoint tupleless (v : value) : bool :=
  match v with
  | WList xs => forallb tupleless xs
  | WTuple _ => false
  | WDict kvs => forallb (fun kv => tupleless (snd kv)) kvs
  | _ => true
  end.

(** The value with each tuple turned into the list of its elements. *)
Fixpoint listed (v : value) : value :=
  match v with
  | WList xs | WTuple xs => WList (map listed xs)
  | WDict kvs => WDict (map (fun kv => (fst kv, listed (snd kv))) kvs)
  | _ => v
  end.

(** The number a value is, as a fraction, for the comparison of [bool],
    [int] and [float] with each other. *)
Definition as_number (v : value) : option (Z * Z) :=
  match v with
  | WBool true => Some (1, 1)
  | WBool false => Some (0, 1)
  | WInt n => Some (n, 1)
  | WFloat (FZero _) => Some (0, 1)
  | WFloat (FFinite neg m e) =>
      let (num, den) := ratio_of_float m e in
      Some (if neg then - num else num, den)
  | _ => None
  end.

(** Python's [==]: numbers by value, an infinity with itself, a
    not-a-number with nothing; sequences of the same kind item by item;
    mappings key by key, whatever their order. *)
Fixpoint py_eq (a b : value) {struct a} : bool :=
  match a, b with
  | WNone, WNone => true
  | WFloat (FInf s), WFloat (FInf t) => Bool.eqb s t
  | WBool _, _ | WInt _, _ | WFloat _, _ =>
      match as_number a, as_number b with
      | Some (n, d), Some (n', d') => n * d' =? n' * d
      | _, _ => false
      end
  | WStr s, WStr t => ustr_eqb s t
  | WList xs, WList ys | WTuple xs, WTuple ys =>
      (fix go (l : list value) (r : list value) : bool :=
         match l, r with
         | [], [] => true
         | x :: l', y :: r' => py_eq x y && go l' r'
         | _, _ => false
         end) xs ys
  | WDict kvs, WDict kvs' =>
      Nat.eqb (length kvs) (length kvs') &&
      (fix go (l : list (ustr * value)) : bool :=
         match l with
         | [] => true
         | kv :: l' =>
             match dict_get (fst kv) kvs' with
             | Some v' => py_eq (snd kv) v' && go l'
             | None => false
             end
         end) kvs
  | _, _ => false
  end.

(** The number that digits write, after the digits that gave [acc]. *)
Fixpoint number_from (acc : Z) (ds : list Z) : Z :=
  match ds with
  | [] => acc
  | d :: ds' => number_from (10 * acc + d) ds'
  end.

Definition is_digit (d : Z) : Prop := 0 <= d <= 9.

(** The fuel [scan_once] uses on the text of a value. *)
Fixpoint weight (v : value) : nat :=
  match v with
  | WList xs | WTuple xs => S (fold_right (fun x acc => S (weight x + acc)%nat) O xs)
  | WDict kvs => S (fold_right (fun kv acc => S (weight (snd kv) + acc)%nat) O kvs)
  | _ => 1%nat
  end.

(** [x] has a text, and after it [scan_once] gives [x] back, its tuples as
    lists, before whatever closes the value. *)
Definition roundtrips (x : value) : Prop :=
  exists s,
    dumps x = Ok s /\
    (exists c t, s = String c t /\ opens c = true) /\
    (weight x <= String.length s)%nat /\
    (forall fuel rest,
        (weight x <= fuel)%nat -> closes rest = true ->
        scan_once fuel (s ++ rest) = Ok (listed x, rest)).

End Wide.

(** * Properties *)

(** ** The key guard *)

Lemma guard_key_str (s : string) :
  _guard_key (PStr s) =
  if str_contains " "%char s then Raise (KeyError "keys cannot contain spaces")
  else Ok tt.
Proof. reflexivity. Qed.

Lemma guard_key_spaced (s : string) :
  str_contains " "%char s = true ->
  _guard_key (PStr s) = Raise (KeyError "keys cannot contain spaces").
Proof. intros H. rewrite guard_key_str, H. reflexivity. Qed.

Lemma guard_key_plain (s : string) :
  str_contains " "%char s = false -> _guard_key (PStr s) = Ok tt.
Proof. intros H. rewrite guard_key_str, H. reflexivity. Qed.

Lemma guard_key_cases (key : pyval) :
  _guard_key key = Ok tt \/ exists msg, _guard_key key = Raise (KeyError msg).
Proof.
  destruct key as [ | | |s| | | | |[r|]]; cbn;
    try (left; reflexivity); try (right; eexists; reflexivity).
  destruct (str_contains " "%char s);
    [right; eexists; reflexivity|left; reflexivity].
Qed.

Lemma set_op_bad_key (o : Ref) (k v : pyval) (e : exn) :
  _guard_key k = Raise e -> _set_op o k v = Raise e.
Proof. intros H. unfold _set_op. rewrite H. reflexivity. Qed.

Lemma set_op_plain (o : Ref) (k v : pyval) :
  _guard_key k = Ok tt -> is_Data v = false ->
  _set_op o k v = Ok (PDict [("k", PStr (__key__ o ++ " " ++ py_str k)); ("v", v)]).
Proof.
  intros Hk Hv. unfold _set_op. rewrite Hk. cbn.
  destruct v; try reflexivity. discriminate Hv.
Qed.

(** ** Assignment through a reference *)

Lemma setitem_Data (self : Ref) (key value : pyval) (p : PageBase) :
  is_Data value = true ->
  Ref.__setitem__ self key value p =
  (Raise (ValueError "Data instances cannot be used in assignments."), p).
Proof. intros H. unfold Ref.__setitem__. rewrite H. reflexivity. Qed.

Lemma setattr_is_setitem (self : Ref) (key : string) (value : pyval) :
  Ref.__setattr__ self key value = Ref.__setitem__ self (PStr key) value.
Proof. reflexivity. Qed.

Lemma setitem_bad_key (self : Ref) (key value : pyval) (p : PageBase) (e : exn) :
  is_Data value = false -> _guard_key key = Raise e ->
  Ref.__setitem__ self key value p = (Raise e, p).
Proof.
  intros Hv Hk. unfold Ref.__setitem__. rewrite Hv.
  unfold bind, lift. rewrite (set_op_bad_key _ _ _ _ Hk). reflexivity.
Qed.

Lemma setitem_tracks (self : Ref) (key value : pyval) (p : PageBase) :
  is_Data value = false -> is_Data (_dump value) = false -> _guard_key key = Ok tt ->
  Ref.__setitem__ self key value p =
  (Ok tt,
   mkPage (url p)
     (_changes p ++
      [PDict [("k", PStr (__key__ self ++ " " ++ py_str key)); ("v", _dump value)]])).
Proof.
  intros Hv Hd Hk. unfold Ref.__setitem__. rewrite Hv.
  unfold bind, lift. rewrite (set_op_plain _ _ _ Hk Hd). reflexivity.
Qed.

(** What [_dump] returns is a Data only for an object whose own [dump]
    hands one back. *)
Lemma dump_not_Data (v : pyval) :
  (forall f n d, v <> PObj (Some (PData f n d))) -> is_Data (_dump v) = false.
Proof.
  intros H. destruct v as [ | | | | | | | f n d | [r|]]; try reflexivity.
  - cbn. unfold Data.dump.
    destruct (truthy d), (is_dict d), (n <? 0), (n =? 0); reflexivity.
  - cbn. destruct r; try reflexivity. exfalso. eapply H. reflexivity.
Qed.

(** ** C5 *)

(** C5. A Data placeholder without initial data encodes by the sign of its
    size: size 0 is the map buffer [{m: {f: fields}}], a positive size the
    fixed buffer [{f: {f: fields, n: size}}], a negative size the circular
    buffer [{c: {f: fields, n: |size|}}]. *)
Theorem Data_dump_by_sign (fields : pyval) (size : Z) (data : pyval) :
  truthy data = false ->
  (size = 0 ->
   Data.dump fields size data = PDict [("m", PDict [("f", fields)])]) /\
  (size > 0 ->
   Data.dump fields size data =
   PDict [("f", PDict [("f", fields); ("n", PInt size)])]) /\
  (size < 0 ->
   Data.dump fields size data =
   PDict [("c", PDict [("f", fields); ("n", PInt (Z.abs size))])]).
Proof.
  intros Hd. unfold Data.dump. rewrite Hd. repeat split; intros Hs.
  - subst size. reflexivity.
  - destruct (Z.eqb_spec size 0); [lia|].
    destruct (Z.ltb_spec size 0); [lia|]. reflexivity.
  - destruct (Z.eqb_spec size 0); [lia|].
    destruct (Z.ltb_spec size 0); [|lia].
    rewrite Z.abs_neq by lia. reflexivity.
Qed.

Lemma Data_dump_by_sign_witness :
  Data.dump (PList [PStr "a"; PStr "b"]) 0 PNone =
    PDict [("m", PDict [("f", PList [PStr "a"; PStr "b"])])] /\
  Data.dump (PList [PStr "a"; PStr "b"]) 3 PNone =
    PDict [("f", PDict [("f", PList [PStr "a"; PStr "b"]); ("n", PInt 3)])] /\
  Data.dump (PList [PStr "a"; PStr "b"]) (-5) PNone =
    PDict [("c", PDict [("f", PList [PStr "a"; PStr "b"]); ("n", PInt 5)])].
Proof.
  split; [|split].
  - apply (Data_dump_by_sign (PList [PStr "a"; PStr "b"]) 0 PNone); reflexivity.
  - apply (Data_dump_by_sign (PList [PStr "a"; PStr "b"]) 3 PNone); reflexivity.
  - apply (Data_dump_by_sign (PList [PStr "a"; PStr "b"]) (-5) PNone); reflexivity.
Defined.

(** The same placeholders on the wire. *)
Example Data_dump_on_the_wire :
  marshal (Data.dump (PList [PStr "a"; PStr "b"]) 0 PNone) =
    Ok (sq "{'m':{'f':['a','b']}}") /\
  marshal (Data.dump (PList [PStr "a"; PStr "b"]) (-5) PNone) =
    Ok (sq "{'c':{'f':['a','b'],'n':5}}").
Proof. split; reflexivity. Qed.

(** ** C6 *)

(** C6. Assigning a value that is itself a Data placeholder through a
    reference, by attribute or by index, raises InvalidAssignmentError and
    leaves the page, its mutation buffer included, as it was. *)
Theorem Ref_assign_Data_rejected
  (self : Ref) (fields : pyval) (size : Z) (data : pyval) (p : PageBase) :
  (forall key : string,
      exists e, InvalidAssignmentError e /\
                Ref.__setattr__ self key (PData fields size data) p = (Raise e, p)) /\
  (forall key : pyval,
      exists e, InvalidAssignmentError e /\
                Ref.__setitem__ self key (PData fields size data) p = (Raise e, p)).
Proof.
  split; intros key; eexists; (split; [reflexivity|]).
  - rewrite setattr_is_setitem. apply setitem_Data. reflexivity.
  - apply setitem_Data. reflexivity.
Qed.

(** ** C9 *)

(** C9, as the claim states it, fails where the assigned value is a Data
    placeholder: the assignment methods test the value before the key is
    ever guarded, so a key with a space meets InvalidAssignmentError, not
    InvalidKeyError. *)
Lemma spaced_key_with_Data_counterexample :
  str_contains " "%char "a b" = true /\
  Ref.__setattr__ (mkRef "c") "a b" (PData (PList [PStr "x"]) 10 PNone)
    (PageBase.__init__ "/demo") =
  (Raise (ValueError "Data instances cannot be used in assignments."),
   PageBase.__init__ "/demo") /\
  ~ InvalidKeyError (ValueError "Data instances cannot be used in assignments.").
Proof.
  split; [reflexivity|]. split; [reflexivity|].
  intros [msg H]. discriminate H.
Qed.

(** C9, amended. A key with a space makes the guard, both navigations and
    every assignment of a value that is not itself a Data placeholder raise
    InvalidKeyError, the assignment leaving the page untouched; with a Data
    placeholder as the value the assignment raises InvalidAssignmentError
    instead.  Integers and strings without a space pass the guard. *)
Theorem spaced_key_rejected (key : string) :
  (str_contains " "%char key = true ->
   (exists e, InvalidKeyError e /\ _guard_key (PStr key) = Raise e) /\
   (forall self,
       exists e, InvalidKeyError e /\ Ref.__getattr__ self key = Raise e) /\
   (forall self,
       exists e, InvalidKeyError e /\ Ref.__getitem__ self (PStr key) = Raise e) /\
   (forall self value p,
       is_Data value = false ->
       exists e, InvalidKeyError e /\
                 Ref.__setattr__ self key value p = (Raise e, p) /\
                 Ref.__setitem__ self (PStr key) value p = (Raise e, p)) /\
   (forall self value p,
       is_Data value = true ->
       exists e, InvalidAssignmentError e /\
                 Ref.__setattr__ self key value p = (Raise e, p) /\
                 Ref.__setitem__ self (PStr key) value p = (Raise e, p))) /\
  (str_contains " "%char key = false -> _guard_key (PStr key) = Ok tt) /\
  (forall n : Z, _guard_key (PInt n) = Ok tt).
Proof.
  split; [|split].
  - intros Hs. pose proof (guard_key_spaced key Hs) as Hg.
    assert (Hk : InvalidKeyError (KeyError "keys cannot contain spaces"))
      by (eexists; reflexivity).
    repeat split.
    + eexists. split; [exact Hk|exact Hg].
    + intros self. eexists. split; [exact Hk|].
      unfold Ref.__getattr__. rewrite Hg. reflexivity.
    + intros self. eexists. split; [exact Hk|].
      unfold Ref.__getitem__. rewrite Hg. reflexivity.
    + intros self value p Hv. eexists. split; [exact Hk|].
      rewrite setattr_is_setitem.
      split; apply setitem_bad_key; assumption.
    + intros self value p Hv. eexists. split; [reflexivity|].
      rewrite setattr_is_setitem. split; apply setitem_Data; assumption.
  - apply guard_key_plain.
  - reflexivity.
Qed.

Lemma spaced_key_rejected_witness :
  (exists e, InvalidKeyError e /\
             Ref.__getattr__ (mkRef "card") "a b" = Raise e) /\
  (exists e, InvalidKeyError e /\
             Ref.__setattr__ (mkRef "card") "a b" (PInt 1) (PageBase.__init__ "/demo") =
             (Raise e, PageBase.__init__ "/demo")) /\
  _guard_key (PStr "a_b") = Ok tt.
Proof.
  destruct (spaced_key_rejected "a b") as [H _].
  destruct (H eq_refl) as (_ & Hget & _ & Hset & _).
  split; [exact (Hget (mkRef "card"))|]. split.
  - destruct (Hset (mkRef "card") (PInt 1) (PageBase.__init__ "/demo") eq_refl)
      as (e & He & H1 & _).
    exists e. split; assumption.
  - destruct (spaced_key_rejected "a_b") as (_ & Hp & _). apply Hp. reflexivity.
Defined.

(** ** C10 *)

Lemma dict_get_dump (name : string) (kvs : list (string * pyval)) :
  dict_get name (map (fun kv : string * pyval => (fst kv, _dump (snd kv))) kvs) =
  option_map _dump (dict_get name kvs).
Proof.
  induction kvs as [|[k v] kvs IH]; [reflexivity|]. cbn [map dict_get fst snd].
  destruct (String.eqb k name); [reflexivity|exact IH].
Qed.

Lemma child_dump (s : step) (v w : pyval) :
  child s v = Some w -> child s (_dump v) = Some (_dump w).
Proof.
  destruct s as [i|name], v as [ |b|n|t|xs|xs|kvs|f n d|r]; try discriminate;
    cbn [child _dump].
  - intros H. rewrite nth_error_map, H. reflexivity.
  - intros H. rewrite nth_error_map, H. reflexivity.
  - intros H. rewrite dict_get_dump, H. reflexivity.
Qed.

Lemma descend_dump (steps : list step) (v w : pyval) :
  descend steps v = Some w -> descend steps (_dump v) = Some (_dump w).
Proof.
  revert v. induction steps as [|s steps IH]; intros v; cbn [descend].
  - intros [= ->]. reflexivity.
  - destruct (child s v) as [u|] eqn:Hc; [|discriminate].
    intros H. rewrite (child_dump s v u Hc). exact (IH u H).
Qed.

(** A value with something below it is a list, a tuple or a mapping, and
    so is neither a placeholder nor dumped to one. *)
Lemma container_not_Data (s : step) (v w : pyval) :
  child s v = Some w -> is_Data v = false /\ is_Data (_dump v) = false.
Proof.
  destruct s, v as [ |b|n|t|xs|xs|kvs|f n d|r]; try discriminate;
    intros _; split; reflexivity.
Qed.

(** C10. A Data placeholder that stands anywhere below the assigned value,
    at any depth of lists, tuples and mapping values, is not rejected: only
    the value itself is tested, so the assignment never raises
    InvalidAssignmentError.  Under a key that passes the key guard it
    succeeds and tracks one Set operation, with the fields k and v and no
    buffer list; v is the dumped value, and where the placeholder stood,
    at the end of the same steps, stands its wire encoding.  Attribute
    assignment does the same. *)
Theorem nested_Data_is_inlined
  (self : Ref) (key value : pyval) (steps : list step)
  (fields : pyval) (size : Z) (data : pyval) (p : PageBase) :
  steps <> [] ->
  descend steps value = Some (PData fields size data) ->
  (forall e, InvalidAssignmentError e ->
             fst (Ref.__setitem__ self key value p) <> Raise e) /\
  (_guard_key key = Ok tt ->
   Ref.__setitem__ self key value p =
   (Ok tt,
    mkPage (url p)
      (_changes p ++
       [PDict [("k", PStr (__key__ self ++ " " ++ py_str key)); ("v", _dump value)]])) /\
   descend steps (_dump value) = Some (Data.dump fields size data) /\
   (forall attr : string,
       key = PStr attr ->
       Ref.__setattr__ self attr value p = Ref.__setitem__ self key value p)).
Proof.
  intros Hsteps Hd.
  destruct steps as [|s steps]; [contradiction|].
  assert (Hc : exists w, child s value = Some w).
  { cbn [descend] in Hd. destruct (child s value) as [w|]; [eauto|discriminate]. }
  destruct Hc as [w Hc].
  destruct (container_not_Data s value w Hc) as [Hv Hdv].
  split.
  - intros e He Hr. destruct (guard_key_cases key) as [Hk|[msg Hk]].
    + rewrite (setitem_tracks self key value p Hv Hdv Hk) in Hr. discriminate Hr.
    + rewrite (setitem_bad_key self key value p _ Hv Hk) in Hr. cbn in Hr.
      rewrite He in Hr. discriminate Hr.
  - intros Hk. split; [apply setitem_tracks; assumption|]. split.
    + exact (descend_dump (s :: steps) value _ Hd).
    + intros attr ->. rewrite setattr_is_setitem. reflexivity.
Qed.

Lemma nested_Data_is_inlined_witness :
  Ref.__setitem__ (mkRef "c") (PStr "x")
    (PDict [("d", PTuple [PList [PData (PList [PStr "a"]) 2 PNone]; PInt 1])])
    (PageBase.__init__ "/demo") =
  (Ok tt,
   mkPage "/demo"
     [PDict [("k", PStr "c x");
             ("v", PDict [("d", PList [PList [PDict [("f", PDict [("f", PList [PStr "a"]);
                                                                  ("n", PInt 2)])]];
                                       PInt 1])])]]) /\
  descend [Under "d"; At 0; At 0]
    (_dump (PDict [("d", PTuple [PList [PData (PList [PStr "a"]) 2 PNone]; PInt 1])])) =
  Some (PDict [("f", PDict [("f", PList [PStr "a"]); ("n", PInt 2)])]).
Proof.
  destruct (nested_Data_is_inlined (mkRef "c") (PStr "x")
              (PDict [("d", PTuple [PList [PData (PList [PStr "a"]) 2 PNone]; PInt 1])])
              [Under "d"; At 0; At 0] (PList [PStr "a"]) 2 PNone
              (PageBase.__init__ "/demo"))
    as [_ H].
  - discriminate.
  - reflexivity.
  - destruct (H eq_refl) as (Hset & Hdesc & _). split; [exact Hset|exact Hdesc].
Defined.

(** ** C1 *)

(** The value guards do reject what is no primitive and no container of
    primitives; the point of C1 is that no assignment calls them. *)
Lemma value_guards_reject (value : pyval) :
  _is_primitive value = false ->
  is_primitive_container value = false ->
  (exists e, InvalidValueError e /\ _guard_primitive value = Raise e) /\
  (exists e, InvalidValueError e /\ _guard_primitive_list value = Raise e).
Proof.
  intros Hprim Hcont. split.
  - eexists. split; [left; reflexivity|].
    unfold _guard_primitive. rewrite Hprim. reflexivity.
  - eexists. split; [right; reflexivity|].
    unfold _guard_primitive_list.
    assert (H : _are_primitives value = false).
    { unfold is_primitive_container in Hcont.
      destruct value; try reflexivity; try discriminate Hprim; exact Hcont. }
    rewrite H. reflexivity.
Qed.

(** C1, as the claim states it, fails: an object that is no primitive, no
    container of primitives and has no [dump] is assigned without complaint,
    and its Set operation is in the buffer. *)
Lemma unguarded_assignment_counterexample :
  _is_primitive (PObj None) = false /\
  is_primitive_container (PObj None) = false /\
  _can_dump (PObj None) = false /\
  _guard_primitive (PObj None) = Raise (ValueError "value must be a primitive") /\
  Ref.__setattr__ (mkRef "c") "x" (PObj None) (PageBase.__init__ "/demo") =
  (Ok tt, mkPage "/demo" [PDict [("k", PStr "c x"); ("v", PObj None)]]).
Proof. repeat split. Qed.

(** C1, amended. No assignment through a reference validates the value.
    For a value that is no primitive, no container of primitives and cannot
    be dumped, the assignment never raises InvalidValueError: under a key
    that passes the key guard it returns and appends the Set operation
    [{k: path, v: _dump(value)}]; under any other key it raises
    InvalidKeyError and the page is unchanged. *)
Theorem Ref_assignment_does_not_validate
  (self : Ref) (key value : pyval) (p : PageBase) :
  _is_primitive value = false ->
  is_primitive_container value = false ->
  _can_dump value = false ->
  (_guard_key key = Ok tt ->
   Ref.__setitem__ self key value p =
   (Ok tt,
    mkPage (url p)
      (_changes p ++
       [PDict [("k", PStr (__key__ self ++ " " ++ py_str key)); ("v", _dump value)]]))) /\
  (_guard_key key <> Ok tt ->
   exists e, InvalidKeyError e /\ Ref.__setitem__ self key value p = (Raise e, p)) /\
  (forall e, InvalidValueError e -> fst (Ref.__setitem__ self key value p) <> Raise e) /\
  (forall attr : string,
      key = PStr attr ->
      Ref.__setattr__ self attr value p = Ref.__setitem__ self key value p).
Proof.
  intros Hprim Hcont Hdump.
  assert (Hv : is_Data value = false) by (destruct value; try reflexivity; discriminate).
  assert (Hd : is_Data (_dump value) = false).
  { apply dump_not_Data. intros f n d ->. discriminate Hdump. }
  assert (Hok : _guard_key key = Ok tt ->
                Ref.__setitem__ self key value p =
                (Ok tt,
                 mkPage (url p)
                   (_changes p ++
                    [PDict [("k", PStr (__key__ self ++ " " ++ py_str key));
                            ("v", _dump value)]])))
    by (intros Hk; apply setitem_tracks; assumption).
  assert (Hbad : _guard_key key <> Ok tt ->
                 exists e, InvalidKeyError e /\
                           Ref.__setitem__ self key value p = (Raise e, p)).
  { intros Hk. destruct (guard_key_cases key) as [H|[msg H]]; [contradiction|].
    exists (KeyError msg). split; [eexists; reflexivity|].
    apply setitem_bad_key; assumption. }
  repeat split; try assumption.
  - intros e He Hr. destruct (guard_key_cases key) as [H|[msg H]].
    + rewrite (Hok H) in Hr. discriminate Hr.
    + rewrite (setitem_bad_key self key value p _ Hv H) in Hr. cbn in Hr.
      destruct He as [He|He]; subst e; discriminate Hr.
  - intros attr ->. reflexivity.
Qed.

Lemma Ref_assignment_does_not_validate_witness :
  Ref.__setitem__ (mkRef "c") (PStr "x") (PDict [("a", PObj None)])
    (PageBase.__init__ "/demo") =
  (Ok tt,
   mkPage "/demo" [PDict [("k", PStr "c x"); ("v", PDict [("a", PObj None)])]]).
Proof.
  exact (proj1 (Ref_assignment_does_not_validate (mkRef "c") (PStr "x")
                  (PDict [("a", PObj None)]) (PageBase.__init__ "/demo")
                  eq_refl eq_refl eq_refl) eq_refl).
Defined.

(** ** C2 *)

(** Assigning one field and flushing twice: the diff, then the sentinel. *)
Example assign_then_flush_twice :
  let p0 := PageBase.__init__ "/demo" in
  exists c p1,
    PageBase.__getitem__ (PStr "c") p0 = (Ok c, p0) /\
    Ref.__setattr__ c "field" (PInt 5) p0 = (Ok tt, p1) /\
    PageBase._diff p1 = (Ok (Some (sq "{'d':[{'k':'c field','v':5}]}")), p0) /\
    PageBase._diff p0 = (Ok None, p0).
Proof. cbn. do 2 eexists. repeat split. Qed.

(** C2, as the claim states it, fails on a buffer that JSON cannot encode:
    the flush raises, returns no diff and clears nothing.  Such a buffer is
    what assigning a plain object leaves behind (a float that is not finite
    does the same in Python, [marshal] passing [allow_nan=False]). *)
Lemma diff_unencodable_counterexample :
  let p0 := PageBase.__init__ "/demo" in
  let p1 := mkPage "/demo" [PDict [("k", PStr "c x"); ("v", PObj None)]] in
  Ref.__setattr__ (mkRef "c") "x" (PObj None) p0 = (Ok tt, p1) /\
  _changes p1 <> [] /\
  PageBase._diff p1 = (Raise (TypeError "Object is not JSON serializable"), p1).
Proof. cbn. repeat split. discriminate. Qed.

(** C2, amended. A flush of an empty buffer returns the sentinel and
    changes nothing, so a repeated flush returns the sentinel again.  A
    flush of a non-empty buffer whose operations encode returns exactly the
    marshaling of [{d: operations}] for the whole list and leaves the buffer
    empty; when the marshaling raises, the flush raises the same exception
    and the buffer is left whole.  The buffer afterwards is the old one or
    the empty one, never a part. *)
Theorem diff_all_or_nothing (p : PageBase) :
  (_changes p = [] ->
   PageBase._diff p = (Ok None, p) /\
   PageBase._diff (snd (PageBase._diff p)) = (Ok None, p)) /\
  (_changes p <> [] ->
   (forall d, marshal (PDict [("d", PList (_changes p))]) = Ok d ->
              PageBase._diff p = (Ok (Some d), mkPage (url p) []) /\
              PageBase._diff (snd (PageBase._diff p)) = (Ok None, mkPage (url p) [])) /\
   (forall e, marshal (PDict [("d", PList (_changes p))]) = Raise e ->
              PageBase._diff p = (Raise e, p))) /\
  (_changes (snd (PageBase._diff p)) = _changes p \/
   _changes (snd (PageBase._diff p)) = []).
Proof.
  destruct p as [u ops]. unfold PageBase._diff. cbn [_changes url].
  split; [|split].
  - intros ->. cbn. split; reflexivity.
  - intros Hne. destruct ops as [|o ops]; [contradiction|]. split.
    + intros d Hd. rewrite Hd. cbn. split; reflexivity.
    + intros e He. rewrite He. reflexivity.
  - destruct ops as [|o ops]; [left; reflexivity|].
    destruct (marshal _); [right|left]; reflexivity.
Qed.

Lemma diff_all_or_nothing_witness :
  PageBase._diff (PageBase.__init__ "/demo") = (Ok None, PageBase.__init__ "/demo") /\
  PageBase._diff (mkPage "/demo" [PDict [("k", PStr "c field"); ("v", PInt 5)]]) =
  (Ok (Some (sq "{'d':[{'k':'c field','v':5}]}")), mkPage "/demo" []).
Proof.
  split.
  - exact (proj1 (proj1 (diff_all_or_nothing (PageBase.__init__ "/demo")) eq_refl)).
  - refine (proj1 (proj1 (proj1 (proj2 (diff_all_or_nothing
              (mkPage "/demo" [PDict [("k", PStr "c field"); ("v", PInt 5)]]))) _) _ _)).
    + discriminate.
    + reflexivity.
Defined.

(** ** Insertion-ordered mappings *)

Section dict_facts.

Implicit Types (d : list (string * pyval)) (k q : string) (v : pyval).

Lemma dict_get_In d k v : dict_get k d = Some v -> In (k, v) d.
Proof.
  induction d as [|[k' v'] d IH]; cbn; [discriminate|].
  destruct (String.eqb_spec k' k) as [->|Hne].
  - intros [= ->]. left. reflexivity.
  - intros H. right. apply IH, H.
Qed.

Lemma dict_get_None d k : dict_get k d = None <-> ~ In k (map fst d).
Proof.
  induction d as [|[k' v'] d IH]; cbn.
  - split; [intros _ []|reflexivity].
  - destruct (String.eqb_spec k' k) as [->|Hne].
    + split; [discriminate|]. intros H. exfalso. apply H. left. reflexivity.
    + rewrite IH. split.
      * intros H [Heq|Hin]; [contradiction|]. apply H, Hin.
      * intros H Hin. apply H. right. exact Hin.
Qed.

Lemma In_dict_get d k v :
  NoDup (map fst d) -> In (k, v) d -> dict_get k d = Some v.
Proof.
  induction d as [|[k' v'] d IH]; cbn; [intros _ []|].
  intros Hnd [Heq|Hin].
  - injection Heq as -> ->. rewrite String.eqb_refl. reflexivity.
  - inversion Hnd as [|? ? Hnotin Hnd']; subst.
    destruct (String.eqb_spec k' k) as [->|Hne].
    + exfalso. apply Hnotin. apply (in_map fst) in Hin. exact Hin.
    + apply IH; assumption.
Qed.

Lemma dict_get_set d k v q :
  dict_get q (dict_set k v d) = if String.eqb k q then Some v else dict_get q d.
Proof.
  induction d as [|[k' v'] d IH]; cbn.
  - reflexivity.
  - destruct (String.eqb_spec k' k) as [->|Hne]; cbn.
    + destruct (String.eqb_spec k q); reflexivity.
    + destruct (String.eqb_spec k' q) as [->|Hne'].
      * destruct (String.eqb_spec k q); [congruence|reflexivity].
      * exact IH.
Qed.

Lemma dict_set_keys d k v q :
  In q (map fst (dict_set k v d)) -> q = k \/ In q (map fst d).
Proof.
  induction d as [|[k' v'] d IH]; cbn.
  - intros [H|[]]. left. symmetry. exact H.
  - destruct (String.eqb_spec k' k) as [->|Hne]; cbn.
    + intros H. right. exact H.
    + intros [H|H]; [right; left; exact H|].
      destruct (IH H) as [H'|H']; [left|right; right]; exact H'.
Qed.

Lemma dict_set_NoDup d k v :
  NoDup (map fst d) -> NoDup (map fst (dict_set k v d)).
Proof.
  induction d as [|[k' v'] d IH]; cbn; intros Hnd.
  - constructor; [intros []|constructor].
  - inversion Hnd as [|? ? Hnotin Hnd']; subst.
    destruct (String.eqb_spec k' k) as [->|Hne]; cbn.
    + constructor; assumption.
    + constructor; [|apply IH, Hnd'].
      intros H. destruct (dict_set_keys _ _ _ _ H) as [H'|H']; [congruence|].
      contradiction.
Qed.

Lemma dict_del_present d k :
  In k (map fst d) -> exists d', dict_del k d = Ok d'.
Proof.
  induction d as [|[k' v'] d IH]; cbn; [intros []|].
  destruct (String.eqb_spec k' k) as [->|Hne].
  - intros _. eexists. reflexivity.
  - intros [H|H]; [contradiction|].
    destruct (IH H) as [d' Hd']. rewrite Hd'. eexists. reflexivity.
Qed.

Lemma dict_del_keys d d' k q :
  dict_del k d = Ok d' -> In q (map fst d') -> In q (map fst d).
Proof.
  revert d'. induction d as [|[k' v'] d IH]; cbn; intros d'; [discriminate|].
  destruct (String.eqb_spec k' k) as [->|Hne].
  - intros [= <-] H. right. exact H.
  - destruct (dict_del k d) as [r|e]; cbn; [|discriminate].
    intros [= <-]. cbn. intros [H|H]; [left; exact H|right; eapply IH; eauto].
Qed.

Lemma dict_del_NoDup d d' k :
  dict_del k d = Ok d' -> NoDup (map fst d) -> NoDup (map fst d').
Proof.
  revert d'. induction d as [|[k' v'] d IH]; cbn; intros d'; [discriminate|].
  intros Hdel Hnd. inversion Hnd as [|? ? Hnotin Hnd']; subst.
  destruct (String.eqb_spec k' k) as [->|Hne].
  - injection Hdel as <-. exact Hnd'.
  - destruct (dict_del k d) as [r|e] eqn:Hr; cbn in Hdel; [|discriminate].
    injection Hdel as <-. cbn. constructor; [|eapply IH; eauto].
    intros H. apply Hnotin. eapply dict_del_keys; eauto.
Qed.

Lemma dict_get_del d d' k q :
  dict_del k d = Ok d' -> NoDup (map fst d) ->
  dict_get q d' = if String.eqb k q then None else dict_get q d.
Proof.
  revert d'. induction d as [|[k' v'] d IH]; cbn; intros d'; [discriminate|].
  intros Hdel Hnd. inversion Hnd as [|? ? Hnotin Hnd']; subst.
  destruct (String.eqb_spec k' k) as [->|Hne].
  - injection Hdel as <-.
    destruct (String.eqb_spec k q) as [->|Hq]; [|reflexivity].
    apply dict_get_None. exact Hnotin.
  - destruct (dict_del k d) as [r|e] eqn:Hr; cbn in Hdel; [|discriminate].
    injection Hdel as <-. cbn.
    destruct (String.eqb_spec k' q) as [->|Hq'].
    + destruct (String.eqb_spec k q); [congruence|reflexivity].
    + apply IH; [reflexivity|exact Hnd'].
Qed.

End dict_facts.

(** ** The two loops of add *)

Lemma scan_data_fold (props : list (string * pyval)) :
  forall (data : list (string * Z)) (bufs : list pyval),
    fold_left
      (fun (acc : list (string * Z) * list pyval) (kv : string * pyval) =>
         let (data, bufs) := acc in
         match snd kv with
         | PData f n d =>
             ((data ++ [(fst kv, Z.of_nat (length bufs))])%list,
              (bufs ++ [Data.dump f n d])%list)
         | _ => (data, bufs)
         end)
      props (data, bufs) =
    ((data ++ index_from (length bufs) (data_keys props))%list,
     (bufs ++ map encoded (map snd (data_props props)))%list).
Proof.
  unfold data_keys, data_props.
  induction props as [|[k v] props IH]; intros data bufs; cbn [fold_left].
  - cbn. rewrite !List.app_nil_r. reflexivity.
  - destruct v; cbn [snd fst filter is_Data map index_from encoded];
      try (rewrite IH; reflexivity).
    rewrite IH. rewrite List.length_app, Nat.add_1_r. cbn [length].
    rewrite <- !List.app_assoc. reflexivity.
Qed.

Lemma scan_data_spec (props : list (string * pyval)) :
  PageBase.scan_data props =
  (index_from 0 (data_keys props), map encoded (map snd (data_props props))).
Proof. unfold PageBase.scan_data. rewrite scan_data_fold. reflexivity. Qed.

Lemma index_from_keys (ks : list string) :
  forall n, map fst (index_from n ks) = ks.
Proof. induction ks as [|k ks IH]; intros n; cbn; [|rewrite IH]; reflexivity. Qed.

Lemma index_from_nth (ks : list string) :
  forall n j k, nth_error ks j = Some k ->
                In (k, Z.of_nat (n + j)) (index_from n ks).
Proof.
  induction ks as [|k0 ks IH]; intros n j k; destruct j; cbn; try discriminate.
  - intros [= ->]. left. rewrite Nat.add_0_r. reflexivity.
  - intros H. right. rewrite <- Nat.add_succ_comm. apply IH, H.
Qed.

Lemma marker_inj (a b : string) : marker a = marker b -> a = b.
Proof. unfold marker. cbn. intros [= H]. exact H. Qed.

Lemma marker_keys (q : string) (ks : list string) :
  In q (map marker ks) <-> exists k, q = marker k /\ In k ks.
Proof.
  rewrite in_map_iff. split; intros (k & H1 & H2); exists k; split; auto.
Qed.

(** The second loop succeeds and leaves a mapping with distinct keys in
    which every listed key has gone, its marker holds its index, and every
    other entry is as before. *)
Lemma rename_data_spec (data : list (string * Z)) :
  forall props : list (string * pyval),
    NoDup (map fst props) ->
    NoDup (map fst data) ->
    (forall k, In k (map fst data) -> In k (map fst props)) ->
    exists props',
      PageBase.rename_data data props = Ok props' /\
      NoDup (map fst props') /\
      (forall q, ~ In q (map fst data) -> ~ In q (map marker (map fst data)) ->
                 dict_get q props' = dict_get q props) /\
      ((forall k, In k (map fst data) -> ~ In (marker k) (map fst data)) ->
       forall k i, In (k, i) data -> dict_get (marker k) props' = Some (PInt i)) /\
      (forall k, In k (map fst data) -> ~ In k (map marker (map fst data)) ->
                 dict_get k props' = None) /\
      (forall q v, dict_get q props' = Some v ->
                   (exists i, v = PInt i) \/
                   (dict_get q props = Some v /\ ~ In q (map fst data))).
Proof.
  induction data as [|[k i] data IH]; intros props Hnd Hdata Hsub.
  - exists props. cbn. repeat split; auto.
    + intros _ k i [].
    + intros k [].
  - cbn [map fst] in Hdata, Hsub.
    inversion Hdata as [|? ? Hk Hdata']; subst.
    destruct (dict_del_present props k (Hsub k (or_introl eq_refl))) as [p0 Hdel].
    pose proof (dict_del_NoDup _ _ _ Hdel Hnd) as Hnd0.
    pose proof (dict_set_NoDup p0 (marker k) (PInt i) Hnd0) as Hnd1.
    assert (Hget1 : forall q, dict_get q (dict_set (marker k) (PInt i) p0) =
                              if String.eqb (marker k) q then Some (PInt i)
                              else if String.eqb k q then None else dict_get q props).
    { intros q. rewrite dict_get_set, (dict_get_del _ _ _ q Hdel Hnd). reflexivity. }
    assert (Hsub1 : forall k', In k' (map fst data) ->
                               In k' (map fst (dict_set (marker k) (PInt i) p0))).
    { intros k' Hk'.
      destruct (in_dec string_dec k' (map fst (dict_set (marker k) (PInt i) p0)))
        as [Hin|Hout]; [exact Hin|exfalso].
      apply dict_get_None in Hout. rewrite Hget1 in Hout.
      destruct (String.eqb_spec (marker k) k'); [discriminate|].
      destruct (String.eqb_spec k k') as [->|_]; [contradiction|].
      apply dict_get_None in Hout. apply Hout, Hsub. right. exact Hk'. }
    destruct (IH _ Hnd1 Hdata' Hsub1) as (props' & Hren & Hnd' & Hkeep & Hmark & Hgone & Hval).
    exists props'. cbn [PageBase.rename_data]. rewrite Hdel. cbn [rbind].
    fold (marker k). rewrite Hren.
    split; [reflexivity|]. split; [exact Hnd'|].
    assert (Hkeep' : forall q, ~ In q (map fst data) -> ~ In q (map marker (map fst data)) ->
                               dict_get q props' =
                               if String.eqb (marker k) q then Some (PInt i)
                               else if String.eqb k q then None else dict_get q props).
    { intros q H1 H2. rewrite (Hkeep q H1 H2). apply Hget1. }
    repeat split.
    + intros q H1 H2. cbn [map fst] in H1, H2.
      rewrite Hkeep'.
      * destruct (String.eqb_spec (marker k) q) as [<-|_];
          [exfalso; apply H2; left; reflexivity|].
        destruct (String.eqb_spec k q) as [<-|_];
          [exfalso; apply H1; left; reflexivity|reflexivity].
      * intros H. apply H1. right. exact H.
      * intros H. apply H2. right. exact H.
    + intros Hclash k' i' [[= -> ->]|Hin].
      * rewrite Hkeep'.
        -- rewrite String.eqb_refl. reflexivity.
        -- intros H. apply (Hclash k'); [left; reflexivity|right; exact H].
        -- intros H. apply marker_keys in H. destruct H as (k2 & Heq & Hk2).
           apply marker_inj in Heq. subst k2. contradiction.
      * apply Hmark; [|exact Hin].
        intros k2 Hk2 H. apply (Hclash k2); [right; exact Hk2|right; exact H].
    + intros k' [Hk'|Hin] Hnm; cbn [map fst] in Hnm.
      * cbn [fst] in Hk'. subst k'. rewrite Hkeep'.
        -- destruct (String.eqb_spec (marker k) k) as [Heq|_];
             [exfalso; apply Hnm; left; exact Heq|].
           rewrite String.eqb_refl. reflexivity.
        -- exact Hk.
        -- intros H. apply Hnm. right. exact H.
      * apply Hgone; [exact Hin|]. intros H. apply Hnm. right. exact H.
    + intros q v Hq. destruct (Hval q v Hq) as [Hint|[Hq1 Hout]]; [left; exact Hint|].
      rewrite Hget1 in Hq1.
      destruct (String.eqb_spec (marker k) q) as [_|_].
      * left. injection Hq1 as <-. eexists. reflexivity.
      * destruct (String.eqb_spec k q) as [_|Hne]; [discriminate|].
        right. split; [exact Hq1|]. cbn [map fst]. intros [H|H]; contradiction.
Qed.

Lemma data_keys_In (props : list (string * pyval)) (k : string) :
  In k (data_keys props) <-> exists v, In (k, v) props /\ is_Data v = true.
Proof.
  unfold data_keys. rewrite in_map_iff. split.
  - intros ([k' v] & Hk & Hin). cbn in Hk. subst k'.
    apply filter_In in Hin. exists v. exact Hin.
  - intros (v & Hin & Hv). exists (k, v). split; [reflexivity|].
    apply filter_In. split; assumption.
Qed.

Lemma data_keys_sub (props : list (string * pyval)) (k : string) :
  In k (data_keys props) -> In k (map fst props).
Proof.
  intros H. apply data_keys_In in H. destruct H as (v & Hin & _).
  apply (in_map fst) in Hin. exact Hin.
Qed.

Lemma data_keys_NoDup (props : list (string * pyval)) :
  NoDup (map fst props) -> NoDup (data_keys props).
Proof.
  unfold data_keys. induction props as [|[k v] props IH]; cbn; intros Hnd.
  - constructor.
  - inversion Hnd as [|? ? Hk Hnd']; subst.
    destruct (is_Data v); cbn; [constructor|]; auto.
    intros H. apply Hk. apply (data_keys_sub props k H).
Qed.

Lemma add_runs (key : string) (card : pyval) (props props' : list (string * pyval))
  (p : PageBase) :
  card_props card props ->
  PageBase.rename_data (index_from 0 (data_keys props)) props = Ok props' ->
  PageBase.add (PStr key) card p =
  (Ok (mkRef key),
   mkPage (url p)
     (_changes p ++ [add_op key props' (map encoded (map snd (data_props props)))])).
Proof.
  intros Hcard Hren. unfold PageBase.add.
  assert (Hprops : (if is_dict card then card
                    else if _can_dump card then _dump card else PNone) = PDict props).
  { destruct Hcard as [->|(H1 & H2 & H3)]; [reflexivity|]. rewrite H1, H2. exact H3. }
  rewrite Hprops, scan_data_spec. unfold bind, lift. rewrite Hren.
  unfold add_op. destruct (map encoded (map snd (data_props props))); reflexivity.
Qed.

(** ** C3 *)

(** C3. The second loop of [add] sets out to give every Data-valued
    property its marker, and loses one when a Data-valued property bears
    the marker name of another: at the card with the properties x and ~x,
    both placeholders, the marker set for x is deleted again as the
    property named ~x.  The tracked properties are the single marker ~~x
    with the index 1; both encodings are in the buffer list, and nothing
    refers to the buffer 0. *)
Lemma marker_clash_orphans_buffer :
  let D := PData (PList [PStr "a"; PStr "b"]) 3 PNone in
  let buf := PDict [("f", PDict [("f", PList [PStr "a"; PStr "b"]); ("n", PInt 3)])] in
  PageBase.add (PStr "c1") (PDict [("x", D); ("~x", D)]) (PageBase.__init__ "/demo") =
  (Ok (mkRef "c1"),
   mkPage "/demo"
     [PDict [("k", PStr "c1"); ("d", PDict [("~~x", PInt 1)]); ("b", PList [buf; buf])]]) /\
  dict_get "~x" [("~~x", PInt 1)] = None.
Proof. split; reflexivity. Qed.

(** X28. Let the card's properties (their names distinct, as in
    every mapping) have no Data-valued property named as the marker of
    another Data-valued property.  Then [add] tracks one Add-card operation
    and returns a reference rooted at the key.  The buffer list holds the
    encoded placeholders in the order of the mapping.  The i-th Data-valued
    property is gone from the tracked properties, the property named ~
    followed by its name holds i, and the i-th buffer is its encoding; no
    Data value is left, and every other property that does not bear a
    marker's name is kept.  The operation carries the field b exactly when
    the buffer list is not empty. *)
Theorem add_moves_Data_to_buffers
  (key : string) (card : pyval) (props : list (string * pyval)) (p : PageBase) :
  card_props card props ->
  NoDup (map fst props) ->
  no_marker_clash props ->
  let bufs := map encoded (map snd (data_props props)) in
  exists props',
    PageBase.add (PStr key) card p =
    (Ok (mkRef key), mkPage (url p) (_changes p ++ [add_op key props' bufs])) /\
    (forall i k v,
        nth_error (data_props props) i = Some (k, v) ->
        dict_get k props' = None /\
        dict_get ("~" ++ k) props' = Some (PInt (Z.of_nat i)) /\
        nth_error bufs i = Some (encoded v)) /\
    Forall (fun kv => is_Data (snd kv) = false) props' /\
    (forall q v,
        dict_get q props = Some v -> is_Data v = false ->
        ~ In q (map marker (data_keys props)) ->
        dict_get q props' = Some v) /\
    (dict_get "b" (match add_op key props' bufs with PDict op => op | _ => [] end) =
     match bufs with [] => None | _ :: _ => Some (PList bufs) end).
Proof.
  intros Hcard Hnd Hclash bufs.
  pose proof (data_keys_NoDup props Hnd) as Hdk.
  destruct (rename_data_spec (index_from 0 (data_keys props)) props Hnd)
    as (props' & Hren & Hnd' & Hkeep & Hmark & Hgone & Hval).
  { rewrite index_from_keys. exact Hdk. }
  { intros k. rewrite index_from_keys. apply data_keys_sub. }
  rewrite index_from_keys in Hkeep, Hmark, Hgone, Hval.
  exists props'. split; [apply add_runs; assumption|].
  assert (Hnomark : forall k, In k (data_keys props) ->
                              ~ In k (map marker (data_keys props))).
  { intros k Hk H. apply marker_keys in H. destruct H as (k2 & -> & Hk2).
    apply (Hclash k2 Hk2). exact Hk. }
  split; [|split; [|split]].
  - intros i k v Hnth.
    assert (Hk : nth_error (data_keys props) i = Some k).
    { unfold data_keys. rewrite nth_error_map. fold (data_props props).
      rewrite Hnth. reflexivity. }
    assert (Hin : In k (data_keys props)) by (eapply nth_error_In; eauto).
    split; [apply Hgone; auto|]. split.
    + apply (Hmark Hclash). apply (index_from_nth _ 0 i k Hk).
    + unfold bufs. rewrite !nth_error_map, Hnth. reflexivity.
  - apply Forall_forall. intros [q v] Hin. cbn [snd].
    pose proof (In_dict_get _ _ _ Hnd' Hin) as Hq.
    destruct (Hval q v Hq) as [[i ->]|[Hq0 Hout]]; [reflexivity|].
    destruct (is_Data v) eqn:Hv; [|reflexivity].
    exfalso. apply Hout. apply data_keys_In. exists v.
    split; [apply dict_get_In; exact Hq0|exact Hv].
  - intros q v Hq Hv Hnm. rewrite Hkeep; [exact Hq| |exact Hnm].
    intros H. apply data_keys_In in H. destruct H as (v' & Hin & Hv').
    rewrite (In_dict_get _ _ _ Hnd Hin) in Hq. congruence.
  - unfold add_op. destruct bufs; reflexivity.
Qed.

Lemma add_moves_Data_to_buffers_witness :
  exists props',
    PageBase.add (PStr "c1")
      (PDict [("title", PStr "t"); ("x", PData (PList [PStr "a"; PStr "b"]) 3 PNone)])
      (PageBase.__init__ "/demo") =
    (Ok (mkRef "c1"),
     mkPage "/demo"
       [add_op "c1" props'
          [PDict [("f", PDict [("f", PList [PStr "a"; PStr "b"]); ("n", PInt 3)])]]]) /\
    dict_get "x" props' = None /\
    dict_get "~x" props' = Some (PInt 0).
Proof.
  destruct (add_moves_Data_to_buffers "c1"
              (PDict [("title", PStr "t"); ("x", PData (PList [PStr "a"; PStr "b"]) 3 PNone)])
              [("title", PStr "t"); ("x", PData (PList [PStr "a"; PStr "b"]) 3 PNone)]
              (PageBase.__init__ "/demo"))
    as (props' & Hadd & Hdata & _).
  - left. reflexivity.
  - repeat constructor; cbn; intuition discriminate.
  - intros k [<-|[]] [H|[]]. discriminate H.
  - exists props'. split; [exact Hadd|].
    destruct (Hdata 0%nat "x" (PData (PList [PStr "a"; PStr "b"]) 3 PNone) eq_refl)
      as (H1 & H2 & _).
    split; assumption.
Defined.

(** A card with one Data-valued property, flushed. *)
Example add_Data_card_flushed :
  let D := PData (PList [PStr "a"; PStr "b"]) 3 PNone in
  exists r p1,
    PageBase.add (PStr "c1") (PDict [("x", D)]) (PageBase.__init__ "/demo") = (Ok r, p1) /\
    PageBase._diff p1 =
    (Ok (Some (sq "{'d':[{'k':'c1','d':{'~x':0},'b':[{'f':{'f':['a','b'],'n':3}}]}]}")),
     PageBase.__init__ "/demo").
Proof. cbn. do 2 eexists. split; reflexivity. Qed.

(** ** C7 *)

(** C7, as the claim states it, fails at the empty string: it is a string,
    no test looks at its length, and the card is added under it. *)
Lemma empty_key_counterexample :
  PageBase.add (PStr EmptyString) (PDict [("title", PStr "t")]) (PageBase.__init__ "/demo") =
  (Ok (mkRef EmptyString),
   mkPage "/demo" [PDict [("k", PStr EmptyString); ("d", PDict [("title", PStr "t")])]]).
Proof. reflexivity. Qed.

(** C7, amended. [add] raises InvalidCardError, and appends nothing,
    whenever the key is [None] or not a string, or the card is neither a
    mapping nor an object whose [dump] gives a mapping.  Any string is taken
    as a key, the empty one too: with a mapping that has no Data-valued
    property, [add] under it succeeds and tracks [{k: key, d: card}]. *)
Theorem add_rejects_bad_key_or_card (key card : pyval) (p : PageBase) :
  (_is_str key = false ->
   exists e, InvalidCardError e /\ PageBase.add key card p = (Raise e, p)) /\
  (is_dict card = false ->
   (_can_dump card = true -> is_dict (_dump card) = false) ->
   exists e, InvalidCardError e /\ PageBase.add key card p = (Raise e, p)) /\
  (forall (s : string) (props : list (string * pyval)),
      key = PStr s -> card = PDict props -> data_props props = [] ->
      PageBase.add key card p =
      (Ok (mkRef s),
       mkPage (url p) (_changes p ++ [PDict [("k", PStr s); ("d", PDict props)]]))).
Proof.
  assert (Hkey : _is_str key = false ->
                 exists e, InvalidCardError e /\ PageBase.add key card p = (Raise e, p)).
  { intros Hk. destruct key; try discriminate Hk;
      (eexists; split; [|reflexivity]); unfold InvalidCardError; auto. }
  split; [exact Hkey|]. split.
  - intros Hd Hdump. destruct (_is_str key) eqn:Hk; [|apply Hkey; reflexivity].
    destruct key; try discriminate Hk.
    exists (ValueError "card must be dict or implement .dump() -> dict").
    split; [unfold InvalidCardError; auto|].
    unfold PageBase.add. rewrite Hd.
    destruct (_can_dump card).
    + specialize (Hdump eq_refl). destruct (_dump card); try reflexivity.
      discriminate Hdump.
    + reflexivity.
  - intros s props -> -> Hnone.
    rewrite (add_runs s (PDict props) props props).
    + rewrite Hnone. reflexivity.
    + left. reflexivity.
    + unfold data_keys. fold (data_props props). rewrite Hnone. reflexivity.
Qed.

Lemma add_rejects_bad_key_or_card_witness :
  (exists e, InvalidCardError e /\
             PageBase.add PNone (PDict []) (PageBase.__init__ "/demo") =
             (Raise e, PageBase.__init__ "/demo")) /\
  (exists e, InvalidCardError e /\
             PageBase.add (PStr "c") (PList [PInt 1]) (PageBase.__init__ "/demo") =
             (Raise e, PageBase.__init__ "/demo")).
Proof.
  split.
  - exact (proj1 (add_rejects_bad_key_or_card PNone (PDict []) (PageBase.__init__ "/demo"))
             eq_refl).
  - refine (proj1 (proj2 (add_rejects_bad_key_or_card (PStr "c") (PList [PInt 1])
                            (PageBase.__init__ "/demo"))) eq_refl _).
    discriminate.
Defined.

(** ** C4 *)

(** A mutation raises and leaves the page alone, or succeeds on every page
    by appending one operation that depends on the mutation only. *)
Lemma perform_cases (m : mutation) :
  (exists op, tracks m op) \/ (exists e, forall p, perform m p = (Raise e, p)).
Proof.
  assert (Hset : forall self key value,
             (exists op, forall p, Ref.__setitem__ self key value p =
                                   (Ok tt, mkPage (url p) (_changes p ++ [op]))) \/
             (exists e, forall p, Ref.__setitem__ self key value p = (Raise e, p))).
  { intros self key value. unfold Ref.__setitem__.
    destruct (is_Data value); [right; eexists; reflexivity|].
    unfold bind, lift. destruct (_set_op self key (_dump value)) as [op|e].
    - left. exists op. reflexivity.
    - right. exists e. reflexivity. }
  destruct m as [key card|ref key value|ref key value|key|]; unfold tracks; cbn [perform].
  - unfold PageBase.__setitem__, PageBase.add, bind, lift, ret, raise.
    destruct key; try (right; eexists; reflexivity).
    destruct (if is_dict card then card else if _can_dump card then _dump card else PNone);
      try (right; eexists; reflexivity).
    destruct (PageBase.scan_data kvs) as [data bufs].
    destruct (PageBase.rename_data data kvs) as [props|e];
      [|right; eexists; reflexivity].
    left. destruct bufs; eexists; reflexivity.
  - apply Hset.
  - apply Hset.
  - left. eexists. reflexivity.
  - left. eexists. reflexivity.
Qed.

Lemma tracks_unique (m : mutation) (op op' : pyval) :
  tracks m op -> tracks m op' -> op = op'.
Proof.
  intros H H'. specialize (H (mkPage EmptyString [])).
  rewrite (H' (mkPage EmptyString [])) in H. cbn in H. congruence.
Qed.

(** Three mutations in a row, flushed: three operations in that order. *)
Example three_mutations_flushed :
  exists p1,
    perform_all
      [MAdd (PStr "a") (PDict [("title", PStr "t")]);
       MSetAttr (mkRef "a") "x" (PInt 1);
       MDelete (PStr "a")] (PageBase.__init__ "/demo") = (Ok tt, p1) /\
    PageBase._diff p1 =
    (Ok (Some (sq "{'d':[{'k':'a','d':{'title':'t'}},{'k':'a x','v':1},{'k':'a'}]}")),
     PageBase.__init__ "/demo").
Proof. eexists. split; reflexivity. Qed.


(** ** The JSON round trip *)

Ltac each_char c := destruct c as [[] [] [] [] [] [] [] []].

Lemma string_app_assoc (a b c : string) : (a ++ b) ++ c = a ++ b ++ c.
Proof. induction a as [|x a IH]; cbn; [|rewrite IH]; reflexivity. Qed.

Lemma string_app_length (a b : string) :
  String.length (a ++ b) = (String.length a + String.length b)%nat.
Proof. induction a as [|x a IH]; cbn; [|rewrite IH]; reflexivity. Qed.

(** *** Strings *)

Lemma scanstring_escape_char (c : ascii) (rest : string) :
  Json.scanstring (Json.escape_char c ++ rest) =
  '(body, r) <- Json.scanstring rest ;; Ok (String c body, r).
Proof. each_char c; reflexivity. Qed.

Lemma scanstring_escape_body (s rest : string) :
  Json.scanstring (Json.escape_body s ++ String dquote rest) = Ok (s, rest).
Proof.
  induction s as [|c s IH]; [reflexivity|].
  cbn [Json.escape_body]. rewrite string_app_assoc, scanstring_escape_char, IH.
  reflexivity.
Qed.

Lemma scan_once_encode_str (fuel : nat) (s rest : string) :
  Json.scan_once (S fuel) (Json.encode_str s ++ rest) = Ok (PStr s, rest).
Proof.
  unfold Json.encode_str. cbn [append Json.scan_once].
  rewrite Ascii.eqb_refl, string_app_assoc. cbn [append].
  rewrite scanstring_escape_body. reflexivity.
Qed.

(** *** Integers *)

Lemma closes_not_number (rest : string) :
  closes rest = true ->
  Json.starts_with_digit rest = false /\ Json.has_frac rest = false /\
  Json.has_exp rest = false.
Proof.
  destruct rest as [|c r]; [repeat split|]. cbn [closes].
  each_char c; cbn; try discriminate; repeat split.
Qed.

Lemma not_digit_char (c : ascii) (u : Decimal.uint) :
  Json.is_digit c = false -> uint_of_char c (Some u) = None.
Proof. each_char c; cbn; try discriminate; reflexivity. Qed.

Lemma scan_uint_digits (u : Decimal.uint) (rest : string) :
  Json.starts_with_digit rest = false ->
  Json.scan_uint (NilEmpty.string_of_uint u ++ rest) = (u, rest).
Proof.
  intros Hrest.
  induction u; cbn [NilEmpty.string_of_uint append Json.scan_uint];
    try (rewrite IHu; reflexivity).
  destruct rest as [|c r]; [reflexivity|]. cbn [Json.scan_uint].
  destruct (Json.scan_uint r) as [u' r'].
  rewrite not_digit_char by exact Hrest. reflexivity.
Qed.

(** The decimal text of a positive number starts with a digit that is not
    zero. *)
Lemma to_uint_head (p : positive) :
  exists c t, NilEmpty.string_of_uint (Pos.to_uint p) = String c t /\
              Json.is_digit c = true /\ Ascii.eqb c "0"%char = false.
Proof.
  assert (Hnorm : Decimal.unorm (Pos.to_uint p) = Pos.to_uint p).
  { rewrite <- (DecimalPos.Unsigned.to_of (Pos.to_uint p)),
      DecimalPos.Unsigned.of_to. reflexivity. }
  pose proof (DecimalPos.Unsigned.to_uint_nonzero p) as Hnz.
  pose proof (Unsigned.to_uint_nonnil p) as Hnn.
  destruct (Pos.to_uint p) as [|u|u|u|u|u|u|u|u|u|u] eqn:Hu;
    try (eexists; eexists; split; [reflexivity|split; reflexivity]).
  - contradiction.
  - exfalso. unfold Decimal.unorm in Hnorm. cbn [Decimal.nzhead] in Hnorm.
    destruct (Decimal.nzhead u) eqn:Hh.
    + injection Hnorm as <-. apply Hnz. reflexivity.
    + rewrite <- Hh in Hnorm. exact (nzhead_nonzero _ _ Hnorm).
    + rewrite <- Hh in Hnorm. exact (nzhead_nonzero _ _ Hnorm).
    + rewrite <- Hh in Hnorm. exact (nzhead_nonzero _ _ Hnorm).
    + rewrite <- Hh in Hnorm. exact (nzhead_nonzero _ _ Hnorm).
    + rewrite <- Hh in Hnorm. exact (nzhead_nonzero _ _ Hnorm).
    + rewrite <- Hh in Hnorm. exact (nzhead_nonzero _ _ Hnorm).
    + rewrite <- Hh in Hnorm. exact (nzhead_nonzero _ _ Hnorm).
    + rewrite <- Hh in Hnorm. exact (nzhead_nonzero _ _ Hnorm).
    + rewrite <- Hh in Hnorm. exact (nzhead_nonzero _ _ Hnorm).
    + rewrite <- Hh in Hnorm. exact (nzhead_nonzero _ _ Hnorm).
Qed.

Lemma of_to_uint (p : positive) : Z.of_uint (Pos.to_uint p) = Z.pos p.
Proof. unfold Z.of_uint. rewrite DecimalPos.Unsigned.of_to. reflexivity. Qed.

Lemma number_digits_text (neg : bool) (p : positive) (rest : string) :
  closes rest = true ->
  Json.number_digits neg (NilEmpty.string_of_uint (Pos.to_uint p) ++ rest) =
  Ok (PInt (if neg then Z.neg p else Z.pos p), rest).
Proof.
  intros Hrest. destruct (closes_not_number rest Hrest) as (Hd & Hf & He).
  pose proof (scan_uint_digits (Pos.to_uint p) rest Hd) as Hscan.
  destruct (to_uint_head p) as (c & t & Htext & Hc & Hc0).
  rewrite Htext in *. cbn [append] in *. unfold Json.number_digits.
  rewrite Hc, Hc0, Hscan, Hf, He. cbn [orb].
  rewrite of_to_uint. destruct neg; reflexivity.
Qed.

Lemma digit_not_minus (c : ascii) :
  Json.is_digit c = true -> Ascii.eqb c "-"%char = false.
Proof. each_char c; cbn; try discriminate; reflexivity. Qed.

Lemma match_number_positive (p : positive) (rest : string) :
  closes rest = true ->
  Json.match_number (NilEmpty.string_of_uint (Pos.to_uint p) ++ rest) =
  Ok (PInt (Z.pos p), rest).
Proof.
  intros Hrest. rewrite <- (number_digits_text false p rest Hrest).
  destruct (to_uint_head p) as (c & t & Htext & Hc & _).
  rewrite Htext. cbn [append Json.match_number].
  rewrite (digit_not_minus c Hc). reflexivity.
Qed.

Lemma match_number_negative (p : positive) (rest : string) :
  closes rest = true ->
  Json.match_number (String "-" (NilEmpty.string_of_uint (Pos.to_uint p) ++ rest)) =
  Ok (PInt (Z.neg p), rest).
Proof.
  intros Hrest. rewrite <- (number_digits_text true p rest Hrest). reflexivity.
Qed.

Lemma scan_once_digit (fuel : nat) (c : ascii) (t : string) :
  Json.is_digit c = true ->
  Json.scan_once (S fuel) (String c t) = Json.match_number (String c t).
Proof. each_char c; cbn; try discriminate; reflexivity. Qed.

Lemma scan_once_minus (fuel : nat) (c : ascii) (t : string) :
  Json.is_digit c = true ->
  Json.scan_once (S fuel) (String "-" (String c t)) =
  Json.match_number (String "-" (String c t)).
Proof. each_char c; cbn; try discriminate; reflexivity. Qed.

Lemma digit_opens (c : ascii) : Json.is_digit c = true -> opens c = true.
Proof. each_char c; cbn; try discriminate; reflexivity. Qed.

Lemma encode_int_text (n : Z) :
  exists c t, Json.encode_int n = String c t /\ opens c = true.
Proof.
  unfold Json.encode_int. destruct n as [|p|p]; cbn.
  - do 2 eexists. split; reflexivity.
  - destruct (to_uint_head p) as (c & t & Htext & Hc & _).
    pose proof (Unsigned.to_uint_nonnil p) as Hnn.
    unfold NilZero.string_of_uint. destruct (Pos.to_uint p); try contradiction;
      rewrite Htext; do 2 eexists; (split; [reflexivity|apply digit_opens, Hc]).
  - do 2 eexists. split; reflexivity.
Qed.

Lemma scan_once_encode_int (fuel : nat) (n : Z) (rest : string) :
  closes rest = true ->
  Json.scan_once (S fuel) (Json.encode_int n ++ rest) = Ok (PInt n, rest).
Proof.
  intros Hrest. unfold Json.encode_int.
  destruct n as [|p|p]; cbn [Z.to_int NilZero.string_of_int].
  - destruct (closes_not_number rest Hrest) as (Hd & Hf & He).
    cbn. rewrite Hf, He. reflexivity.
  - assert (Ht : NilZero.string_of_uint (Pos.to_uint p) =
                 NilEmpty.string_of_uint (Pos.to_uint p)).
    { pose proof (Unsigned.to_uint_nonnil p) as Hnn.
      unfold NilZero.string_of_uint. destruct (Pos.to_uint p); try reflexivity.
      contradiction. }
    rewrite Ht. rewrite <- (match_number_positive p rest Hrest).
    destruct (to_uint_head p) as (c & t & Htext & Hc & _).
    rewrite Htext. cbn [append]. apply scan_once_digit, Hc.
  - assert (Ht : NilZero.string_of_uint (Pos.to_uint p) =
                 NilEmpty.string_of_uint (Pos.to_uint p)).
    { pose proof (Unsigned.to_uint_nonnil p) as Hnn.
      unfold NilZero.string_of_uint. destruct (Pos.to_uint p); try reflexivity.
      contradiction. }
    rewrite Ht. cbn [append]. rewrite <- (match_number_negative p rest Hrest).
    destruct (to_uint_head p) as (c & t & Htext & Hc & _).
    rewrite Htext. cbn [append]. apply scan_once_minus, Hc.
Qed.

(** *** Containers *)

Lemma skip_ws_opens (c : ascii) (t : string) :
  opens c = true -> Json.skip_ws (String c t) = String c t.
Proof.
  unfold opens. intros H. apply andb_prop in H. destruct H as [H _].
  cbn [Json.skip_ws]. destruct (Json.is_ws c); [discriminate|reflexivity].
Qed.

Lemma opens_not_closing (c : ascii) :
  opens c = true -> Ascii.eqb c "]"%char = false.
Proof.
  unfold opens. intros H. apply andb_prop in H. destruct H as [_ H].
  destruct (Ascii.eqb c "]"%char); [discriminate|reflexivity].
Qed.

Lemma nodup_keys_NoDup (ks : list string) : nodup_keys ks = true <-> NoDup ks.
Proof.
  induction ks as [|k ks IH]; cbn.
  - split; [constructor|reflexivity].
  - rewrite andb_true_iff, negb_true_iff, IH. split.
    + intros [Hk Hnd]. constructor; [|exact Hnd].
      intros Hin. assert (existsb (String.eqb k) ks = true); [|congruence].
      apply existsb_exists. exists k. split; [exact Hin|apply String.eqb_refl].
    + intros Hnd. inversion Hnd as [|? ? Hk Hnd']; subst. split; [|exact Hnd'].
      destruct (existsb (String.eqb k) ks) eqn:He; [|reflexivity].
      apply existsb_exists in He. destruct He as (k' & Hin & Heq).
      apply String.eqb_eq in Heq. subst k'. contradiction.
Qed.

Lemma dict_set_fresh (k : string) (v : pyval) (d : list (string * pyval)) :
  ~ In k (map fst d) -> dict_set k v d = (d ++ [(k, v)])%list.
Proof.
  induction d as [|[k' v'] d IH]; cbn; intros Hk; [reflexivity|].
  destruct (String.eqb_spec k' k) as [->|_].
  - exfalso. apply Hk. left. reflexivity.
  - rewrite IH; [reflexivity|]. intros H. apply Hk. right. exact H.
Qed.

Lemma dict_of_pairs_fold (kvs : list (string * pyval)) :
  forall acc,
    NoDup (map fst (acc ++ kvs)) ->
    fold_left (fun d kv => dict_set (fst kv) (snd kv) d) kvs acc = (acc ++ kvs)%list.
Proof.
  induction kvs as [|[k v] kvs IH]; intros acc Hnd; cbn [fold_left fst snd].
  - rewrite List.app_nil_r. reflexivity.
  - rewrite dict_set_fresh.
    + rewrite IH; rewrite <- List.app_assoc; [reflexivity|exact Hnd].
    + rewrite map_app in Hnd. cbn in Hnd. apply NoDup_remove_2 in Hnd.
      intros H. apply Hnd, in_or_app. left. exact H.
Qed.

Lemma dict_of_pairs_distinct (kvs : list (string * pyval)) :
  nodup_keys (map fst kvs) = true -> Json.dict_of_pairs kvs = kvs.
Proof.
  intros H. apply nodup_keys_NoDup in H. unfold Json.dict_of_pairs.
  rewrite dict_of_pairs_fold; [reflexivity|exact H].
Qed.

(** The items of a non-empty array: their joined texts, read back by
    [parse_array] up to the closing bracket. *)
Lemma array_items_roundtrip (xs : list pyval) :
  xs <> [] ->
  Forall roundtrips xs ->
  exists body,
    Json.encode_items Json.dumps xs = Ok body /\
    (exists c t, body = String c t /\ opens c = true) /\
    (fold_right (fun x acc => S (weight x + acc)) O xs <= S (String.length body))%nat /\
    (forall fuel rest,
        (fold_right (fun x acc => S (weight x + acc)) O xs <= fuel)%nat ->
        Json.parse_array fuel (body ++ String "]" rest) = Ok (xs, rest)).
Proof.
  induction xs as [|x xs IH]; intros Hne Hall; [contradiction|].
  inversion Hall as [|? ? Hx Hxs]; subst.
  destruct Hx as (s & Hs & (c & t & Hct & Hc) & Hlen & Hscan).
  destruct xs as [|y xs].
  - exists s. cbn [Json.encode_items]. rewrite Hs. cbn [rbind].
    split; [reflexivity|]. split; [exists c, t; auto|].
    split; [cbn; lia|].
    intros fuel rest Hfuel. destruct fuel as [|fuel]; [cbn in Hfuel; lia|].
    cbn [Json.parse_array]. rewrite Hscan; [|cbn in Hfuel; lia|reflexivity].
    reflexivity.
  - destruct (IH ltac:(discriminate) Hxs)
      as (body & Hbody & (c' & t' & Hct' & Hc') & Hlen' & Hparse).
    exists (s ++ "," ++ body).
    cbn [Json.encode_items] in Hbody |- *. rewrite Hs. cbn [rbind].
    rewrite Hbody. cbn [rbind].
    split; [reflexivity|]. split; [exists c, (t ++ "," ++ body); subst s; auto|].
    split.
    + rewrite !string_app_length. cbn [fold_right String.length] in Hlen' |- *. lia.
    + intros fuel rest Hfuel. destruct fuel as [|fuel]; [cbn in Hfuel; lia|].
      cbn [fold_right] in Hfuel, Hparse.
      cbn [Json.parse_array]. rewrite !string_app_assoc. cbn [append].
      rewrite Hscan; [|lia|reflexivity]. cbn [rbind Json.skip_ws Json.is_ws].
      cbn. rewrite Hct' at 1. cbn [append].
      rewrite (skip_ws_opens c' _ Hc').
      change (String c' (t' ++ String "]" rest)) with (String c' t' ++ String "]" rest).
      rewrite <- Hct', Hparse by lia. reflexivity.
Qed.

Lemma encode_str_app (k rest : string) :
  Json.encode_str k ++ rest = String dquote (Json.escape_body k ++ String dquote rest).
Proof.
  unfold Json.encode_str. cbn [append]. rewrite string_app_assoc. reflexivity.
Qed.

(** The items of a non-empty object, read back by [parse_object] up to the
    closing brace. *)
Lemma object_items_roundtrip (kvs : list (string * pyval)) :
  kvs <> [] ->
  Forall (fun kv => roundtrips (snd kv)) kvs ->
  exists body,
    Json.encode_items
      (fun kv => t <- Json.dumps (snd kv) ;; Ok (Json.encode_str (fst kv) ++ ":" ++ t))
      kvs = Ok body /\
    (exists t, body = String dquote t) /\
    (fold_right (fun kv acc => S (weight (snd kv) + acc)) O kvs
     <= S (String.length body))%nat /\
    (forall fuel rest,
        (fold_right (fun kv acc => S (weight (snd kv) + acc)) O kvs <= fuel)%nat ->
        Json.parse_object fuel (body ++ String "}" rest) = Ok (kvs, rest)).
Proof.
  induction kvs as [|[k v] kvs IH]; intros Hne Hall; [contradiction|].
  inversion Hall as [|? ? Hv Hkvs]; subst. cbn [snd] in Hv.
  destruct Hv as (s & Hs & (c & t & Hct & Hc) & Hlen & Hscan).
  assert (Hentry : forall fuel tail,
             (weight v <= fuel)%nat -> closes tail = true ->
             Json.parse_object (S fuel) ((Json.encode_str k ++ ":" ++ s) ++ tail) =
             match Json.skip_ws tail with
             | String d r3 =>
                 if Ascii.eqb d "}"%char then Ok ([(k, v)], r3)
                 else if Ascii.eqb d ","%char then
                   '(kvs, r4) <- Json.parse_object fuel (Json.skip_ws r3) ;;
                   Ok ((k, v) :: kvs, r4)
                 else Raise (JSONDecodeError "Expecting ',' delimiter")
             | EmptyString => Raise (JSONDecodeError "Expecting ',' delimiter")
             end).
  { intros fuel tail Hfuel Htail.
    rewrite string_app_assoc, encode_str_app.
    cbn [Json.parse_object]. rewrite Ascii.eqb_refl, scanstring_escape_body.
    cbn [rbind]. rewrite string_app_assoc. cbn [append Json.skip_ws].
    cbn [Json.is_ws N_of_ascii]. cbn.
    rewrite Hct at 1. cbn [append]. rewrite (skip_ws_opens c _ Hc).
    change (String c (t ++ tail)) with (String c t ++ tail).
    rewrite <- Hct, Hscan by assumption. reflexivity. }
  destruct kvs as [|kv' kvs].
  - exists (Json.encode_str k ++ ":" ++ s).
    cbn [Json.encode_items fst snd]. rewrite Hs. cbn [rbind].
    split; [reflexivity|]. split; [eexists; reflexivity|].
    split.
    + rewrite !string_app_length. cbn. lia.
    + intros fuel rest Hfuel. destruct fuel as [|fuel]; [cbn in Hfuel; lia|].
      rewrite Hentry; [reflexivity|cbn in Hfuel; lia|reflexivity].
  - destruct (IH ltac:(discriminate) Hkvs) as (body & Hbody & (t' & Ht') & Hlen' & Hparse).
    exists ((Json.encode_str k ++ ":" ++ s) ++ "," ++ body).
    cbn [Json.encode_items fst snd] in Hbody |- *. rewrite Hs. cbn [rbind].
    rewrite Hbody. cbn [rbind].
    split; [reflexivity|]. split; [eexists; reflexivity|].
    split.
    + rewrite !string_app_length. cbn [fold_right String.length snd] in Hlen' |- *. lia.
    + intros fuel rest Hfuel. destruct fuel as [|fuel]; [cbn in Hfuel; lia|].
      cbn [fold_right snd] in Hfuel, Hparse.
      rewrite (string_app_assoc _ ("," ++ body)). cbn [append].
      rewrite Hentry; [|lia|reflexivity]. cbn -[Json.parse_object].
      rewrite Ht' at 1. cbn [append Json.skip_ws]. cbn -[Json.parse_object].
      change (String dquote (t' ++ String "}" rest))
        with (String dquote t' ++ String "}" rest).
      rewrite <- Ht', Hparse by lia. reflexivity.
Qed.

Lemma Forall_roundtrips (xs : list pyval) :
  Forall (fun x => json_value x = true -> roundtrips x) xs ->
  forallb json_value xs = true -> Forall roundtrips xs.
Proof.
  induction 1 as [|x xs Hx _ IH]; cbn; intros H; [constructor|].
  apply andb_prop in H. destruct H as [H1 H2]. constructor; auto.
Qed.

Lemma Forall_roundtrips_snd (kvs : list (string * pyval)) :
  Forall (fun kv => json_value (snd kv) = true -> roundtrips (snd kv)) kvs ->
  forallb (fun kv => json_value (snd kv)) kvs = true ->
  Forall (fun kv => roundtrips (snd kv)) kvs.
Proof.
  induction 1 as [|x xs Hx _ IH]; cbn; intros H; [constructor|].
  apply andb_prop in H. destruct H as [H1 H2]. constructor; auto.
Qed.

Lemma scan_once_array (fuel : nat) (s' : string) :
  Json.scan_once (S fuel) (String "[" s') =
  match Json.skip_ws s' with
  | String c1 r =>
      if Ascii.eqb c1 "]"%char then Ok (PList [], r)
      else '(vs, r) <- Json.parse_array fuel (Json.skip_ws s') ;; Ok (PList vs, r)
  | EmptyString =>
      '(vs, r) <- Json.parse_array fuel (Json.skip_ws s') ;; Ok (PList vs, r)
  end.
Proof. reflexivity. Qed.

Lemma scan_once_object (fuel : nat) (s' : string) :
  Json.scan_once (S fuel) (String "{" s') =
  match Json.skip_ws s' with
  | String c1 r =>
      if Ascii.eqb c1 "}"%char then Ok (PDict [], r)
      else '(pairs, r) <- Json.parse_object fuel (Json.skip_ws s') ;;
           Ok (PDict (Json.dict_of_pairs pairs), r)
  | EmptyString =>
      '(pairs, r) <- Json.parse_object fuel (Json.skip_ws s') ;;
      Ok (PDict (Json.dict_of_pairs pairs), r)
  end.
Proof. reflexivity. Qed.

Lemma json_value_roundtrips (x : pyval) : json_value x = true -> roundtrips x.
Proof.
  induction x as [ |b|n|s|xs IH|xs IH|kvs IH|f n d _ _| |r _] using pyval_ind;
    intros Hj; try discriminate Hj.
  - exists "null". split; [reflexivity|]. split; [do 2 eexists; split; reflexivity|].
    split; [cbn; lia|]. intros [|fuel] rest Hfuel _; [cbn in Hfuel; lia|reflexivity].
  - exists (if b then "true" else "false"). split; [destruct b; reflexivity|].
    split; [destruct b; do 2 eexists; split; reflexivity|].
    split; [destruct b; cbn; lia|].
    intros [|fuel] rest Hfuel _; [cbn in Hfuel; lia|destruct b; reflexivity].
  - exists (Json.encode_int n). split; [reflexivity|].
    destruct (encode_int_text n) as (c & t & Ht & Hc).
    split; [exists c, t; auto|]. split; [rewrite Ht; cbn; lia|].
    intros [|fuel] rest Hfuel Hrest; [cbn in Hfuel; lia|].
    apply scan_once_encode_int, Hrest.
  - exists (Json.encode_str s). split; [reflexivity|].
    split; [do 2 eexists; split; reflexivity|]. split; [cbn; lia|].
    intros [|fuel] rest Hfuel _; [cbn in Hfuel; lia|]. apply scan_once_encode_str.
  - cbn [json_value] in Hj. pose proof (Forall_roundtrips xs IH Hj) as Hall.
    destruct xs as [|x xs].
    + exists "[]". split; [reflexivity|]. split; [do 2 eexists; split; reflexivity|].
      split; [cbn; lia|]. intros [|fuel] rest Hfuel _; [cbn in Hfuel; lia|reflexivity].
    + destruct (array_items_roundtrip (x :: xs) ltac:(discriminate) Hall)
        as (body & Hbody & (c & t & Hct & Hc) & Hlen & Hparse).
      exists ("[" ++ body ++ "]"). cbn [Json.dumps]. rewrite Hbody. cbn [rbind].
      split; [reflexivity|]. split; [do 2 eexists; split; reflexivity|].
      split.
      * cbn [weight]. change ("[" ++ body ++ "]") with (String "[" (body ++ "]")).
        cbn [String.length]. rewrite string_app_length. cbn [String.length]. lia.
      * intros [|fuel] rest Hfuel Hrest; [cbn in Hfuel; lia|].
        cbn [weight] in Hfuel. cbn [append]. rewrite string_app_assoc. cbn [append].
        rewrite scan_once_array.
        assert (Hskip : Json.skip_ws (body ++ String "]" rest) = body ++ String "]" rest)
          by (rewrite Hct; apply (skip_ws_opens c _ Hc)).
        rewrite Hskip, Hparse by lia. rewrite Hct. cbn [append].
        rewrite (opens_not_closing c Hc). reflexivity.
  - cbn [json_value] in Hj. apply andb_prop in Hj. destruct Hj as [Hnd Hj].
    pose proof (Forall_roundtrips_snd kvs IH Hj) as Hall.
    destruct kvs as [|kv kvs].
    + exists "{}". split; [reflexivity|]. split; [do 2 eexists; split; reflexivity|].
      split; [cbn; lia|]. intros [|fuel] rest Hfuel _; [cbn in Hfuel; lia|reflexivity].
    + destruct (object_items_roundtrip (kv :: kvs) ltac:(discriminate) Hall)
        as (body & Hbody & (t & Ht) & Hlen & Hparse).
      exists ("{" ++ body ++ "}"). cbn [Json.dumps]. rewrite Hbody. cbn [rbind].
      split; [reflexivity|]. split; [do 2 eexists; split; reflexivity|].
      split.
      * cbn [weight]. change ("{" ++ body ++ "}") with (String "{" (body ++ "}")).
        cbn [String.length]. rewrite string_app_length. cbn [String.length]. lia.
      * intros [|fuel] rest Hfuel Hrest; [cbn in Hfuel; lia|].
        cbn [weight] in Hfuel. cbn [append]. rewrite string_app_assoc. cbn [append].
        rewrite scan_once_object.
        assert (Hskip : Json.skip_ws (body ++ String "}" rest) = body ++ String "}" rest)
          by (rewrite Ht; reflexivity).
        rewrite Hskip, Hparse by lia. rewrite Ht. cbn [append rbind].
        rewrite (dict_of_pairs_distinct _ Hnd). reflexivity.
Qed.


(** ** The decoder never runs out of fuel *)

Lemma in_fuel_raise (A B : Type) (e : exn) :
  @in_fuel A (Raise e) -> @in_fuel B (Raise e).
Proof. unfold in_fuel. intros H Heq. apply H. injection Heq as ->. reflexivity. Qed.

Lemma skip_ws_length (s : string) :
  (String.length (Json.skip_ws s) <= String.length s)%nat.
Proof.
  induction s as [|c s IH]; cbn; [lia|]. destruct (Json.is_ws c); cbn; lia.
Qed.

Lemma scanstring_sound (s : string) :
  in_fuel (Json.scanstring s) /\
  forall b r, Json.scanstring s = Ok (b, r) -> (String.length r < String.length s)%nat.
Proof.
  unfold in_fuel.
  induction s as [s IH] using (well_founded_induction
                                 (Wf_nat.well_founded_ltof _ String.length)).
  unfold Wf_nat.ltof in IH.
  destruct s as [|c s]; cbn [Json.scanstring]; [split; [discriminate|discriminate]|].
  destruct (Ascii.eqb c dquote).
  { split; [discriminate|]. intros b r [= <- <-]. cbn. lia. }
  destruct (Ascii.eqb c backslash).
  - destruct s as [|e s]; [split; discriminate|].
    destruct (Ascii.eqb e "u"%char).
    + destruct s as [|h1 [|h2 [|h3 [|h4 rest]]]]; try (split; discriminate).
      destruct (Json.hex4 h1 h2 h3 h4) as [n|]; [|split; discriminate].
      destruct (n <? 256)%N; [|split; discriminate].
      destruct (IH rest ltac:(cbn; lia)) as [Hf Hc].
      destruct (Json.scanstring rest) as [[body r]|e'] eqn:Hr; cbn [rbind].
      * split; [discriminate|]. intros b r' [= <- <-].
        specialize (Hc body r eq_refl). cbn. lia.
      * split; [exact Hf|discriminate].
    + destruct (Json.unescape e); [|split; discriminate].
      destruct (IH s ltac:(cbn; lia)) as [Hf Hc].
      destruct (Json.scanstring s) as [[body r]|e'] eqn:Hr; cbn [rbind].
      * split; [discriminate|]. intros b r' [= <- <-].
        specialize (Hc body r eq_refl). cbn. lia.
      * split; [exact Hf|discriminate].
  - destruct (N_of_ascii c <? 32)%N; [split; discriminate|].
    destruct (IH s ltac:(cbn; lia)) as [Hf Hc].
    destruct (Json.scanstring s) as [[body r]|e'] eqn:Hr; cbn [rbind].
    + split; [discriminate|]. intros b r' [= <- <-].
      specialize (Hc body r eq_refl). cbn. lia.
    + split; [exact Hf|discriminate].
Qed.

Lemma scan_uint_length (s : string) :
  (String.length (snd (Json.scan_uint s)) <= String.length s)%nat.
Proof.
  induction s as [|c s IH]; cbn [Json.scan_uint]; [cbn; lia|].
  destruct (Json.scan_uint s) as [u r]. cbn [snd] in IH.
  destruct (uint_of_char c (Some u)); cbn [snd String.length]; lia.
Qed.

Lemma number_digits_sound (neg : bool) (s : string) :
  in_fuel (Json.number_digits neg s) /\ consumes s (Json.number_digits neg s).
Proof.
  unfold in_fuel, consumes, Json.number_digits.
  destruct s as [|c s2]; [split; discriminate|].
  destruct (Json.is_digit c) eqn:Hd; [|split; discriminate].
  destruct (Ascii.eqb c "0"%char).
  - destruct (Json.has_frac s2 || Json.has_exp s2); split; try discriminate.
    intros a rest [= <- <-]. cbn. lia.
  - cbn [Json.scan_uint].
    pose proof (scan_uint_length s2) as Hlen.
    destruct (Json.scan_uint s2) as [u r]. cbn [snd] in Hlen.
    destruct (uint_of_char c (Some u)) as [u'|] eqn:Hu.
    + destruct (Json.has_frac r || Json.has_exp r); split; try discriminate.
      intros a rest [= <- <-]. cbn. lia.
    + exfalso. revert Hd Hu. clear.
      destruct c as [[] [] [] [] [] [] [] []]; cbn; discriminate.
Qed.

Lemma match_number_sound (s : string) :
  in_fuel (Json.match_number s) /\ consumes s (Json.match_number s).
Proof.
  unfold Json.match_number. destruct s as [|c s]; [apply number_digits_sound|].
  destruct (Ascii.eqb c "-"%char); [|apply number_digits_sound].
  destruct (number_digits_sound true s) as [H1 H2]. split; [exact H1|].
  intros a rest Hr. specialize (H2 a rest Hr). cbn. lia.
Qed.

Lemma starts_with_length (p s r : string) :
  Json.starts_with p s = Some r ->
  (String.length r + String.length p = String.length s)%nat.
Proof.
  revert s. induction p as [|a p IH]; intros s; cbn.
  - intros [= ->]. lia.
  - destruct s as [|b s]; [discriminate|].
    destruct (Ascii.eqb a b); [|discriminate].
    intros H. apply IH in H. cbn. lia.
Qed.

Lemma literal_sound (s : string) :
  let r :=
    match Json.starts_with "null" s, Json.starts_with "true" s,
          Json.starts_with "false" s with
    | Some r, _, _ => Ok (PNone, r)
    | _, Some r, _ => Ok (PBool true, r)
    | _, _, Some r => Ok (PBool false, r)
    | None, None, None =>
        match Json.starts_with "NaN" s, Json.starts_with "Infinity" s,
              Json.starts_with "-Infinity" s with
        | None, None, None => Json.match_number s
        | _, _, _ => Raise (OutsideModel "float")
        end
    end in
  in_fuel r /\ consumes s r.
Proof.
  cbn zeta. unfold in_fuel, consumes.
  destruct (Json.starts_with "null" s) as [r1|] eqn:H1.
  { apply starts_with_length in H1. cbn in H1.
    split; [discriminate|]. intros a rest [= <- <-]. lia. }
  destruct (Json.starts_with "true" s) as [r2|] eqn:H2.
  { apply starts_with_length in H2. cbn in H2.
    split; [discriminate|]. intros a rest [= <- <-]. lia. }
  destruct (Json.starts_with "false" s) as [r3|] eqn:H3.
  { apply starts_with_length in H3. cbn in H3.
    split; [discriminate|]. intros a rest [= <- <-]. lia. }
  destruct (Json.starts_with "NaN" s); [split; discriminate|].
  destruct (Json.starts_with "Infinity" s); [split; discriminate|].
  destruct (Json.starts_with "-Infinity" s); [split; discriminate|].
  apply match_number_sound.
Qed.

(** With twice the length of the text and one more, [scan_once] does not
    run out of fuel; the two loops need one more still. *)
Lemma scan_sound (fuel : nat) :
  (forall s, (2 * String.length s + 1 <= fuel)%nat ->
             in_fuel (Json.scan_once fuel s) /\ consumes s (Json.scan_once fuel s)) /\
  (forall s, (2 * String.length s + 2 <= fuel)%nat ->
             in_fuel (Json.parse_array fuel s) /\ consumes s (Json.parse_array fuel s)) /\
  (forall s, (2 * String.length s + 2 <= fuel)%nat ->
             in_fuel (Json.parse_object fuel s) /\ consumes s (Json.parse_object fuel s)).
Proof.
  induction fuel as [|fuel (IHscan & IHarr & IHobj)];
    [repeat split; intros; lia|].
  split; [|split]; intros s Hfuel.
  - destruct s as [|c s']; [split; [discriminate|intros a rest; discriminate]|].
    cbn [String.length] in Hfuel. cbn [Json.scan_once].
    destruct (Ascii.eqb c dquote).
    { destruct (scanstring_sound s') as [Hf Hc].
      destruct (Json.scanstring s') as [[b r]|e] eqn:Hs; cbn [rbind].
      - split; [discriminate|]. intros a rest [= <- <-].
        specialize (Hc b r eq_refl). cbn. lia.
      - split; [exact (in_fuel_raise _ _ _ Hf)|intros a rest; discriminate]. }
    pose proof (skip_ws_length s') as Hws.
    destruct (Ascii.eqb c "{"%char).
    { cbn zeta.
      destruct (IHobj (Json.skip_ws s') ltac:(lia)) as [Hf Hc].
      assert (Hobj : in_fuel ('(pairs, r) <- Json.parse_object fuel (Json.skip_ws s') ;;
                              Ok (PDict (Json.dict_of_pairs pairs), r)) /\
                     consumes (String c s')
                       ('(pairs, r) <- Json.parse_object fuel (Json.skip_ws s') ;;
                        Ok (PDict (Json.dict_of_pairs pairs), r))).
      { destruct (Json.parse_object fuel (Json.skip_ws s')) as [[pairs r]|e] eqn:Hp;
          cbn [rbind].
        - split; [discriminate|]. intros a rest [= <- <-].
          specialize (Hc pairs r eq_refl). cbn. lia.
        - split; [exact (in_fuel_raise _ _ _ Hf)|intros a rest; discriminate]. }
      destruct (Json.skip_ws s') as [|c1 r] eqn:Hs1; [exact Hobj|].
      destruct (Ascii.eqb c1 "}"%char); [|exact Hobj].
      split; [discriminate|]. intros a rest [= <- <-]. cbn in Hws |- *. lia. }
    destruct (Ascii.eqb c "["%char).
    { cbn zeta.
      destruct (IHarr (Json.skip_ws s') ltac:(lia)) as [Hf Hc].
      assert (Harr : in_fuel ('(vs, r) <- Json.parse_array fuel (Json.skip_ws s') ;;
                              Ok (PList vs, r)) /\
                     consumes (String c s')
                       ('(vs, r) <- Json.parse_array fuel (Json.skip_ws s') ;;
                        Ok (PList vs, r))).
      { destruct (Json.parse_array fuel (Json.skip_ws s')) as [[vs r]|e] eqn:Hp;
          cbn [rbind].
        - split; [discriminate|]. intros a rest [= <- <-].
          specialize (Hc vs r eq_refl). cbn. lia.
        - split; [exact (in_fuel_raise _ _ _ Hf)|intros a rest; discriminate]. }
      destruct (Json.skip_ws s') as [|c1 r] eqn:Hs1; [exact Harr|].
      destruct (Ascii.eqb c1 "]"%char); [|exact Harr].
      split; [discriminate|]. intros a rest [= <- <-]. cbn in Hws |- *. lia. }
    apply literal_sound.
  - cbn [Json.parse_array].
    destruct (IHscan s ltac:(lia)) as [Hf Hc].
    destruct (Json.scan_once fuel s) as [[v r]|e] eqn:Hs; cbn [rbind];
      [|split; [exact (in_fuel_raise _ _ _ Hf)|intros a rest; discriminate]].
    specialize (Hc v r eq_refl).
    pose proof (skip_ws_length r) as Hws.
    destruct (Json.skip_ws r) as [|c r'] eqn:Hr;
      [split; [discriminate|intros a rest; discriminate]|].
    cbn [String.length] in Hws.
    destruct (Ascii.eqb c "]"%char).
    { split; [discriminate|]. intros a rest [= <- <-]. lia. }
    destruct (Ascii.eqb c ","%char);
      [|split; [discriminate|intros a rest; discriminate]].
    pose proof (skip_ws_length r') as Hws'.
    destruct (IHarr (Json.skip_ws r') ltac:(lia)) as [Hf' Hc'].
    destruct (Json.parse_array fuel (Json.skip_ws r')) as [[vs r'']|e] eqn:Hp;
      cbn [rbind].
    + split; [discriminate|]. intros a rest [= <- <-].
      specialize (Hc' vs r'' eq_refl). lia.
    + split; [exact (in_fuel_raise _ _ _ Hf')|intros a rest; discriminate].
  - cbn [Json.parse_object].
    destruct s as [|q s1]; [split; [discriminate|intros a rest; discriminate]|].
    cbn [String.length] in Hfuel.
    destruct (Ascii.eqb q dquote);
      [|split; [discriminate|intros a rest; discriminate]].
    destruct (scanstring_sound s1) as [Hfs Hcs].
    destruct (Json.scanstring s1) as [[k r]|e] eqn:Hs; cbn [rbind];
      [|split; [exact (in_fuel_raise _ _ _ Hfs)|intros a rest; discriminate]].
    specialize (Hcs k r eq_refl).
    pose proof (skip_ws_length r) as Hws.
    destruct (Json.skip_ws r) as [|c r1] eqn:Hr;
      [split; [discriminate|intros a rest; discriminate]|].
    cbn [String.length] in Hws.
    destruct (Ascii.eqb c ":"%char);
      [|split; [discriminate|intros a rest; discriminate]].
    pose proof (skip_ws_length r1) as Hws1.
    destruct (IHscan (Json.skip_ws r1) ltac:(lia)) as [Hf Hc].
    destruct (Json.scan_once fuel (Json.skip_ws r1)) as [[v r2]|e] eqn:Hv; cbn [rbind];
      [|split; [exact (in_fuel_raise _ _ _ Hf)|intros a rest; discriminate]].
    specialize (Hc v r2 eq_refl).
    pose proof (skip_ws_length r2) as Hws2.
    destruct (Json.skip_ws r2) as [|d r3] eqn:Hr2;
      [split; [discriminate|intros a rest; discriminate]|].
    cbn [String.length] in Hws2.
    destruct (Ascii.eqb d "}"%char).
    { split; [discriminate|]. intros a rest [= <- <-]. cbn. lia. }
    destruct (Ascii.eqb d ","%char);
      [|split; [discriminate|intros a rest; discriminate]].
    pose proof (skip_ws_length r3) as Hws3.
    destruct (IHobj (Json.skip_ws r3) ltac:(lia)) as [Hf' Hc'].
    destruct (Json.parse_object fuel (Json.skip_ws r3)) as [[kvs r4]|e] eqn:Hp;
      cbn [rbind].
    + split; [discriminate|]. intros a rest [= <- <-].
      specialize (Hc' kvs r4 eq_refl). cbn. lia.
    + split; [exact (in_fuel_raise _ _ _ Hf')|intros a rest; discriminate].
Qed.

(** [unmarshal] is total: whatever the text, the decoder answers without
    having run out of fuel. *)
Lemma unmarshal_in_fuel (s : string) : in_fuel (unmarshal s).
Proof.
  unfold unmarshal, Json.loads.
  pose proof (skip_ws_length s) as Hws.
  destruct (scan_sound (S (2 * String.length s))) as [Hscan _].
  destruct (Hscan (Json.skip_ws s) ltac:(lia)) as [Hf _].
  destruct (Json.scan_once _ (Json.skip_ws s)) as [[v r]|e]; cbn [rbind].
  - destruct (Json.skip_ws r); discriminate.
  - exact (in_fuel_raise _ _ _ Hf).
Qed.

(** ** C8 *)




(** * Further properties *)

(** ** Data placeholders on the wire *)

(** X1. With initial data the encoding carries the data and never the size:
    a mapping as initial data gives a map buffer whatever the size, any other
    initial data a circular buffer under a negative size and a fixed buffer
    otherwise. *)
Theorem Data_dump_initial_data (fields : pyval) (size : Z) (data : pyval) :
  truthy data = true ->
  (is_dict data = true ->
   Data.dump fields size data = PDict [("m", PDict [("f", fields); ("d", data)])]) /\
  (is_dict data = false -> size < 0 ->
   Data.dump fields size data = PDict [("c", PDict [("f", fields); ("d", data)])]) /\
  (is_dict data = false -> 0 <= size ->
   Data.dump fields size data = PDict [("f", PDict [("f", fields); ("d", data)])]).
Proof.
  intros Ht. unfold Data.dump. rewrite Ht. repeat split.
  - intros ->. reflexivity.
  - intros -> Hs. destruct (Z.ltb_spec size 0); [reflexivity|lia].
  - intros -> Hs. destruct (Z.ltb_spec size 0); [lia|reflexivity].
Qed.

Lemma Data_dump_initial_data_witness :
  Data.dump (PList [PStr "a"]) 7 (PDict [("k", PList [PInt 1])]) =
  PDict [("m", PDict [("f", PList [PStr "a"]); ("d", PDict [("k", PList [PInt 1])])])].
Proof.
  exact (proj1 (Data_dump_initial_data (PList [PStr "a"]) 7
                  (PDict [("k", PList [PInt 1])]) eq_refl) eq_refl).
Defined.

(** X2. Whatever the placeholder, its encoding is a mapping with the one
    key m, f or c over a mapping that starts with the field names; after them
    comes nothing, the initial data alone, or the allocation hint alone, and
    the hint is a positive integer. *)
Theorem Data_dump_shape (fields : pyval) (size : Z) (data : pyval) :
  exists kind rest,
    Data.dump fields size data = PDict [(kind, PDict (("f", fields) :: rest))] /\
    (kind = "m" \/ kind = "f" \/ kind = "c") /\
    (rest = [] \/ rest = [("d", data)] \/
     exists n, 0 < n /\ rest = [("n", PInt n)]).
Proof.
  unfold Data.dump.
  destruct (truthy data).
  - destruct (is_dict data); [|destruct (size <? 0)];
      do 2 eexists; (split; [reflexivity|]); auto.
  - destruct (Z.eqb_spec size 0); [do 2 eexists; (split; [reflexivity|]); auto|].
    destruct (Z.ltb_spec size 0); do 2 eexists; (split; [reflexivity|]);
      (split; [auto|]); right; right; eexists; (split; [|reflexivity]); lia.
Qed.

(** ** Dumping and marshaling *)

Lemma forallb_map_id {A : Type} (P : A -> bool) (f : A -> A) (l : list A) :
  Forall (fun x => P x = true -> f x = x) l ->
  forallb P l = true -> map f l = l.
Proof.
  induction 1 as [|x l Hx _ IH]; cbn; [reflexivity|].
  intros H. apply andb_prop in H. destruct H as [H1 H2].
  rewrite (Hx H1), (IH H2). reflexivity.
Qed.

Lemma dump_json_value (x : pyval) : json_value x = true -> _dump x = x.
Proof.
  induction x as [ |b|n|s|xs IH|xs IH|kvs IH|f n d _ _| |r _] using pyval_ind;
    intros Hj; try discriminate Hj; try reflexivity; cbn [json_value] in Hj.
  - cbn [_dump]. rewrite (forallb_map_id json_value _dump xs IH Hj). reflexivity.
  - apply andb_prop in Hj. destruct Hj as [_ Hj]. cbn [_dump]. f_equal.
    revert Hj. induction IH as [|kv kvs Hv _ IHkvs]; cbn [map forallb]; [reflexivity|].
    intros H. apply andb_prop in H. destruct H as [H1 H2].
    rewrite (Hv H1), (IHkvs H2), <- surjective_pairing. reflexivity.
Qed.

Lemma map_fst_dump (kvs : list (string * pyval)) :
  map fst (map (fun kv : string * pyval => (fst kv, _dump (snd kv))) kvs) = map fst kvs.
Proof. induction kvs as [|kv kvs IH]; cbn; [|rewrite IH]; reflexivity. Qed.

Lemma dump_plain (x : pyval) : plain x = true -> json_value (_dump x) = true.
Proof.
  induction x as [ |b|n|s|xs IH|xs IH|kvs IH|f n d _ _| |r _] using pyval_ind;
    intros Hp; try discriminate Hp; try reflexivity; cbn [plain] in Hp.
  - cbn [_dump json_value]. revert Hp.
    induction IH as [|x xs Hx _ IHxs]; cbn; [reflexivity|].
    intros H. apply andb_prop in H. destruct H as [H1 H2].
    rewrite (Hx H1), (IHxs H2). reflexivity.
  - cbn [_dump json_value]. revert Hp.
    induction IH as [|x xs Hx _ IHxs]; cbn; [reflexivity|].
    intros H. apply andb_prop in H. destruct H as [H1 H2].
    rewrite (Hx H1), (IHxs H2). reflexivity.
  - apply andb_prop in Hp. destruct Hp as [Hnd Hp].
    cbn [_dump json_value]. rewrite map_fst_dump, Hnd. cbn [andb]. clear Hnd.
    revert Hp. induction IH as [|kv kvs Hv _ IHkvs]; cbn; [reflexivity|].
    intros H. apply andb_prop in H. destruct H as [H1 H2].
    rewrite (Hv H1), (IHkvs H2). reflexivity.
Qed.

Lemma encode_items_ext {A B : Type} (f : A -> result string) (g : B -> result string)
  (h : A -> B) (l : list A) :
  Forall (fun x => g (h x) = f x) l ->
  Json.encode_items g (map h l) = Json.encode_items f l.
Proof.
  induction 1 as [|x l Hx Hl IH]; [reflexivity|].
  cbn [map Json.encode_items]. rewrite Hx.
  destruct l as [|y l]; [reflexivity|].
  cbn [map] in IH |- *. rewrite IH. reflexivity.
Qed.

(** The text of a plain value is the text of its dump. *)
Lemma dumps_dump (x : pyval) : plain x = true -> Json.dumps (_dump x) = Json.dumps x.
Proof.
  induction x as [ |b|n|s|xs IH|xs IH|kvs IH|f n d _ _| |r _] using pyval_ind;
    intros Hp; try discriminate Hp; try reflexivity; cbn [plain] in Hp.
  - cbn [_dump Json.dumps]. rewrite (encode_items_ext Json.dumps Json.dumps _dump xs);
      [reflexivity|].
    revert Hp. induction IH as [|x xs Hx _ IHxs]; cbn; intros H; constructor;
      apply andb_prop in H; destruct H; auto.
  - cbn [_dump Json.dumps]. rewrite (encode_items_ext Json.dumps Json.dumps _dump xs);
      [reflexivity|].
    revert Hp. induction IH as [|x xs Hx _ IHxs]; cbn; intros H; constructor;
      apply andb_prop in H; destruct H; auto.
  - apply andb_prop in Hp. destruct Hp as [_ Hp]. cbn [_dump Json.dumps].
    rewrite (encode_items_ext
               (fun kv => t <- Json.dumps (snd kv) ;; Ok (Json.encode_str (fst kv) ++ ":" ++ t))
               (fun kv => t <- Json.dumps (snd kv) ;; Ok (Json.encode_str (fst kv) ++ ":" ++ t))
               (fun kv : string * pyval => (fst kv, _dump (snd kv))) kvs);
      [reflexivity|].
    revert Hp. induction IH as [|kv kvs Hv _ IHkvs]; cbn; intros H; constructor;
      apply andb_prop in H; destruct H as [H1 H2]; auto.
    cbn [fst snd]. rewrite (Hv H1). reflexivity.
Qed.

(** What survives the trip is read back by [loads]. *)
Lemma loads_roundtrips (y : pyval) (s : string) :
  roundtrips y -> Json.dumps y = Ok s -> Json.loads s = Ok y.
Proof.
  intros (s' & Hs' & (c & t & Hct & Hc) & Hlen & Hscan) Hs.
  rewrite Hs' in Hs. injection Hs as ->.
  unfold Json.loads.
  assert (Hskip : Json.skip_ws s = s) by (rewrite Hct; apply skip_ws_opens, Hc).
  rewrite Hskip.
  assert (Hnil : s = s ++ EmptyString).
  { clear. induction s as [|a s IH]; cbn; [|rewrite <- IH]; reflexivity. }
  rewrite Hnil at 2. rewrite Hscan; [reflexivity|lia|reflexivity].
Qed.

(** X3. On values without objects [_dump] only turns tuples into lists: what
    it returns is a JSON value, dumping it again changes nothing, and a value
    that holds no tuple is returned as it is. *)
Theorem dump_normalizes (x : pyval) :
  plain x = true ->
  json_value (_dump x) = true /\
  _dump (_dump x) = _dump x /\
  (json_value x = true -> _dump x = x).
Proof.
  intros Hp. pose proof (dump_plain x Hp) as Hj.
  split; [exact Hj|]. split; [apply dump_json_value, Hj|apply dump_json_value].
Qed.

Lemma dump_normalizes_witness :
  _dump (_dump (PTuple [PInt 1; PTuple [PStr "a"]])) =
  _dump (PTuple [PInt 1; PTuple [PStr "a"]]).
Proof.
  exact (proj1 (proj2 (dump_normalizes (PTuple [PInt 1; PTuple [PStr "a"]]) eq_refl))).
Defined.

(** X4. For a value without objects the wire text does not depend on
    whether it was dumped first: [marshal(_dump(x))] is [marshal(x)], and both
    succeed. *)
Theorem marshal_ignores_dump (x : pyval) :
  plain x = true ->
  exists s, marshal x = Ok s /\ marshal (_dump x) = Ok s.
Proof.
  intros Hp. unfold marshal. rewrite (dumps_dump x Hp).
  destruct (json_value_roundtrips (_dump x) (dump_plain x Hp)) as (s & Hs & _).
  rewrite (dumps_dump x Hp) in Hs. exists s. split; exact Hs.
Qed.

Lemma marshal_ignores_dump_witness :
  exists s, marshal (PTuple [PInt 1; PStr "a"]) = Ok s /\
            marshal (_dump (PTuple [PInt 1; PStr "a"])) = Ok s.
Proof. exact (marshal_ignores_dump (PTuple [PInt 1; PStr "a"]) eq_refl). Defined.

(** X5. Marshaling and unmarshaling a value without objects gives its dump:
    the same value with every tuple turned into a list. *)
Theorem unmarshal_marshal_is_dump (x : pyval) :
  plain x = true ->
  exists s, marshal x = Ok s /\ unmarshal s = Ok (_dump x).
Proof.
  intros Hp. pose proof (dump_plain x Hp) as Hj.
  pose proof (json_value_roundtrips (_dump x) Hj) as Hr.
  destruct Hr as (s & Hs & Hrest).
  exists s. split; [unfold marshal; rewrite <- (dumps_dump x Hp); exact Hs|].
  apply loads_roundtrips; [exists s; split; assumption|exact Hs].
Qed.

Lemma unmarshal_marshal_is_dump_witness :
  exists s, marshal (PTuple [PInt 1; PTuple [PStr "a"]]) = Ok s /\
            unmarshal s = Ok (PList [PInt 1; PList [PStr "a"]]).
Proof.
  exact (unmarshal_marshal_is_dump (PTuple [PInt 1; PTuple [PStr "a"]]) eq_refl).
Defined.

(** ** What marshal writes and what it refuses *)

Lemma printable_app (a b : string) :
  printable (a ++ b) = printable a && printable b.
Proof.
  induction a as [|c a IH]; cbn; [reflexivity|]. rewrite IH, andb_assoc. reflexivity.
Qed.

Lemma printable_escape_char (c : ascii) : printable (Json.escape_char c) = true.
Proof. each_char c; reflexivity. Qed.

Lemma printable_escape_body (s : string) : printable (Json.escape_body s) = true.
Proof.
  induction s as [|c s IH]; cbn [Json.escape_body]; [reflexivity|].
  rewrite printable_app, printable_escape_char, IH. reflexivity.
Qed.

Lemma printable_encode_str (s : string) : printable (Json.encode_str s) = true.
Proof.
  unfold Json.encode_str. cbn [printable]. rewrite printable_app, printable_escape_body.
  reflexivity.
Qed.

Lemma printable_uint (u : Decimal.uint) :
  printable (NilEmpty.string_of_uint u) = true.
Proof. induction u; cbn; try rewrite IHu; reflexivity. Qed.

Lemma printable_encode_int (n : Z) : printable (Json.encode_int n) = true.
Proof.
  unfold Json.encode_int, NilZero.string_of_int, NilZero.string_of_uint.
  destruct (Z.to_int n) as [u|u]; destruct u; cbn [printable];
    try reflexivity; apply (printable_uint (_ u)) || apply printable_uint.
Qed.

Lemma printable_items {A : Type} (enc : A -> result string) (l : list A) :
  Forall (fun x => forall t, enc x = Ok t -> printable t = true) l ->
  forall body, Json.encode_items enc l = Ok body -> printable body = true.
Proof.
  induction 1 as [|x l Hx _ IH]; intros body; cbn [Json.encode_items].
  - intros [= <-]. reflexivity.
  - destruct (enc x) as [a|e] eqn:Ha; cbn [rbind]; [|discriminate].
    destruct l as [|y l]; [intros [= <-]; apply Hx; reflexivity|].
    destruct (Json.encode_items enc (y :: l)) as [b|e] eqn:Hb; cbn [rbind];
      [|discriminate].
    intros [= <-]. rewrite printable_app, (Hx a eq_refl). cbn [append printable].
    rewrite (IH b eq_refl). reflexivity.
Qed.

(** X6. Whatever [marshal] returns is printable ASCII: no character
    outside the codes 32 to 126, so no line break and no control character
    reaches the wire. *)
Theorem marshal_is_printable (x : pyval) (s : string) :
  marshal x = Ok s -> printable s = true.
Proof.
  unfold marshal. revert s.
  induction x as [ |b|n|t|xs IH|xs IH|kvs IH|f n d _ _| |r _] using pyval_ind;
    intros s; cbn [Json.dumps]; try discriminate.
  - intros [= <-]. reflexivity.
  - destruct b; intros [= <-]; reflexivity.
  - intros [= <-]. apply printable_encode_int.
  - intros [= <-]. apply printable_encode_str.
  - destruct (Json.encode_items Json.dumps xs) as [body|e] eqn:Hb; cbn [rbind];
      [|discriminate].
    intros [= <-]. cbn [append printable]. rewrite printable_app.
    rewrite (printable_items Json.dumps xs IH body Hb). reflexivity.
  - destruct (Json.encode_items Json.dumps xs) as [body|e] eqn:Hb; cbn [rbind];
      [|discriminate].
    intros [= <-]. cbn [append printable]. rewrite printable_app.
    rewrite (printable_items Json.dumps xs IH body Hb). reflexivity.
  - destruct (Json.encode_items _ kvs) as [body|e] eqn:Hb; cbn [rbind]; [|discriminate].
    intros [= <-]. cbn [append printable]. rewrite printable_app.
    erewrite printable_items; [reflexivity| |exact Hb].
    clear Hb. induction IH as [|kv kvs Hv _ IHkvs]; constructor; [|exact IHkvs].
    intros t. destruct (Json.dumps (snd kv)) as [tv|e] eqn:Hv'; cbn [rbind];
      [|discriminate].
    intros [= <-].
    change (printable (Json.encode_str (fst kv) ++ String ":" tv) = true).
    rewrite printable_app, printable_encode_str. cbn [printable].
    rewrite (Hv tv eq_refl). reflexivity.
Qed.

Lemma marshal_is_printable_witness :
  printable (sq "{'k':'c\u00e9','v':[1,null]}") = true.
Proof.
  apply (marshal_is_printable
           (PDict [("k", PStr (String "c" (String (ascii_of_nat 233) EmptyString)));
                   ("v", PList [PInt 1; PNone])])).
  reflexivity.
Defined.

Lemma encode_items_raise {A : Type} (enc : A -> result string) (l : list A) :
  Forall (fun x => (exists t, enc x = Ok t) \/ (exists m, enc x = Raise (TypeError m))) l ->
  (Forall (fun x => exists t, enc x = Ok t) l /\
   exists body, Json.encode_items enc l = Ok body) \/
  (Exists (fun x => exists m, enc x = Raise (TypeError m)) l /\
   exists m, Json.encode_items enc l = Raise (TypeError m)).
Proof.
  induction 1 as [|x l Hx _ IH].
  - left. split; [constructor|]. eexists. reflexivity.
  - cbn [Json.encode_items]. destruct Hx as [[t Ht]|[m Hm]].
    + rewrite Ht. cbn [rbind]. destruct IH as [[Hall [body Hb]]|[Hex [m Hm]]].
      * left. split; [constructor; eauto|].
        destruct l; [eexists; reflexivity|]. rewrite Hb. eexists. reflexivity.
      * right. split; [apply Exists_cons_tl, Hex|].
        destruct l; [inversion Hex|]. rewrite Hm. eexists. reflexivity.
    + rewrite Hm. right. split; [apply Exists_cons_hd; eauto|]. eexists. reflexivity.
Qed.

Lemma dumps_cases (x : pyval) :
  (holds_object x = false /\ exists s, Json.dumps x = Ok s) \/
  (holds_object x = true /\ exists m, Json.dumps x = Raise (TypeError m)).
Proof.
  assert (Hseq : forall xs,
             Forall (fun x =>
                       (holds_object x = false /\ exists s, Json.dumps x = Ok s) \/
                       (holds_object x = true /\
                        exists m, Json.dumps x = Raise (TypeError m))) xs ->
             (existsb holds_object xs = false /\
              exists body, Json.encode_items Json.dumps xs = Ok body) \/
             (existsb holds_object xs = true /\
              exists m, Json.encode_items Json.dumps xs = Raise (TypeError m))).
  { intros xs Hall.
    destruct (encode_items_raise Json.dumps xs) as [[Hok Hb]|[Hex Hm]].
    - eapply Forall_impl; [|exact Hall]. intros a [[_ H]|[_ H]]; auto.
    - left. split; [|exact Hb].
      apply not_true_is_false. intros He. apply existsb_exists in He.
      destruct He as (a & Hin & Ha).
      rewrite Forall_forall in Hall, Hok.
      destruct (Hall a Hin) as [[H _]|[_ [m Hm]]]; [congruence|].
      destruct (Hok a Hin) as [t Ht]. congruence.
    - right. split; [|exact Hm].
      apply Exists_exists in Hex. destruct Hex as (a & Hin & [m Ha]).
      apply existsb_exists. exists a. split; [exact Hin|].
      rewrite Forall_forall in Hall.
      destruct (Hall a Hin) as [[_ [t Ht]]|[H _]]; [congruence|exact H]. }
  induction x as [ |b|n|t|xs IH|xs IH|kvs IH|f n d _ _| |r _] using pyval_ind;
    try (left; split; [reflexivity|eexists; reflexivity]);
    try (right; split; [reflexivity|eexists; reflexivity]).
  - destruct b; left; split; try reflexivity; eexists; reflexivity.
  - cbn [holds_object Json.dumps].
    destruct (Hseq xs IH) as [[H [body Hb]]|[H [m Hm]]]; [left|right];
      (split; [exact H|]); [rewrite Hb|rewrite Hm]; eexists; reflexivity.
  - cbn [holds_object Json.dumps].
    destruct (Hseq xs IH) as [[H [body Hb]]|[H [m Hm]]]; [left|right];
      (split; [exact H|]); [rewrite Hb|rewrite Hm]; eexists; reflexivity.
  - cbn [holds_object Json.dumps].
    set (enc := fun kv : string * pyval =>
                  t <- Json.dumps (snd kv) ;; Ok (Json.encode_str (fst kv) ++ ":" ++ t)).
    assert (Hkv : Forall (fun kv => (exists t, enc kv = Ok t) \/
                                    (exists m, enc kv = Raise (TypeError m))) kvs).
    { eapply Forall_impl; [|exact IH]. intros kv [[_ [t Ht]]|[_ [m Hm]]]; unfold enc.
      - left. rewrite Ht. eexists. reflexivity.
      - right. rewrite Hm. eexists. reflexivity. }
    destruct (encode_items_raise enc kvs Hkv) as [[Hok [body Hb]]|[Hex [m Hm]]].
    + left. split; [|rewrite Hb; eexists; reflexivity].
      apply not_true_is_false. intros He. apply existsb_exists in He.
      destruct He as (kv & Hin & Ha).
      rewrite Forall_forall in IH, Hok.
      destruct (Hok kv Hin) as [t Ht]. unfold enc in Ht.
      destruct (IH kv Hin) as [[H _]|[_ [m Hm]]]; [congruence|].
      rewrite Hm in Ht. discriminate Ht.
    + right. split; [|rewrite Hm; eexists; reflexivity].
      apply Exists_exists in Hex. destruct Hex as (kv & Hin & [m' Ha]).
      apply existsb_exists. exists kv. split; [exact Hin|].
      rewrite Forall_forall in IH. unfold enc in Ha.
      destruct (IH kv Hin) as [[_ [t Ht]]|[H _]]; [|exact H].
      rewrite Ht in Ha. discriminate Ha.
Qed.

(** X7. [marshal] succeeds exactly on the values that hold no object below
    their lists, tuples and mappings; on a value that holds a Data
    placeholder or another object it raises TypeError. *)
Theorem marshal_refuses_objects (x : pyval) :
  (holds_object x = false <-> exists s, marshal x = Ok s) /\
  (holds_object x = true <-> exists m, marshal x = Raise (TypeError m)).
Proof.
  unfold marshal. destruct (dumps_cases x) as [[H [s Hs]]|[H [m Hm]]].
  - split; split; intros H'; try (exists s; exact Hs); try exact H.
    + congruence.
    + destruct H' as [m Hm]. congruence.
  - split; split; intros H'; try (exists m; exact Hm); try exact H.
    + congruence.
    + destruct H' as [s Hs]. congruence.
Qed.

(** ** What unmarshal gives back *)

Lemma number_digits_json (neg : bool) (s : string) (v : pyval) (r : string) :
  Json.number_digits neg s = Ok (v, r) -> json_value v = true.
Proof.
  unfold Json.number_digits. destruct s as [|c s2]; [discriminate|].
  destruct (Json.is_digit c); [|discriminate].
  destruct (if Ascii.eqb c "0"%char then _ else _) as [u r0].
  destruct (Json.has_frac r0 || Json.has_exp r0); [discriminate|].
  intros [= <- _]. reflexivity.
Qed.

Lemma match_number_json (s : string) (v : pyval) (r : string) :
  Json.match_number s = Ok (v, r) -> json_value v = true.
Proof.
  unfold Json.match_number. destruct s as [|c s']; [apply number_digits_json|].
  destruct (Ascii.eqb c "-"%char); apply number_digits_json.
Qed.

Lemma dict_set_values (P : pyval -> Prop) (d : list (string * pyval)) (k : string)
  (v : pyval) :
  Forall (fun kv => P (snd kv)) d -> P v ->
  Forall (fun kv => P (snd kv)) (dict_set k v d).
Proof.
  intros Hd Hv. induction Hd as [|[k' v'] d Hk Hd IH]; cbn [dict_set].
  - constructor; [exact Hv|constructor].
  - destruct (String.eqb k' k); constructor; assumption.
Qed.

Lemma dict_of_pairs_json (pairs : list (string * pyval)) :
  Forall (fun kv => json_value (snd kv) = true) pairs ->
  json_value (PDict (Json.dict_of_pairs pairs)) = true.
Proof.
  intros Hp. unfold Json.dict_of_pairs.
  assert (H : forall acc,
             NoDup (map fst acc) ->
             Forall (fun kv => json_value (snd kv) = true) acc ->
             let d := fold_left (fun d kv => dict_set (fst kv) (snd kv) d) pairs acc in
             NoDup (map fst d) /\ Forall (fun kv => json_value (snd kv) = true) d).
  { induction Hp as [|kv pairs Hkv _ IH]; intros acc Hnd Hacc; cbn [fold_left].
    - split; assumption.
    - apply IH; [apply dict_set_NoDup, Hnd|].
      apply (dict_set_values (fun v => json_value v = true)); assumption. }
  destruct (H [] (NoDup_nil _) (Forall_nil _)) as [Hnd Hall].
  cbn [json_value]. apply andb_true_iff. split.
  - apply nodup_keys_NoDup, Hnd.
  - apply forallb_forall. rewrite Forall_forall in Hall. exact Hall.
Qed.

(** Whatever the fuel, a scan that succeeds has read a JSON value. *)
Lemma scan_json (fuel : nat) :
  (forall s v r, Json.scan_once fuel s = Ok (v, r) -> json_value v = true) /\
  (forall s vs r, Json.parse_array fuel s = Ok (vs, r) ->
                  Forall (fun v => json_value v = true) vs) /\
  (forall s kvs r, Json.parse_object fuel s = Ok (kvs, r) ->
                   Forall (fun kv => json_value (snd kv) = true) kvs).
Proof.
  induction fuel as [|fuel (IHscan & IHarr & IHobj)];
    [repeat split; intros; discriminate|].
  split; [|split].
  - intros s v r. destruct s as [|c s']; [discriminate|].
    cbn [Json.scan_once].
    destruct (Ascii.eqb c dquote).
    { destruct (Json.scanstring s') as [[b r0]|e]; cbn [rbind]; [|discriminate].
      intros [= <- _]. reflexivity. }
    destruct (Ascii.eqb c "{"%char).
    { cbn zeta.
      assert (Hobj : ('(pairs, r) <- Json.parse_object fuel (Json.skip_ws s') ;;
                      Ok (PDict (Json.dict_of_pairs pairs), r)) = Ok (v, r) ->
                     json_value v = true).
      { destruct (Json.parse_object fuel (Json.skip_ws s')) as [[pairs r0]|e] eqn:Hp;
          cbn [rbind]; [|discriminate].
        intros [= <- _]. apply dict_of_pairs_json. exact (IHobj _ _ _ Hp). }
      destruct (Json.skip_ws s') as [|c1 r1]; [exact Hobj|].
      destruct (Ascii.eqb c1 "}"%char); [|exact Hobj].
      intros [= <- _]. reflexivity. }
    destruct (Ascii.eqb c "["%char).
    { cbn zeta.
      assert (Harr : ('(vs, r) <- Json.parse_array fuel (Json.skip_ws s') ;;
                      Ok (PList vs, r)) = Ok (v, r) ->
                     json_value v = true).
      { destruct (Json.parse_array fuel (Json.skip_ws s')) as [[vs r0]|e] eqn:Hp;
          cbn [rbind]; [|discriminate].
        intros [= <- _]. cbn [json_value]. apply forallb_forall.
        pose proof (IHarr _ _ _ Hp) as Hall. rewrite Forall_forall in Hall. exact Hall. }
      destruct (Json.skip_ws s') as [|c1 r1]; [exact Harr|].
      destruct (Ascii.eqb c1 "]"%char); [|exact Harr].
      intros [= <- _]. reflexivity. }
    destruct (Json.starts_with "null" (String c s')); [intros [= <- _]; reflexivity|].
    destruct (Json.starts_with "true" (String c s')); [intros [= <- _]; reflexivity|].
    destruct (Json.starts_with "false" (String c s')); [intros [= <- _]; reflexivity|].
    destruct (Json.starts_with "NaN" (String c s')); [discriminate|].
    destruct (Json.starts_with "Infinity" (String c s')); [discriminate|].
    destruct (Json.starts_with "-Infinity" (String c s')); [discriminate|].
    apply match_number_json.
  - intros s vs r. cbn [Json.parse_array].
    destruct (Json.scan_once fuel s) as [[v r0]|e] eqn:Hs; cbn [rbind]; [|discriminate].
    pose proof (IHscan _ _ _ Hs) as Hv.
    destruct (Json.skip_ws r0) as [|c r']; [discriminate|].
    destruct (Ascii.eqb c "]"%char).
    { intros [= <- _]. constructor; [exact Hv|constructor]. }
    destruct (Ascii.eqb c ","%char); [|discriminate].
    destruct (Json.parse_array fuel (Json.skip_ws r')) as [[vs' r'']|e] eqn:Hp;
      cbn [rbind]; [|discriminate].
    intros [= <- _]. constructor; [exact Hv|exact (IHarr _ _ _ Hp)].
  - intros s kvs r. cbn [Json.parse_object].
    destruct s as [|q s1]; [discriminate|].
    destruct (Ascii.eqb q dquote); [|discriminate].
    destruct (Json.scanstring s1) as [[k r0]|e]; cbn [rbind]; [|discriminate].
    destruct (Json.skip_ws r0) as [|c r1]; [discriminate|].
    destruct (Ascii.eqb c ":"%char); [|discriminate].
    destruct (Json.scan_once fuel (Json.skip_ws r1)) as [[v r2]|e] eqn:Hv; cbn [rbind];
      [|discriminate].
    pose proof (IHscan _ _ _ Hv) as Hj.
    destruct (Json.skip_ws r2) as [|d r3]; [discriminate|].
    destruct (Ascii.eqb d "}"%char).
    { intros [= <- _]. constructor; [exact Hj|constructor]. }
    destruct (Ascii.eqb d ","%char); [|discriminate].
    destruct (Json.parse_object fuel (Json.skip_ws r3)) as [[kvs' r4]|e] eqn:Hp;
      cbn [rbind]; [|discriminate].
    intros [= <- _]. constructor; [exact Hj|exact (IHobj _ _ _ Hp)].
Qed.

(** X8. What [unmarshal] returns is made of [None], booleans, integers,
    strings, lists and mappings with distinct keys, never a tuple or an
    object; marshaling it again gives a text that unmarshals to the same
    value. *)
Theorem unmarshal_gives_json (s : string) (v : pyval) :
  unmarshal s = Ok v ->
  json_value v = true /\ exists t, marshal v = Ok t /\ unmarshal t = Ok v.
Proof.
  intros Hu.
  assert (Hj : json_value v = true).
  { unfold unmarshal, Json.loads in Hu.
    destruct (Json.scan_once _ (Json.skip_ws s)) as [[v0 r]|e] eqn:Hs; cbn [rbind] in Hu;
      [|discriminate].
    destruct (Json.skip_ws r); [|discriminate].
    injection Hu as <-. destruct (scan_json (S (2 * String.length s))) as [H _].
    exact (H _ _ _ Hs). }
  split; [exact Hj|].
  pose proof (json_value_roundtrips v Hj) as Hr.
  destruct Hr as (t & Ht & Hrest). exists t. split; [exact Ht|].
  apply loads_roundtrips; [exists t; split; assumption|exact Ht].
Qed.

Lemma unmarshal_gives_json_witness :
  json_value (PDict [("a", PInt 2); ("b", PList [PNone])]) = true /\
  exists t, marshal (PDict [("a", PInt 2); ("b", PList [PNone])]) = Ok t /\
            unmarshal t = Ok (PDict [("a", PInt 2); ("b", PList [PNone])]).
Proof.
  apply (unmarshal_gives_json (sq " {'a': 1, 'b': [null], 'a': 2} ")).
  reflexivity.
Defined.

(** ** Packing *)

Lemma plain_Data_dump (f : pyval) (n : Z) (d : pyval) :
  plain f = true -> plain d = true -> plain (Data.dump f n d) = true.
Proof.
  intros Hf Hd. unfold Data.dump.
  destruct (truthy d), (is_dict d), (n <? 0), (n =? 0); cbn; rewrite ?Hf, ?Hd;
    reflexivity.
Qed.

Lemma dump_packable (x : pyval) : packable x = true -> plain (_dump x) = true.
Proof.
  induction x as [ |b|n|t|xs IH|xs IH|kvs IH|f n d _ _| |r _] using pyval_ind;
    intros Hp; try discriminate Hp; try reflexivity; cbn [packable] in Hp.
  - cbn [_dump plain]. revert Hp.
    induction IH as [|x xs Hx _ IHxs]; cbn; [reflexivity|].
    intros H. apply andb_prop in H. destruct H as [H1 H2].
    rewrite (Hx H1), (IHxs H2). reflexivity.
  - cbn [_dump plain]. revert Hp.
    induction IH as [|x xs Hx _ IHxs]; cbn; [reflexivity|].
    intros H. apply andb_prop in H. destruct H as [H1 H2].
    rewrite (Hx H1), (IHxs H2). reflexivity.
  - apply andb_prop in Hp. destruct Hp as [Hnd Hp].
    cbn [_dump plain]. rewrite map_fst_dump, Hnd. cbn [andb]. clear Hnd.
    revert Hp. induction IH as [|kv kvs Hv _ IHkvs]; cbn; [reflexivity|].
    intros H. apply andb_prop in H. destruct H as [H1 H2].
    rewrite (Hv H1), (IHkvs H2). reflexivity.
  - apply andb_prop in Hp. destruct Hp as [Hf Hd].
    apply plain_Data_dump; assumption.
Qed.

(** X9. A value whose only objects are Data placeholders with plain fields
    and plain initial data always packs; the text after the prefix [data:]
    unmarshals to the value with each placeholder replaced by its encoding
    and every tuple turned into a list. *)
Theorem pack_unpacks (x : pyval) :
  packable x = true ->
  exists s, pack x = Ok ("data:" ++ s) /\ unmarshal s = Ok (_dump (_dump x)).
Proof.
  intros Hp. pose proof (dump_packable x Hp) as Hpl.
  pose proof (dump_plain _ Hpl) as Hj.
  destruct (json_value_roundtrips _ Hj) as (s & Hs & Hrest).
  exists s. split.
  - unfold pack, marshal. rewrite <- (dumps_dump _ Hpl), Hs. reflexivity.
  - apply loads_roundtrips; [exists s; split; assumption|exact Hs].
Qed.

Lemma pack_unpacks_witness :
  exists s,
    pack (PList [PData (PTuple [PStr "a"]) 3 PNone]) = Ok ("data:" ++ s) /\
    unmarshal s =
    Ok (PList [PDict [("f", PDict [("f", PList [PStr "a"]); ("n", PInt 3)])]]).
Proof. exact (pack_unpacks (PList [PData (PTuple [PStr "a"]) 3 PNone]) eq_refl). Defined.

(** ** Paths of references *)

Lemma spaceless_guard (k : string) :
  spaceless k = true -> _guard_key (PStr k) = Ok tt.
Proof.
  unfold spaceless. intros H. apply guard_key_plain.
  destruct (str_contains " "%char k); [discriminate|reflexivity].
Qed.

Lemma unspaced_guard (k : string) :
  spaceless k = false ->
  _guard_key (PStr k) = Raise (KeyError "keys cannot contain spaces").
Proof.
  unfold spaceless. intros H. apply guard_key_spaced.
  destruct (str_contains " "%char k); [reflexivity|discriminate].
Qed.

Lemma navigate_path_cases (r : Ref) (ks : list string) :
  (forallb spaceless ks = true ->
   navigate r ks = Ok (mkRef (path_of (__key__ r) ks))) /\
  (forallb spaceless ks = false ->
   navigate r ks = Raise (KeyError "keys cannot contain spaces")).
Proof.
  revert r. induction ks as [|k ks IH]; intros r; split; cbn [forallb navigate].
  - intros _. unfold path_of. cbn [path_tail]. destruct r as [root]. cbn.
    f_equal. f_equal. induction root as [|c root IHr]; cbn; [|rewrite <- IHr at 1];
      reflexivity.
  - discriminate.
  - intros H. apply andb_prop in H. destruct H as [Hk Hks].
    unfold Ref.__getattr__. rewrite (spaceless_guard k Hk). cbn [rbind].
    destruct (IH (mkRef (__key__ r ++ _key_sep ++ k))) as [IH1 _].
    rewrite (IH1 Hks). unfold path_of, _key_sep. cbn [__key__ path_tail].
    rewrite !string_app_assoc. reflexivity.
  - intros H. unfold Ref.__getattr__.
    destruct (spaceless k) eqn:Hk.
    + rewrite (spaceless_guard k Hk). cbn [rbind]. cbn [andb] in H.
      destruct (IH (mkRef (__key__ r ++ _key_sep ++ k))) as [_ IH2].
      exact (IH2 H).
    + rewrite (unspaced_guard k Hk). reflexivity.
Qed.

(** X10. Attribute navigation [ref.k1.k2...], for names that reach
    [__getattr__], succeeds exactly when no name holds a space, and then
    addresses the root's path followed by the names, a space before each;
    otherwise it raises KeyError. *)
Theorem navigate_path (r : Ref) (ks : list string) :
  (forallb spaceless ks = true ->
   navigate r ks = Ok (mkRef (path_of (__key__ r) ks))) /\
  (forallb spaceless ks = false ->
   navigate r ks = Raise (KeyError "keys cannot contain spaces")).
Proof. exact (navigate_path_cases r ks). Qed.

Lemma navigate_path_witness :
  navigate (mkRef "card") ["a"; "b"] = Ok (mkRef "card a b").
Proof. exact (proj1 (navigate_path (mkRef "card") ["a"; "b"]) eq_refl). Defined.

Lemma split_at_space (a b t u : string) :
  spaceless a = true -> spaceless b = true ->
  (t = EmptyString \/ exists t', t = String " " t') ->
  (u = EmptyString \/ exists u', u = String " " u') ->
  a ++ t = b ++ u -> a = b /\ t = u.
Proof.
  unfold spaceless. revert b.
  induction a as [|x a IH]; intros b Ha Hb Ht Hu H.
  - destruct b as [|y b]; [split; [reflexivity|exact H]|].
    cbn in H, Hb. destruct Ht as [->|[t' ->]]; [discriminate|].
    injection H as <- _. cbn in Hb. discriminate.
  - destruct b as [|y b].
    + cbn in H, Ha. destruct Hu as [->|[u' ->]]; [discriminate|].
      injection H as -> _. cbn in Ha. discriminate.
    + cbn in H, Ha, Hb. injection H as -> H.
      destruct (Ascii.eqb y " "%char); [discriminate|]. cbn [orb] in Ha, Hb.
      destruct (IH b Ha Hb Ht Hu H) as [-> ->]. split; reflexivity.
Qed.

Lemma path_tail_starts (ks : list string) :
  path_tail ks = EmptyString \/ exists t, path_tail ks = String " " t.
Proof. destruct ks as [|k ks]; [left|right; eexists]; reflexivity. Qed.

Lemma path_tail_inj (ks1 ks2 : list string) :
  forallb spaceless ks1 = true -> forallb spaceless ks2 = true ->
  path_tail ks1 = path_tail ks2 -> ks1 = ks2.
Proof.
  revert ks2. induction ks1 as [|k1 ks1 IH]; intros [|k2 ks2] H1 H2 H;
    try reflexivity; try discriminate H.
  cbn [forallb] in H1, H2. apply andb_prop in H1, H2.
  destruct H1 as [Hk1 H1], H2 as [Hk2 H2].
  cbn [path_tail append] in H. injection H as H.
  destruct (split_at_space k1 k2 _ _ Hk1 Hk2 (path_tail_starts ks1)
              (path_tail_starts ks2) H) as [-> Ht].
  rewrite (IH ks2 H1 H2 Ht). reflexivity.
Qed.

(** X11. Below roots without spaces, two navigations reach the same
    reference only when they start at the same root and follow the same
    names.  The root itself is the card key, which [page[key]] takes as it
    comes: with a space in it, [page[a b]] is the reference [page[a].b]. *)
Theorem paths_are_unambiguous :
  (forall (a b : string) (ks1 ks2 : list string) (r1 r2 : Ref),
      spaceless a = true -> spaceless b = true ->
      navigate (mkRef a) ks1 = Ok r1 -> navigate (mkRef b) ks2 = Ok r2 ->
      r1 = r2 -> a = b /\ ks1 = ks2) /\
  (forall (a b : string) (p : PageBase),
      spaceless b = true ->
      exists r,
        PageBase.__getitem__ (PStr (a ++ " " ++ b)) p = (Ok r, p) /\
        (r0 <~ PageBase.__getitem__ (PStr a) ;; lift (Ref.__getattr__ r0 b)) p =
        (Ok r, p)).
Proof.
  split.
  - intros a b ks1 ks2 r1 r2 Ha Hb Hn1 Hn2 Heq.
    assert (Hs : forall r ks r', navigate r ks = Ok r' -> forallb spaceless ks = true).
    { intros r ks r' Hn. destruct (forallb spaceless ks) eqn:Hf; [reflexivity|].
      destruct (navigate_path_cases r ks) as [_ Hbad]. rewrite (Hbad Hf) in Hn.
      discriminate Hn. }
    pose proof (Hs _ _ _ Hn1) as Hs1. pose proof (Hs _ _ _ Hn2) as Hs2.
    destruct (navigate_path_cases (mkRef a) ks1) as [Hok1 _].
    destruct (navigate_path_cases (mkRef b) ks2) as [Hok2 _].
    rewrite (Hok1 Hs1) in Hn1. rewrite (Hok2 Hs2) in Hn2.
    injection Hn1 as <-. injection Hn2 as <-. injection Heq as Heq.
    unfold path_of in Heq. cbn [__key__] in Heq.
    destruct (split_at_space a b _ _ Ha Hb (path_tail_starts ks1)
                (path_tail_starts ks2) Heq) as [-> Ht].
    split; [reflexivity|]. apply path_tail_inj; assumption.
  - intros a b p Hb. eexists. split; [reflexivity|].
    unfold bind, PageBase.__getitem__, ret, lift, Ref.__getattr__.
    rewrite (spaceless_guard b Hb). reflexivity.
Qed.


Lemma spaceless_uint (u : Decimal.uint) :
  str_contains " "%char (NilEmpty.string_of_uint u) = false.
Proof. induction u; cbn; try exact IHu; reflexivity. Qed.

Lemma spaceless_int (n : Z) : spaceless (py_str (PInt n)) = true.
Proof.
  unfold spaceless, py_str, NilZero.string_of_int, NilZero.string_of_uint.
  destruct (Z.to_int n) as [u|u]; destruct u; cbn [str_contains Ascii.eqb];
    try reflexivity;
    match goal with
    | |- negb (str_contains _ (NilEmpty.string_of_uint ?u)) = true =>
        rewrite (spaceless_uint u); reflexivity
    | |- negb (_ || str_contains _ (NilEmpty.string_of_uint ?u)) = true =>
        rewrite (spaceless_uint u); reflexivity
    end.
Qed.

Lemma guarded_key_text (key : pyval) :
  _guard_key key = Ok tt -> _guard_key (PStr (py_str key)) = Ok tt.
Proof.
  destruct key as [ |b|n|s|xs|xs|kvs|f n d|r]; try discriminate.
  - intros _. destruct b; reflexivity.
  - intros _. apply spaceless_guard, spaceless_int.
  - intros H. exact H.
Qed.

(** X12. An index that passes the key guard addresses what its text
    addresses: [ref[3]] is [ref.3] spelled with brackets, for reading and
    for assignment alike. *)
Theorem index_is_its_text (self : Ref) (key : pyval) :
  _guard_key key = Ok tt ->
  Ref.__getitem__ self key = Ref.__getattr__ self (py_str key) /\
  forall value p,
    Ref.__setitem__ self key value p = Ref.__setattr__ self (py_str key) value p.
Proof.
  intros Hg. pose proof (guarded_key_text key Hg) as Hg'. split.
  - unfold Ref.__getitem__, Ref.__getattr__. rewrite Hg, Hg'. reflexivity.
  - intros value p. unfold Ref.__setitem__, Ref.__setattr__, _set_op.
    rewrite Hg, Hg'. reflexivity.
Qed.

Lemma index_is_its_text_witness :
  Ref.__getitem__ (mkRef "card") (PInt (-12)) = Ref.__getattr__ (mkRef "card") "-12" /\
  forall value p,
    Ref.__setitem__ (mkRef "card") (PInt (-12)) value p =
    Ref.__setattr__ (mkRef "card") "-12" value p.
Proof. exact (index_is_its_text (mkRef "card") (PInt (-12)) eq_refl). Defined.

(** X13. The check that keeps Data out of assignments looks at the value
    itself and not at what it dumps to: an object whose [dump] returns a
    Data placeholder is accepted, and the operation tracked is the
    placeholder's encoding with the path added under [k], without a [v]. *)
Theorem wrapped_Data_is_assigned
  (self : Ref) (key f : pyval) (n : Z) (d : pyval) (p : PageBase) :
  _guard_key key = Ok tt ->
  exists kind body,
    Data.dump f n d = PDict [(kind, body)] /\
    (kind = "m" \/ kind = "f" \/ kind = "c") /\
    Ref.__setitem__ self key (PObj (Some (PData f n d))) p =
    (Ok tt,
     mkPage (url p)
       (_changes p ++
        [PDict [(kind, body); ("k", PStr (__key__ self ++ " " ++ py_str key))]])).
Proof.
  intros Hg. unfold Ref.__setitem__, _set_op, bind, lift, PageBase._track.
  cbn [is_Data _dump]. rewrite Hg. cbn [rbind]. unfold Data.dump.
  destruct (truthy d), (is_dict d), (n <? 0), (n =? 0);
    eexists; eexists; (split; [reflexivity|]); (split; [|reflexivity]); auto.
Qed.

Lemma wrapped_Data_is_assigned_witness :
  exists kind body,
    Data.dump (PList [PStr "a"]) 0 PNone = PDict [(kind, body)] /\
    (kind = "m" \/ kind = "f" \/ kind = "c") /\
    Ref.__setitem__ (mkRef "card") (PStr "x") (PObj (Some (PData (PList [PStr "a"]) 0 PNone)))
      (PageBase.__init__ "/p") =
    (Ok tt,
     mkPage (url (PageBase.__init__ "/p"))
       (_changes (PageBase.__init__ "/p") ++
        [PDict [(kind, body);
                ("k", PStr (__key__ (mkRef "card") ++ " " ++ py_str (PStr "x")))]])).
Proof.
  exact (wrapped_Data_is_assigned (mkRef "card") (PStr "x") (PList [PStr "a"]) 0 PNone
           (PageBase.__init__ "/p") eq_refl).
Defined.

(** ** The buffer of a page *)

Lemma diff_text (p : PageBase) (d : string) :
  _changes p <> [] ->
  marshal (PDict [("d", PList (_changes p))]) = Ok d ->
  PageBase._diff p = (Ok (Some d), mkPage (url p) []).
Proof.
  intros Hne Hm. unfold PageBase._diff.
  destruct (_changes p) as [|c cs]; [contradiction|]. rewrite Hm. reflexivity.
Qed.

Lemma plain_buffer_text (cs : list pyval) :
  forallb plain cs = true ->
  exists d, marshal (PDict [("d", PList cs)]) = Ok d /\
            unmarshal d = Ok (PDict [("d", PList (map _dump cs))]).
Proof.
  intros Hp.
  assert (Hpl : plain (PDict [("d", PList cs)]) = true).
  { cbn. rewrite Hp. reflexivity. }
  pose proof (dump_plain _ Hpl) as Hj.
  destruct (json_value_roundtrips _ Hj) as (d & Hd & Hrest).
  exists d. split.
  - unfold marshal. rewrite <- (dumps_dump _ Hpl). exact Hd.
  - change (PDict [("d", PList (map _dump cs))]) with (_dump (PDict [("d", PList cs)])).
    apply loads_roundtrips; [exists d; split; assumption|exact Hd].
Qed.

(** X15. A non-empty buffer of operations without objects always flushes,
    and the text [_diff] returns unmarshals to a mapping with the one key
    [d] bound to the operations in buffer order, their tuples turned into
    lists. *)
Theorem diff_decodes (p : PageBase) :
  _changes p <> [] -> forallb plain (_changes p) = true ->
  exists d,
    PageBase._diff p = (Ok (Some d), mkPage (url p) []) /\
    unmarshal d = Ok (PDict [("d", PList (map _dump (_changes p)))]).
Proof.
  intros Hne Hp. destruct (plain_buffer_text _ Hp) as (d & Hd & Hu).
  exists d. split; [apply diff_text; assumption|exact Hu].
Qed.

Lemma diff_decodes_witness :
  exists d,
    PageBase._diff (mkPage "/p" [PDict [("k", PStr "card x"); ("v", PTuple [PInt 1])]]) =
    (Ok (Some d), mkPage "/p" []) /\
    unmarshal d =
    Ok (PDict [("d", PList [PDict [("k", PStr "card x"); ("v", PList [PInt 1])]])]).
Proof.
  apply (diff_decodes (mkPage "/p" [PDict [("k", PStr "card x"); ("v", PTuple [PInt 1])]])).
  - discriminate.
  - reflexivity.
Defined.

(** ** Saving *)

Lemma marshal_mapping_truthy (kvs : list (string * pyval)) (d : string) :
  marshal (PDict kvs) = Ok d -> diff_truthy (Some d) = true.
Proof.
  unfold marshal. cbn [Json.dumps].
  destruct (Json.encode_items _ kvs) as [body|e]; cbn [rbind]; [|discriminate].
  intros [= <-]. reflexivity.
Qed.

Lemma buffer_marshals (cs : list pyval) :
  holds_object (PList cs) = false ->
  exists d, marshal (PDict [("d", PList cs)]) = Ok d.
Proof.
  intros Hh. destruct (dumps_cases (PDict [("d", PList cs)])) as [[_ Hd]|[Hb _]].
  - exact Hd.
  - cbn [holds_object existsb snd] in Hb, Hh. rewrite Hh in Hb. discriminate Hb.
Qed.

Lemma buffer_refused (cs : list pyval) :
  holds_object (PList cs) = true ->
  exists m, marshal (PDict [("d", PList cs)]) = Raise (TypeError m).
Proof.
  intros Hh. destruct (dumps_cases (PDict [("d", PList cs)])) as [[Hb _]|[_ Hd]].
  - cbn [holds_object existsb snd] in Hb, Hh. rewrite Hh in Hb. discriminate Hb.
  - exact Hd.
Qed.

(** X16. Saving a page whose buffer is not empty and holds no object issues
    exactly one request, to the hub address of the moment followed by the
    page's url, carrying the diff.  The buffer is emptied before the hub
    answers: when the answer is not a 200 the save raises ServiceError with
    the status and the text, the operations are gone all the same, and
    saving again sends nothing. *)
Theorem save_sends_once
  (http : request -> net_result (Z * string)) (c : _Config) (p : PageBase)
  (wire : list request) :
  _changes p <> [] -> holds_object (PList (_changes p)) = false ->
  exists d r,
    marshal (PDict [("d", PList (_changes p))]) = Ok d /\
    Page.save http c p wire =
    (r, mkPage (url p) [], (wire ++ [((hub_address c ++ url p)%string, d)])%list) /\
    (forall text, http (hub_address c ++ url p, d) = NetOk (200, text) -> r = NetOk tt) /\
    (forall status text,
        http (hub_address c ++ url p, d) = NetOk (status, text) -> status <> 200 ->
        r = NetRaise (ServiceError ("Request failed (code=" ++ py_str (PInt status)
                                    ++ "): " ++ text))) /\
    (forall e, http (hub_address c ++ url p, d) = NetRaise e -> r = NetRaise e) /\
    Page.save http c (mkPage (url p) []) (wire ++ [((hub_address c ++ url p)%string, d)])%list =
    (NetOk tt, mkPage (url p) [], (wire ++ [((hub_address c ++ url p)%string, d)])%list).
Proof.
  intros Hne Hh. destruct (buffer_marshals _ Hh) as [d Hd].
  pose proof (diff_text p d Hne Hd) as Hdiff.
  pose proof (marshal_mapping_truthy _ _ Hd) as Ht.
  exists d. unfold Page.save. rewrite Hdiff, Ht. unfold Site._save. cbn [url].
  eexists. split; [exact Hd|]. split; [reflexivity|].
  split; [|split; [|split]].
  - intros text ->. reflexivity.
  - intros status text -> Hs. apply Z.eqb_neq in Hs. rewrite Hs. reflexivity.
  - intros e ->. reflexivity.
  - reflexivity.
Qed.

Lemma save_sends_once_witness :
  exists d r,
    marshal (PDict [("d", PList [PDict [("k", PStr "card")]])]) = Ok d /\
    Page.save (fun _ => NetOk (500, "down")) (mkConfig "" "" "http://hub" "" "" 3)
      (mkPage "/p" [PDict [("k", PStr "card")]]) [] =
    (r, mkPage "/p" [], [("http://hub/p", d)]) /\
    r = NetRaise (ServiceError "Request failed (code=500): down") /\
    Page.save (fun _ => NetOk (500, "down")) (mkConfig "" "" "http://hub" "" "" 3)
      (mkPage "/p" []) [("http://hub/p", d)] =
    (NetOk tt, mkPage "/p" [], [("http://hub/p", d)]).
Proof.
  destruct (save_sends_once (fun _ => NetOk (500, "down"))
              (mkConfig "" "" "http://hub" "" "" 3)
              (mkPage "/p" [PDict [("k", PStr "card")]]) [])
    as (d & r & Hd & Hs & _ & Hbad & _ & Hagain).
  - discriminate.
  - reflexivity.
  - exists d, r. split; [exact Hd|]. split; [exact Hs|].
    split; [|exact Hagain]. apply (Hbad 500 "down"); [reflexivity|discriminate].
Defined.

(** X17. The same for a page of an application: one text goes to the
    channel, an asterisk, the url and the diff with a space between them;
    the buffer is emptied whether or not the channel accepts the text, and
    saving again sends nothing. *)
Theorem async_save_sends_once
  (send : string -> net_result unit) (p : PageBase) (wire : list string) :
  _changes p <> [] -> holds_object (PList (_changes p)) = false ->
  exists d,
    marshal (PDict [("d", PList (_changes p))]) = Ok d /\
    AsyncPage.save send p wire =
    (send ("* " ++ url p ++ " " ++ d), mkPage (url p) [],
     (wire ++ [("* " ++ url p ++ " " ++ d)%string])%list) /\
    AsyncPage.save send (mkPage (url p) []) (wire ++ [("* " ++ url p ++ " " ++ d)%string])%list =
    (NetOk tt, mkPage (url p) [], (wire ++ [("* " ++ url p ++ " " ++ d)%string])%list).
Proof.
  intros Hne Hh. destruct (buffer_marshals _ Hh) as [d Hd].
  pose proof (diff_text p d Hne Hd) as Hdiff.
  pose proof (marshal_mapping_truthy _ _ Hd) as Ht.
  exists d. unfold AsyncPage.save. rewrite Hdiff, Ht. cbn [url].
  split; [exact Hd|]. split; reflexivity.
Qed.

Lemma async_save_sends_once_witness :
  exists d,
    marshal (PDict [("d", PList [PDict []])]) = Ok d /\
    AsyncPage.save (fun _ => NetRaise (TransportError "closed")) (mkPage "/p" [PDict []]) [] =
    (NetRaise (TransportError "closed"), mkPage "/p" [], ["* /p " ++ d]) /\
    AsyncPage.save (fun _ => NetRaise (TransportError "closed")) (mkPage "/p" [])
      ["* /p " ++ d] =
    (NetOk tt, mkPage "/p" [], ["* /p " ++ d]).
Proof.
  apply (async_save_sends_once (fun _ => NetRaise (TransportError "closed"))
           (mkPage "/p" [PDict []]) []).
  - discriminate.
  - reflexivity.
Defined.

(** ** Expando *)

(** X19. Item access on an expando reads back what was written: after
    [e[k] = v], [e[k]] is [v], [k in e] holds even when [v] is [None], and
    every other key reads and tests as before; a key that was never set
    reads as [None] instead of raising.  An attribute assignment does what
    the item assignment does, for every name, and a call of [__getattr__]
    returns what item access returns.  [expando_to_dict] gives back the
    mapping the expando was built from, and [q in e] holds exactly for its
    keys. *)
Theorem Expando_reads_back (e : Expando) (k q : string) (v : pyval) :
  Expando.__getitem__ (Expando.__setitem__ e k v) k = v /\
  Expando.__contains__ (Expando.__setitem__ e k v) k = true /\
  (k <> q ->
   Expando.__getitem__ (Expando.__setitem__ e k v) q = Expando.__getitem__ e q /\
   Expando.__contains__ (Expando.__setitem__ e k v) q = Expando.__contains__ e q) /\
  (Expando.__contains__ e q = false -> Expando.__getitem__ e q = PNone) /\
  Expando.__setattr__ e k v = Expando.__setitem__ e k v /\
  Expando.__getattr__ e q = Expando.__getitem__ e q /\
  (forall d, expando_to_dict (Expando.__init__ (PDict d)) = PDict d) /\
  (forall d, Expando.__contains__ (Expando.__init__ (PDict d)) q = true <->
             In q (map fst d)).
Proof.
  unfold Expando.__getattr__, Expando.__getitem__, Expando.__contains__,
    Expando.__setattr__, Expando.__setitem__, expando_to_dict, Expando.__init__.
  cbn [__kv]. rewrite !dict_get_set, String.eqb_refl.
  split; [reflexivity|]. split; [reflexivity|].
  split; [|split; [|split; [|split; [|split]]]].
  - intros Hne. apply String.eqb_neq in Hne. rewrite Hne. split; reflexivity.
  - destruct (dict_get q (__kv e)); [discriminate|reflexivity].
  - reflexivity.
  - reflexivity.
  - reflexivity.
  - intros d. split.
    + intros H. destruct (dict_get q d) as [x|] eqn:Hg; [|discriminate].
      apply dict_get_In in Hg. apply in_map_iff. exists (q, x).
      split; [reflexivity|exact Hg].
    + intros H. destruct (dict_get q d) as [x|] eqn:Hg; [reflexivity|].
      apply dict_get_None in Hg. contradiction.
Qed.

(** ** Configuration *)

(** What [configure] leaves, field by field. *)
Lemma configure_fields
  (internal external hub key_id key_secret : option string)
  (ia ea ha ki ks : string) (st : Z) (cl : _BasicAuthClient) :
  configure internal external hub key_id key_secret (mkConfig ia ea ha ki ks st, cl) =
  (mkConfig
     (if given internal then value_of internal else ia)
     (if given external then value_of external
      else if given internal && String.eqb ea _default_internal_address
           then value_of internal else ea)
     (if given hub then value_of hub else ha)
     (if given key_id then value_of key_id else ki)
     (if given key_secret then value_of key_secret else ks)
     st,
   mkClient (if given key_id then value_of key_id else ki,
             if given key_secret then value_of key_secret else ks) false).
Proof.
  unfold configure, _BasicAuthClient.__init__. cbn [fst].
  destruct (given internal), (given external), (given hub), (given key_id),
    (given key_secret); cbn; try reflexivity;
    destruct (String.eqb ea _default_internal_address); reflexivity.
Qed.

(** X20. [configure] is idempotent, treats an empty string like an absent
    argument, and always leaves a client built from the credentials of the
    configuration it leaves.  The external address follows the internal
    one only while it still is the default: a second [configure] of the
    internal address alone leaves the external address where the first one
    put it. *)
Theorem configure_settles
  (internal external hub key_id key_secret : option string) (g : globals) :
  configure internal external hub key_id key_secret
    (configure internal external hub key_id key_secret g) =
  configure internal external hub key_id key_secret g /\
  snd (configure internal external hub key_id key_secret g) =
  _BasicAuthClient.__init__ (fst (configure internal external hub key_id key_secret g)) /\
  configure (Some EmptyString) (Some EmptyString) (Some EmptyString) (Some EmptyString)
    (Some EmptyString) g =
  configure None None None None None g /\
  fst (configure None None None None None g) = fst g /\
  (forall a b : string,
      a <> EmptyString -> b <> EmptyString -> a <> _default_internal_address ->
      external_address (fst g) = _default_internal_address ->
      external_address
        (fst (configure (Some b) None None None None
                (configure (Some a) None None None None g))) = a).
Proof.
  destruct g as [[ia ea ha ki ks st] cl].
  split; [|split; [|split; [reflexivity|split; [reflexivity|]]]].
  - rewrite !configure_fields. f_equal.
    + f_equal; try (destruct (given _); reflexivity).
      destruct (given external); [reflexivity|].
      destruct (given internal); [|reflexivity]. cbn [andb].
      destruct (String.eqb ea _default_internal_address) eqn:He.
      * destruct (String.eqb (value_of internal) _default_internal_address);
          reflexivity.
      * rewrite He. reflexivity.
    + f_equal. f_equal; destruct (given _); reflexivity.
  - rewrite configure_fields. reflexivity.
  - intros a b Ha Hb Had He. cbn [fst external_address] in He. subst ea.
    apply String.eqb_neq in Ha, Hb, Had.
    rewrite !configure_fields. cbn [fst external_address given value_of].
    rewrite Ha, Hb. cbn [negb andb]. rewrite String.eqb_refl, Had. reflexivity.
Qed.

(** ** The data factory *)

Lemma py_split_lstrip (s : string) : py_split (py_lstrip s) = py_split s.
Proof.
  induction s as [|c s IH]; [reflexivity|]. cbn [py_lstrip].
  destruct (py_isspace c) eqn:Hc; [|reflexivity].
  rewrite IH. cbn [py_split]. rewrite Hc. reflexivity.
Qed.

Lemma py_rstrip_head (c : ascii) (s : string) :
  py_rstrip (String c s) = EmptyString \/
  exists r, py_rstrip (String c s) = String c r.
Proof.
  cbn [py_rstrip]. destruct (py_rstrip s) as [|d r].
  - destruct (py_isspace c); [left; reflexivity|right; eexists; reflexivity].
  - right. eexists. reflexivity.
Qed.

Lemma py_split_head (c : ascii) (s : string) :
  py_isspace c = false -> py_split (String c s) <> [].
Proof.
  intros Hc. cbn [py_split]. rewrite Hc. destruct s as [|c' s']; [discriminate|].
  destruct (py_isspace c'); [discriminate|].
  destruct (py_split (String c' s')); discriminate.
Qed.

Lemma py_split_cons (c : ascii) (s : string) :
  py_split (String c s) =
  if py_isspace c then py_split s
  else match s with
       | EmptyString => [String c EmptyString]
       | String c' _ =>
           if py_isspace c' then String c EmptyString :: py_split s
           else match py_split s with
                | w :: ws => String c w :: ws
                | [] => [String c EmptyString]
                end
       end.
Proof. reflexivity. Qed.

Lemma py_split_rstrip (s : string) : py_split (py_rstrip s) = py_split s.
Proof.
  induction s as [|c s IH]; [reflexivity|].
  cbn [py_rstrip]. destruct (py_rstrip s) as [|d r] eqn:Hr.
  - change (py_split EmptyString) with (@nil string) in IH.
    rewrite (py_split_cons c s).
    destruct (py_isspace c) eqn:Hc; [exact IH|].
    rewrite (py_split_cons c EmptyString), Hc.
    destruct s as [|c' s']; [reflexivity|].
    rewrite <- IH. destruct (py_isspace c'); reflexivity.
  - destruct s as [|c' s']; [discriminate Hr|].
    destruct (py_rstrip_head c' s') as [He|[r' He]]; rewrite He in Hr;
      [discriminate Hr|]. injection Hr as <- <-.
    rewrite (py_split_cons c (String c' r')), (py_split_cons c (String c' s')).
    rewrite IH. reflexivity.
Qed.

Lemma py_split_strip (s : string) : py_split (py_strip s) = py_split s.
Proof. unfold py_strip. rewrite py_split_rstrip. apply py_split_lstrip. Qed.

Lemma py_lstrip_head (s : string) :
  py_lstrip s = EmptyString \/
  exists c r, py_lstrip s = String c r /\ py_isspace c = false.
Proof.
  induction s as [|c s IH]; [left; reflexivity|]. cbn [py_lstrip].
  destruct (py_isspace c) eqn:Hc; [exact IH|]. right. exists c, s. split; [reflexivity|exact Hc].
Qed.

Lemma py_strip_blank (s : string) :
  String.eqb (py_strip s) EmptyString = true <-> py_split s = [].
Proof.
  rewrite <- py_split_strip. unfold py_strip.
  destruct (py_lstrip_head s) as [->|(c & r & -> & Hc)]; [split; reflexivity|].
  destruct (py_rstrip_head c r) as [->|[r' ->]]; [split; reflexivity|].
  split; [discriminate|]. intros H. exfalso. exact (py_split_head c r' Hc H).
Qed.

Lemma py_split_words (s : string) : Forall (fun w => w <> EmptyString) (py_split s).
Proof.
  induction s as [|c s IH]; [constructor|]. cbn [py_split].
  destruct (py_isspace c); [exact IH|].
  destruct s as [|c' s']; [constructor; [discriminate|constructor]|].
  destruct (py_isspace c'); [constructor; [discriminate|exact IH]|].
  destruct (py_split (String c' s')) as [|w ws]; [constructor; [discriminate|constructor]|].
  inversion IH; subst. constructor; [discriminate|assumption].
Qed.

Lemma check_fields_words (ws : list string) :
  Forall (fun w => w <> EmptyString) ws -> check_fields (map PStr ws) = Ok tt.
Proof.
  induction 1 as [|w ws Hw _ IH]; [reflexivity|]. cbn [map check_fields].
  apply String.eqb_neq in Hw. rewrite Hw. exact IH.
Qed.

(** X21. Field names given as one string are the words of the string,
    split at runs of white space, leading and trailing white space
    ignored: [data] called with the string does what it does with the list
    of those words, and a blank string is refused like an empty list.  The
    checks on the single names cannot fail for a string. *)
Theorem data_names_in_a_string (s : string) (size rows columns pack : pyval) :
  data (PStr s) size rows columns pack =
  data (PList (map PStr (py_split s))) size rows columns pack /\
  (py_split s = [] ->
   data (PStr s) size rows columns pack = Raise (ValueError "fields is empty")) /\
  check_fields (map PStr (py_split s)) = Ok tt.
Proof.
  assert (Heq : data (PStr s) size rows columns pack =
                data (PList (map PStr (py_split s))) size rows columns pack).
  { unfold data at 1. destruct (String.eqb (py_strip s) EmptyString) eqn:Hb.
    - apply py_strip_blank in Hb. rewrite Hb. reflexivity.
    - rewrite py_split_strip. reflexivity. }
  split; [exact Heq|]. split.
  - intros Hs. rewrite Heq, Hs. reflexivity.
  - apply check_fields_words, py_split_words.
Qed.

Lemma py_split_word (w rest : string) :
  is_word w = true ->
  py_split w = [w] /\ py_split (w ++ " " ++ rest) = w :: py_split rest.
Proof.
  unfold is_word. destruct w as [|c w]; [discriminate|]. cbn [String.eqb negb andb].
  revert c. induction w as [|c' w IH]; intros c; cbn [unbroken].
  - intros H. apply andb_prop in H. destruct H as [Hc _]. apply negb_true_iff in Hc.
    split; cbn [py_split append]; rewrite Hc; reflexivity.
  - intros H. apply andb_prop in H. destruct H as [Hc H]. apply negb_true_iff in Hc.
    pose proof H as H'. apply andb_prop in H'. destruct H' as [Hc' _].
    apply negb_true_iff in Hc'.
    destruct (IH c' H) as [IH1 IH2].
    split.
    + change (py_split (String c (String c' w))) with
        (if py_isspace c then py_split (String c' w)
         else if py_isspace c' then String c EmptyString :: py_split (String c' w)
              else match py_split (String c' w) with
                   | w0 :: ws => String c w0 :: ws
                   | [] => [String c EmptyString]
                   end).
      rewrite Hc, Hc', IH1. reflexivity.
    + change (py_split (String c (String c' w) ++ " " ++ rest)) with
        (if py_isspace c then py_split (String c' w ++ " " ++ rest)
         else if py_isspace c'
              then String c EmptyString :: py_split (String c' w ++ " " ++ rest)
              else match py_split (String c' w ++ " " ++ rest) with
                   | w0 :: ws => String c w0 :: ws
                   | [] => [String c EmptyString]
                   end).
      rewrite Hc, Hc', IH2. reflexivity.
Qed.

Lemma py_split_join (names : list string) :
  forallb is_word names = true -> py_split (py_join " " names) = names.
Proof.
  induction names as [|w ws IH]; [reflexivity|]. cbn [forallb].
  intros H. apply andb_prop in H. destruct H as [Hw Hws].
  destruct ws as [|w' ws'].
  - cbn [py_join]. apply (py_split_word w EmptyString Hw).
  - change (py_join " " (w :: w' :: ws')) with (w ++ " " ++ py_join " " (w' :: ws')).
    destruct (py_split_word w (py_join " " (w' :: ws')) Hw) as [_ ->].
    rewrite (IH Hws). reflexivity.
Qed.

(** X22. Names that are words, joined by single spaces, are read back one
    by one: [data] called with the joined string does what it does with
    the list of names. *)
Theorem data_joined_names (names : list string) (size rows columns pack : pyval) :
  forallb is_word names = true ->
  data (PStr (py_join " " names)) size rows columns pack =
  data (PList (map PStr names)) size rows columns pack.
Proof.
  intros Hw. unfold data at 1.
  destruct (String.eqb (py_strip (py_join " " names)) EmptyString) eqn:Hb.
  - apply py_strip_blank in Hb. rewrite (py_split_join names Hw) in Hb. subst names.
    reflexivity.
  - rewrite py_split_strip, (py_split_join names Hw). reflexivity.
Qed.

Lemma data_joined_names_witness :
  data (PStr "donut price") (PInt 0) PNone PNone (PBool false) =
  data (PList [PStr "donut"; PStr "price"]) (PInt 0) PNone PNone (PBool false).
Proof.
  exact (data_joined_names ["donut"; "price"] (PInt 0) PNone PNone (PBool false) eq_refl).
Defined.

Lemma check_fields_names (fields : list pyval) :
  check_fields fields = Ok tt ->
  Forall (fun x => exists s, x = PStr s /\ s <> EmptyString) fields.
Proof.
  induction fields as [|x fields IH]; [constructor|]. cbn [check_fields].
  destruct x as [ |b|n|s|xs|xs|kvs|f n d|r]; try discriminate.
  destruct (String.eqb s EmptyString) eqn:Hs; [discriminate|].
  intros H. constructor; [|exact (IH H)].
  exists s. split; [reflexivity|]. apply String.eqb_neq, Hs.
Qed.

(** X23. A placeholder that [data] returns is well formed: its fields are
    a list or a tuple, not empty, of strings that are not empty; its size
    is the integer given and its initial data the rows given, which are a
    list or a mapping unless they are falsy; and [pack] was falsy. *)
Theorem data_returns_sound_placeholder
  (fields size rows columns pack f : pyval) (n : Z) (d : pyval) :
  data fields size rows columns pack = Ok (PData f n d) ->
  _is_list f = true /\ seq_items f <> [] /\
  Forall (fun x => exists s, x = PStr s /\ s <> EmptyString) (seq_items f) /\
  size = PInt n /\ d = rows /\ truthy pack = false /\
  (truthy rows = true -> is_list rows || is_dict rows = true).
Proof.
  unfold data.
  set (fs := match fields with
             | PStr s =>
                 if String.eqb (py_strip s) EmptyString
                 then Raise (ValueError "fields is empty")
                 else Ok (PList (map PStr (py_split (py_strip s))))
             | _ => Ok fields
             end).
  destruct fs as [f0|e]; cbn [rbind]; [|discriminate].
  destruct (_is_list f0) eqn:Hl; cbn [negb]; [|discriminate].
  destruct (seq_items f0) as [|x xs] eqn:Hi; [discriminate|]. cbn [length Nat.eqb].
  destruct (check_fields (x :: xs)) as [[]|e] eqn:Hc; cbn [rbind]; [|discriminate].
  destruct (truthy pack) eqn:Hp.
  { destruct (truthy rows).
    - destruct (negb (is_list rows)); [discriminate|].
      destruct (marshal _); discriminate.
    - destruct (truthy columns); [|discriminate].
      destruct (negb (is_list columns)); [discriminate|].
      destruct (marshal _); discriminate. }
  destruct (truthy rows) eqn:Hr.
  - destruct (is_list rows || is_dict rows) eqn:Hk; cbn [negb rbind]; [|discriminate].
    destruct size; try discriminate. intros [= <- <- <-].
    rewrite Hl, Hi. repeat split; try discriminate; try assumption.
    apply check_fields_names, Hc.
  - cbn [rbind]. destruct size; try discriminate. intros [= <- <- <-].
    rewrite Hl, Hi. repeat split; try discriminate; try assumption.
    apply check_fields_names, Hc.
Qed.

Lemma data_returns_sound_placeholder_witness :
  _is_list (PList [PStr "a"; PStr "b"]) = true /\
  seq_items (PList [PStr "a"; PStr "b"]) <> [] /\
  Forall (fun x => exists s, x = PStr s /\ s <> EmptyString)
    (seq_items (PList [PStr "a"; PStr "b"])) /\
  PInt (-5) = PInt (-5) /\ PNone = PNone /\ truthy (PBool false) = false /\
  (truthy PNone = true -> is_list PNone || is_dict PNone = true).
Proof.
  exact (data_returns_sound_placeholder (PStr " a  b ") (PInt (-5)) PNone PNone
           (PBool false) (PList [PStr "a"; PStr "b"]) (-5) PNone eq_refl).
Defined.

(** X24. With [pack] truthy and rows that are a non-empty list without
    objects, [data] ignores the size and the columns and returns the text
    [rows:] followed by a text that unmarshals to the pair of the names
    and the rows, as lists. *)
Theorem data_packs_rows (names : list string) (size columns pack : pyval)
  (rows : list pyval) :
  names <> [] -> Forall (fun w => w <> EmptyString) names ->
  truthy pack = true -> rows <> [] -> forallb plain rows = true ->
  exists s,
    data (PList (map PStr names)) size (PList rows) columns pack =
    Ok (PStr ("rows:" ++ s)) /\
    unmarshal s = Ok (PList [PList (map PStr names); PList (map _dump rows)]).
Proof.
  intros Hn Hw Hp Hr Hpl.
  assert (Hplain : plain (PTuple [PList (map PStr names); PList rows]) = true).
  { assert (Hnames : forallb plain (map PStr names) = true).
    { clear. induction names as [|w ws IH]; [reflexivity|exact IH]. }
    cbn [plain forallb]. rewrite Hnames, Hpl. reflexivity. }
  pose proof (dump_plain _ Hplain) as Hj.
  destruct (json_value_roundtrips _ Hj) as (s & Hs & Hrest).
  assert (Hd : _dump (PTuple [PList (map PStr names); PList rows]) =
               PList [PList (map PStr names); PList (map _dump rows)]).
  { cbn [_dump map]. do 3 f_equal. clear. induction names as [|w ws IH]; [reflexivity|].
    cbn [map _dump]. rewrite IH. reflexivity. }
  exists s. split.
  - unfold data. cbn [rbind _is_list negb seq_items].
    destruct names as [|w ws]; [contradiction|]. cbn [map length Nat.eqb].
    change (PStr w :: map PStr ws) with (map PStr (w :: ws)).
    rewrite (check_fields_words _ Hw). cbn [rbind]. rewrite Hp.
    destruct rows as [|r rs]; [contradiction|]. cbn [truthy is_list negb].
    unfold marshal. rewrite <- (dumps_dump _ Hplain), Hs. reflexivity.
  - rewrite <- Hd. apply loads_roundtrips; [exists s; split; assumption|exact Hs].
Qed.

Lemma data_packs_rows_witness :
  exists s,
    data (PList (map PStr ["a"; "b"])) PNone (PList [PTuple [PInt 1; PStr "x"]])
      (PStr "ignored") (PBool true) = Ok (PStr ("rows:" ++ s)) /\
    unmarshal s =
    Ok (PList [PList (map PStr ["a"; "b"]);
               PList (map _dump [PTuple [PInt 1; PStr "x"]])]).
Proof.
  apply (data_packs_rows ["a"; "b"] PNone (PStr "ignored") (PBool true)
           [PTuple [PInt 1; PStr "x"]]).
  - discriminate.
  - repeat constructor; discriminate.
  - reflexivity.
  - discriminate.
  - reflexivity.
Defined.

(** ** A page from start to end *)

Lemma plain_no_data (props : list (string * pyval)) :
  forallb (fun kv => plain (snd kv)) props = true -> data_props props = [].
Proof.
  unfold data_props. induction props as [|[k v] props IH]; [reflexivity|].
  cbn [forallb filter snd]. intros H. apply andb_prop in H. destruct H as [Hv H].
  destruct v; try discriminate Hv; cbn [is_Data]; exact (IH H).
Qed.

(** X25. The script [page = site[url]; page[key] = card; page.save()], for
    a card that is a mapping, or dumps to one, without objects: one request
    leaves, to the hub address followed by the url; its text unmarshals to
    the single Add-card operation, the key under [k] and the properties
    under [d]; and the page is left as [site[url]] gave it. *)
Theorem add_then_save
  (http : request -> net_result (Z * string)) (c : _Config) (u key : string)
  (card : pyval) (props : list (string * pyval)) :
  card_props card props -> plain (PDict props) = true ->
  exists d r,
    Page.save http c (snd (PageBase.__setitem__ (PStr key) card (Site.__getitem__ u))) [] =
    (r, Site.__getitem__ u, [((hub_address c ++ u)%string, d)]) /\
    unmarshal d =
    Ok (PDict [("d", PList [PDict [("k", PStr key); ("d", _dump (PDict props))]])]) /\
    (forall text, http (hub_address c ++ u, d) = NetOk (200, text) -> r = NetOk tt).
Proof.
  intros Hcard Hplain.
  pose proof Hplain as Hp. cbn [plain] in Hp. apply andb_prop in Hp.
  destruct Hp as [_ Hvals].
  pose proof (plain_no_data props Hvals) as Hnd.
  assert (Hadd : PageBase.add (PStr key) card (Site.__getitem__ u) =
                 (Ok (mkRef key),
                  mkPage u [PDict [("k", PStr key); ("d", PDict props)]])).
  { rewrite (add_runs key card props props (Site.__getitem__ u) Hcard).
    - unfold data_keys. rewrite Hnd. reflexivity.
    - unfold data_keys. rewrite Hnd. reflexivity. }
  unfold PageBase.__setitem__, bind. rewrite Hadd. cbn [ret snd].
  destruct (plain_buffer_text [PDict [("k", PStr key); ("d", PDict props)]])
    as (d & Hd & Hu).
  { cbn [forallb plain map fst nodup_keys existsb String.eqb Ascii.eqb Bool.eqb negb andb snd orb].
    cbn [plain] in Hplain. rewrite Hplain. reflexivity. }
  pose proof (diff_text (mkPage u [PDict [("k", PStr key); ("d", PDict props)]]) d
                ltac:(discriminate) Hd) as Hdiff.
  pose proof (marshal_mapping_truthy _ _ Hd) as Ht.
  exists d. unfold Page.save. rewrite Hdiff, Ht. unfold Site._save. cbn [url app].
  eexists. split; [reflexivity|]. split; [exact Hu|].
  intros text ->. reflexivity.
Qed.

Lemma add_then_save_witness :
  exists d r,
    Page.save (fun _ => NetOk (200, "")) (mkConfig "" "" "http://hub" "" "" 3)
      (snd (PageBase.__setitem__ (PStr "example")
              (PObj (Some (PDict [("box", PStr "1 1 4 -1")]))) (Site.__getitem__ "/demo")))
      [] =
    (r, Site.__getitem__ "/demo", [("http://hub/demo", d)]) /\
    unmarshal d =
    Ok (PDict [("d", PList [PDict [("k", PStr "example");
                                   ("d", PDict [("box", PStr "1 1 4 -1")])]])]) /\
    (forall text, (fun _ : request => NetOk (200, "")) ("http://hub/demo", d) =
                  NetOk (200, text) -> r = NetOk tt).
Proof.
  apply (add_then_save (fun _ => NetOk (200, "")) (mkConfig "" "" "http://hub" "" "" 3)
           "/demo" "example" (PObj (Some (PDict [("box", PStr "1 1 4 -1")])))
           [("box", PStr "1 1 4 -1")]).
  - right. repeat split.
  - reflexivity.
Defined.

(** ** The shapes of the operations *)

(** X26. The keys of a tracked operation tell what mutation it came from:
    a card added has [k] and [d], and [b] after them when it brought
    buffers; an assignment has [k] and [v], or the kind of a placeholder
    and then [k] when the value dumped to one; a deletion has [k] alone; a
    dropped page is the empty mapping. *)
Theorem operation_shapes (m : mutation) (op : pyval) :
  tracks m op ->
  exists kvs,
    op = PDict kvs /\
    match m with
    | MAdd _ _ => map fst kvs = ["k"; "d"] \/ map fst kvs = ["k"; "d"; "b"]
    | MSetAttr _ _ _ | MSetItem _ _ _ =>
        map fst kvs = ["k"; "v"] \/
        exists kind, (kind = "m" \/ kind = "f" \/ kind = "c") /\ map fst kvs = [kind; "k"]
    | MDelete _ => map fst kvs = ["k"]
    | MDrop => kvs = []
    end.
Proof.
  intros Ht. specialize (Ht (mkPage EmptyString [])). cbn [url _changes app] in Ht.
  assert (Hset : forall self key value,
             Ref.__setitem__ self key value (mkPage EmptyString []) =
             (Ok tt, mkPage EmptyString [op]) ->
             exists kvs,
               op = PDict kvs /\
               (map fst kvs = ["k"; "v"] \/
                exists kind, (kind = "m" \/ kind = "f" \/ kind = "c") /\
                             map fst kvs = [kind; "k"])).
  { intros self key value. unfold Ref.__setitem__.
    destruct (is_Data value); [discriminate|].
    unfold bind, lift, _set_op, PageBase._track.
    destruct (_guard_key key) as [[]|e]; cbn [rbind]; [|discriminate].
    destruct (_dump value) as [ |b|n|s|xs|xs|kvs|f n d|r] eqn:Hd;
      try (intros [= <-]; eexists; split; [reflexivity|left; reflexivity]).
    unfold Data.dump.
    destruct (truthy d), (is_dict d), (n <? 0), (n =? 0); cbn [dict_set String.eqb];
      intros [= <-]; eexists; (split; [reflexivity|]); right; eexists;
      (split; [|reflexivity]); auto. }
  destruct m as [key card|ref key value|ref key value|key| ]; cbn [perform] in Ht.
  - unfold PageBase.__setitem__, bind, PageBase.add in Ht.
    destruct key as [ |b|n|s|xs|xs|kvs|f n d|r]; try discriminate Ht.
    destruct (if is_dict card then card else if _can_dump card then _dump card else PNone)
      as [ |b|n|s'|xs|xs|props|f n d|r]; try discriminate Ht.
    destruct (PageBase.scan_data props) as [data bufs].
    unfold bind, lift in Ht.
    destruct (PageBase.rename_data data props) as [props'|e]; [|discriminate Ht].
    destruct bufs as [|b bufs]; cbn in Ht; injection Ht as <-;
      eexists; (split; [reflexivity|]); [left|right]; reflexivity.
  - apply (Hset ref (PStr key) value). exact Ht.
  - apply (Hset ref key value). exact Ht.
  - unfold PageBase.__delitem__, PageBase._track in Ht. cbn in Ht. injection Ht as <-.
    eexists. split; reflexivity.
  - unfold PageBase.drop, PageBase._track in Ht. cbn in Ht. injection Ht as <-.
    eexists. split; reflexivity.
Qed.

Lemma operation_shapes_witness :
  exists kvs,
    PDict [("k", PStr "card x"); ("v", PInt 1)] = PDict kvs /\
    (map fst kvs = ["k"; "v"] \/
     exists kind, (kind = "m" \/ kind = "f" \/ kind = "c") /\ map fst kvs = [kind; "k"]).
Proof.
  apply (operation_shapes (MSetAttr (mkRef "card") "x" (PInt 1))
           (PDict [("k", PStr "card x"); ("v", PInt 1)])).
  intros p. reflexivity.
Defined.

(** ** Texts and values *)

(** X27. Two JSON values with the same text are the same value: on the
    values [unmarshal] can give back, [marshal] is injective. *)
Theorem marshal_is_injective (x y : pyval) :
  json_value x = true -> json_value y = true -> marshal x = marshal y -> x = y.
Proof.
  intros Hx Hy Heq.
  destruct (json_value_roundtrips x Hx) as (s & Hs & Hrx).
  destruct (json_value_roundtrips y Hy) as (t & Ht & Hry).
  unfold marshal in Heq. rewrite Hs, Ht in Heq. injection Heq as <-.
  pose proof (loads_roundtrips x s (ex_intro _ s (conj Hs Hrx)) Hs) as Hux.
  pose proof (loads_roundtrips y s (ex_intro _ s (conj Ht Hry)) Ht) as Huy.
  rewrite Hux in Huy. injection Huy as ->. reflexivity.
Qed.

Lemma marshal_is_injective_witness :
  PList [PInt 1; PStr "a"] = PList [PInt 1; PStr "a"].
Proof.
  exact (marshal_is_injective (PList [PInt 1; PStr "a"]) (PList [PInt 1; PStr "a"])
           eq_refl eq_refl eq_refl).
Defined.

(** * Shared mappings *)

(** ** The script of two cards that share a mapping *)

(** [d1 = {x: Data}; card = {o: d1}; page.add(a, card); page.add(b, d1)]:
    the second [add] rewrites [d1] where it stands, so the operation of the
    first card, which holds [d1], has the marker too, and the flush
    succeeds. *)
Example shared_mapping_is_rewritten :
  let D := Shared.OData (Shared.OList [Shared.OStr "f"]) 2 Shared.ONone in
  let h := [[("x", D)]] in
  let card := Shared.ODict [("o", Shared.OAt 0%nat)] in
  let w0 := (Shared.PageBase.__init__ "/p", h) in
  let w2 := snd (Shared.perform_all
                   [Shared.MAdd (Shared.OStr "a") card;
                    Shared.MAdd (Shared.OStr "b") (Shared.OAt 0%nat)] w0) in
  snd w2 = [[("~x", Shared.OInt 0)]] /\
  fst (Shared.PageBase._diff w2) =
  Ok (Some (sq "{'d':[{'k':'a','d':{'o':{'~x':0}}},{'k':'b','d':{'~x':0},'b':[{'f':{'f':['f'],'n':2}}]}]}")).
Proof. split; reflexivity. Qed.

(** ** The walks through the store *)

Lemma snapshot_eq (fuel : nat) (h : Shared.store) (path : list Shared.addr)
  (v : Shared.obj) :
  Shared.snapshot (S fuel) h path v =
  match v with
  | Shared.ONone => Ok PNone
  | Shared.OBool b => Ok (PBool b)
  | Shared.OInt n => Ok (PInt n)
  | Shared.OStr s => Ok (PStr s)
  | Shared.OList xs =>
      ts <- Shared.each (Shared.snapshot (S fuel) h path) xs ;; Ok (PList ts)
  | Shared.OTuple xs =>
      ts <- Shared.each (Shared.snapshot (S fuel) h path) xs ;; Ok (PTuple ts)
  | Shared.ODict kvs =>
      kts <- Shared.each_value (Shared.snapshot (S fuel) h path) kvs ;; Ok (PDict kts)
  | Shared.OAt a =>
      if existsb (Nat.eqb a) path
      then Raise (ValueError "Circular reference detected")
      else kts <- Shared.each_value (Shared.snapshot fuel h (a :: path))
                    (Shared.cell h a) ;;
           Ok (PDict kts)
  | Shared.OData _ _ _ => Raise (TypeError "Object of type Data is not JSON serializable")
  | Shared.OObj _ => Raise (TypeError "Object is not JSON serializable")
  end.
Proof. destruct v; reflexivity. Qed.

Lemma dump_eq (fuel : nat) (h : Shared.store) (path : list Shared.addr)
  (xs : Shared.obj) :
  Shared._dump (S fuel) h path xs =
  match xs with
  | Shared.OList l | Shared.OTuple l =>
      l' <- Shared.each (Shared._dump (S fuel) h path) l ;; Ok (Shared.OList l')
  | Shared.ODict kvs =>
      kvs' <- Shared.each_value (Shared._dump (S fuel) h path) kvs ;;
      Ok (Shared.ODict kvs')
  | Shared.OAt a =>
      if existsb (Nat.eqb a) path
      then Raise (OutsideModel "recursion without end")
      else kvs' <- Shared.each_value (Shared._dump fuel h (a :: path))
                     (Shared.cell h a) ;;
           Ok (Shared.ODict kvs')
  | Shared.OData f n d => Ok (Shared.Data.dump h f n d)
  | Shared.OObj (Some r) => Ok r
  | _ => Ok xs
  end.
Proof. destruct xs as [ | | | | | | | | |[r|]]; reflexivity. Qed.

(** What a comprehension raises, one of its elements raised. *)
Lemma each_raise {A B : Type} (f : A -> result B) (l : list A) (e : exn) :
  Shared.each f l = Raise e -> exists x, In x l /\ f x = Raise e.
Proof.
  induction l as [|x l IH]; cbn [Shared.each]; [discriminate|].
  destruct (f x) as [y|e'] eqn:Hx; cbn [rbind].
  - destruct (Shared.each f l) as [ys|e'']; cbn [rbind]; [discriminate|].
    intros [= ->]. destruct (IH eq_refl) as (x' & Hin & Hx'). exists x'.
    split; [right; exact Hin|exact Hx'].
  - intros [= ->]. exists x. split; [left; reflexivity|exact Hx].
Qed.

Lemma each_value_raise {A B : Type} (f : A -> result B) (kvs : list (string * A))
  (e : exn) :
  Shared.each_value f kvs = Raise e -> exists kv, In kv kvs /\ f (snd kv) = Raise e.
Proof.
  induction kvs as [|kv kvs IH]; cbn [Shared.each_value]; [discriminate|].
  destruct (f (snd kv)) as [y|e'] eqn:Hx; cbn [rbind].
  - destruct (Shared.each_value f kvs) as [ys|e'']; cbn [rbind]; [discriminate|].
    intros [= ->]. destruct (IH eq_refl) as (x' & Hin & Hx'). exists x'.
    split; [right; exact Hin|exact Hx'].
  - intros [= ->]. exists kv. split; [left; reflexivity|exact Hx].
Qed.

(** As many addresses as the store has, and no more, can be on a path. *)
Lemma path_length (h : Shared.store) (path : list Shared.addr) :
  NoDup path -> (forall a, In a path -> (a < length h)%nat) ->
  (length path <= length h)%nat.
Proof.
  intros Hnd Hin. rewrite <- (length_seq (length h) 0).
  apply NoDup_incl_length; [exact Hnd|].
  intros a Ha. apply in_seq. specialize (Hin a Ha). lia.
Qed.

Lemma mem_path (a : Shared.addr) (path : list Shared.addr) :
  existsb (Nat.eqb a) path = false -> ~ In a path.
Proof.
  intros H Hin. assert (existsb (Nat.eqb a) path = true); [|congruence].
  apply existsb_exists. exists a. split; [exact Hin|apply Nat.eqb_refl].
Qed.

Lemma cell_outside (h : Shared.store) (a : Shared.addr) :
  (length h <= a)%nat -> Shared.cell h a = [].
Proof. intros H. unfold Shared.cell. apply nth_overflow. exact H. Qed.

(** The walk of [json.dumps] never comes to the end of its fuel. *)
Lemma snapshot_in_fuel (h : Shared.store) (fuel : nat) :
  forall (path : list Shared.addr) (v : Shared.obj),
    NoDup path -> (forall a, In a path -> (a < length h)%nat) ->
    (length h < fuel + length path)%nat ->
    in_fuel (Shared.snapshot fuel h path v).
Proof.
  unfold in_fuel.
  induction fuel as [|fuel IH]; intros path v Hnd Hin Hlen.
  - pose proof (path_length h path Hnd Hin). lia.
  - induction v as [ |b|n|s|xs IHxs|xs IHxs|kvs IHkvs|a|f n d _ _| |r _]
      using Shared.obj_ind; rewrite snapshot_eq; try discriminate.
    + destruct (Shared.each _ xs) as [ts|e] eqn:He; cbn [rbind]; [discriminate|].
      intros [= ->]. apply each_raise in He. destruct He as (x & Hx & Hr).
      rewrite Forall_forall in IHxs. exact (IHxs x Hx Hr).
    + destruct (Shared.each _ xs) as [ts|e] eqn:He; cbn [rbind]; [discriminate|].
      intros [= ->]. apply each_raise in He. destruct He as (x & Hx & Hr).
      rewrite Forall_forall in IHxs. exact (IHxs x Hx Hr).
    + destruct (Shared.each_value _ kvs) as [ts|e] eqn:He; cbn [rbind]; [discriminate|].
      intros [= ->]. apply each_value_raise in He. destruct He as (x & Hx & Hr).
      rewrite Forall_forall in IHkvs. exact (IHkvs x Hx Hr).
    + destruct (existsb (Nat.eqb a) path) eqn:Hm; [discriminate|].
      destruct (Shared.each_value _ (Shared.cell h a)) as [ts|e] eqn:He; cbn [rbind];
        [discriminate|].
      intros [= ->]. apply each_value_raise in He. destruct He as (x & Hx & Hr).
      destruct (Nat.lt_ge_cases a (length h)) as [Ha|Ha].
      * revert Hr. apply IH.
        -- constructor; [apply mem_path, Hm|exact Hnd].
        -- intros a' [<-|Ha']; [exact Ha|exact (Hin a' Ha')].
        -- cbn [length]. lia.
      * rewrite (cell_outside h a Ha) in Hx. destruct Hx.
Qed.

(** Nor does the walk of [_dump]. *)
Lemma dump_in_fuel (h : Shared.store) (fuel : nat) :
  forall (path : list Shared.addr) (v : Shared.obj),
    NoDup path -> (forall a, In a path -> (a < length h)%nat) ->
    (length h < fuel + length path)%nat ->
    in_fuel (Shared._dump fuel h path v).
Proof.
  unfold in_fuel.
  induction fuel as [|fuel IH]; intros path v Hnd Hin Hlen.
  - pose proof (path_length h path Hnd Hin). lia.
  - induction v as [ |b|n|s|xs IHxs|xs IHxs|kvs IHkvs|a|f n d _ _| |r _]
      using Shared.obj_ind; rewrite dump_eq; try discriminate.
    + destruct (Shared.each _ xs) as [ts|e] eqn:He; cbn [rbind]; [discriminate|].
      intros [= ->]. apply each_raise in He. destruct He as (x & Hx & Hr).
      rewrite Forall_forall in IHxs. exact (IHxs x Hx Hr).
    + destruct (Shared.each _ xs) as [ts|e] eqn:He; cbn [rbind]; [discriminate|].
      intros [= ->]. apply each_raise in He. destruct He as (x & Hx & Hr).
      rewrite Forall_forall in IHxs. exact (IHxs x Hx Hr).
    + destruct (Shared.each_value _ kvs) as [ts|e] eqn:He; cbn [rbind]; [discriminate|].
      intros [= ->]. apply each_value_raise in He. destruct He as (x & Hx & Hr).
      rewrite Forall_forall in IHkvs. exact (IHkvs x Hx Hr).
    + destruct (existsb (Nat.eqb a) path) eqn:Hm; [discriminate|].
      destruct (Shared.each_value _ (Shared.cell h a)) as [ts|e] eqn:He; cbn [rbind];
        [discriminate|].
      intros [= ->]. apply each_value_raise in He. destruct He as (x & Hx & Hr).
      destruct (Nat.lt_ge_cases a (length h)) as [Ha|Ha].
      * revert Hr. apply IH.
        -- constructor; [apply mem_path, Hm|exact Hnd].
        -- intros a' [<-|Ha']; [exact Ha|exact (Hin a' Ha')].
        -- cbn [length]. lia.
      * rewrite (cell_outside h a Ha) in Hx. destruct Hx.
Qed.

Lemma tree_in_fuel (h : Shared.store) (v : Shared.obj) : in_fuel (Shared.tree h v).
Proof.
  unfold Shared.tree. apply snapshot_in_fuel; [constructor|intros a []|cbn; lia].
Qed.

(** ** Values without shared mappings *)

Lemma unshared_is_dict (v : pyval) : Shared.is_dict (Shared.unshared v) = is_dict v.
Proof. destruct v as [ | | | | | | | |[r|]]; reflexivity. Qed.

Lemma unshared_is_Data (v : pyval) : Shared.is_Data (Shared.unshared v) = is_Data v.
Proof. destruct v as [ | | | | | | | |[r|]]; reflexivity. Qed.

Lemma unshared_can_dump (v : pyval) :
  Shared._can_dump (Shared.unshared v) = _can_dump v.
Proof. destruct v as [ | | | | | | | |[r|]]; reflexivity. Qed.

Lemma unshared_truthy (h : Shared.store) (v : pyval) :
  Shared.truthy h (Shared.unshared v) = truthy v.
Proof.
  destruct v as [ |b|n|s|xs|xs|kvs|f n d|[r|]]; try reflexivity;
    try (destruct xs; reflexivity). destruct kvs; reflexivity.
Qed.

Lemma unshared_guard_key (k : pyval) :
  _guard_key (Shared.shallow (Shared.unshared k)) = _guard_key k.
Proof. destruct k as [ | | | | | | | |[r|]]; reflexivity. Qed.

Lemma unshared_py_str (k : pyval) :
  py_str (Shared.shallow (Shared.unshared k)) = py_str k.
Proof. destruct k as [ | | | | | | | |[r|]]; reflexivity. Qed.

Lemma unshared_Data_dump (h : Shared.store) (f : pyval) (n : Z) (d : pyval) :
  Shared.Data.dump h (Shared.unshared f) n (Shared.unshared d) =
  Shared.unshared (Data.dump f n d).
Proof.
  unfold Shared.Data.dump, Data.dump.
  rewrite unshared_truthy, unshared_is_dict.
  destruct (truthy d), (is_dict d), (n <? 0), (n =? 0); reflexivity.
Qed.

(** [_dump] on a tree does what the [_dump] of the first part does. *)
Lemma unshared_dump (fuel : nat) (h : Shared.store) (path : list Shared.addr)
  (v : pyval) :
  Shared._dump (S fuel) h path (Shared.unshared v) = Ok (Shared.unshared (_dump v)).
Proof.
  induction v as [ |b|n|s|xs IH|xs IH|kvs IH|f n d _ _| |r _] using pyval_ind;
    rewrite dump_eq; cbn [Shared.unshared _dump]; try reflexivity.
  - assert (H : Shared.each (Shared._dump (S fuel) h path) (map Shared.unshared xs) =
                Ok (map Shared.unshared (map _dump xs))).
    { induction IH as [|x xs Hx _ IHxs]; [reflexivity|].
      cbn [map Shared.each]. rewrite Hx, IHxs. reflexivity. }
    rewrite H. reflexivity.
  - assert (H : Shared.each (Shared._dump (S fuel) h path) (map Shared.unshared xs) =
                Ok (map Shared.unshared (map _dump xs))).
    { induction IH as [|x xs Hx _ IHxs]; [reflexivity|].
      cbn [map Shared.each]. rewrite Hx, IHxs. reflexivity. }
    rewrite H. reflexivity.
  - assert (H : Shared.each_value (Shared._dump (S fuel) h path)
                  (map (fun kv => (fst kv, Shared.unshared (snd kv))) kvs) =
                Ok (map (fun kv => (fst kv, Shared.unshared (snd kv)))
                      (map (fun kv => (fst kv, _dump (snd kv))) kvs))).
    { induction IH as [|kv kvs Hx _ IHkvs]; [reflexivity|].
      cbn [map Shared.each_value fst snd]. rewrite Hx, IHkvs. reflexivity. }
    rewrite H. reflexivity.
  - rewrite unshared_Data_dump. reflexivity.
Qed.

(** The walk of [json.dumps] over a tree: the tree itself when it holds no
    object, and otherwise what [json.dumps] raises. *)
Lemma unshared_snapshot (fuel : nat) (h : Shared.store) (path : list Shared.addr)
  (v : pyval) :
  match Shared.snapshot (S fuel) h path (Shared.unshared v) with
  | Ok t => t = v /\ holds_object v = false
  | Raise e => Json.dumps v = Raise e
  end.
Proof.
  assert (Hseq : forall xs,
             Forall (fun v =>
                       match Shared.snapshot (S fuel) h path (Shared.unshared v) with
                       | Ok t => t = v /\ holds_object v = false
                       | Raise e => Json.dumps v = Raise e
                       end) xs ->
             match Shared.each (Shared.snapshot (S fuel) h path)
                     (map Shared.unshared xs) with
             | Ok ts => ts = xs /\ existsb holds_object xs = false
             | Raise e => Json.encode_items Json.dumps xs = Raise e
             end).
  { induction 1 as [|x xs Hx _ IH]; [split; reflexivity|].
    cbn [map Shared.each Json.encode_items existsb].
    destruct (Shared.snapshot (S fuel) h path (Shared.unshared x)) as [t|e];
      cbn [rbind].
    - destruct Hx as [-> Hx].
      destruct (dumps_cases x) as [[_ [s Hs]]|[Hb _]]; [|congruence].
      rewrite Hs. cbn [rbind].
      destruct (Shared.each _ (map Shared.unshared xs)) as [ts|e]; cbn [rbind].
      + destruct IH as [-> IH]. rewrite Hx, IH. split; reflexivity.
      + destruct xs as [|y xs]; [discriminate IH|]. rewrite IH. reflexivity.
    - rewrite Hx. reflexivity. }
  induction v as [ |b|n|s|xs IH|xs IH|kvs IH|f n d _ _| |r _] using pyval_ind;
    rewrite snapshot_eq; cbn [Shared.unshared]; try (split; reflexivity);
    try reflexivity.
  - specialize (Hseq xs IH).
    destruct (Shared.each _ (map Shared.unshared xs)) as [ts|e]; cbn [rbind].
    + destruct Hseq as [-> H]. split; [reflexivity|exact H].
    + cbn [Json.dumps]. rewrite Hseq. reflexivity.
  - specialize (Hseq xs IH).
    destruct (Shared.each _ (map Shared.unshared xs)) as [ts|e]; cbn [rbind].
    + destruct Hseq as [-> H]. split; [reflexivity|exact H].
    + cbn [Json.dumps]. rewrite Hseq. reflexivity.
  - assert (Hkv :
             match Shared.each_value (Shared.snapshot (S fuel) h path)
                     (map (fun kv => (fst kv, Shared.unshared (snd kv))) kvs) with
             | Ok kts => kts = kvs /\
                         existsb (fun kv => holds_object (snd kv)) kvs = false
             | Raise e =>
                 Json.encode_items
                   (fun kv : string * pyval =>
                      t <- Json.dumps (snd kv) ;;
                      Ok (Json.encode_str (fst kv) ++ ":" ++ t)) kvs = Raise e
             end).
    { induction IH as [|kv kvs Hx _ IHkvs]; [split; reflexivity|].
      cbn [map Shared.each_value Json.encode_items existsb fst snd].
      destruct (Shared.snapshot (S fuel) h path (Shared.unshared (snd kv))) as [t|e];
        cbn [rbind].
      - destruct Hx as [-> Hx].
        destruct (dumps_cases (snd kv)) as [[_ [s Hs]]|[Hb _]]; [|congruence].
        rewrite Hs. cbn [rbind].
        destruct (Shared.each_value _ (map _ kvs)) as [ts|e]; cbn [rbind].
        + destruct IHkvs as [-> IHkvs]. rewrite Hx, IHkvs.
          rewrite <- surjective_pairing. split; reflexivity.
        + destruct kvs as [|y kvs]; [discriminate IHkvs|]. rewrite IHkvs. reflexivity.
      - rewrite Hx. reflexivity. }
    destruct (Shared.each_value _ (map _ kvs)) as [ts|e]; cbn [rbind].
    + destruct Hkv as [-> H]. split; [reflexivity|exact H].
    + cbn [Json.dumps]. rewrite Hkv. reflexivity.
Qed.

(** [marshal] on a tree is the [marshal] of the first part. *)
Lemma unshared_marshal (h : Shared.store) (v : pyval) :
  Shared.marshal h (Shared.unshared v) = marshal v.
Proof.
  unfold Shared.marshal, Shared.tree.
  pose proof (unshared_snapshot (length h) h [] v) as H.
  destruct (Shared.snapshot (S (length h)) h [] (Shared.unshared v)) as [t|e];
    cbn [rbind].
  - destruct H as [-> _]. reflexivity.
  - unfold marshal. rewrite H. reflexivity.
Qed.

(** ** Pages without shared mappings *)

Lemma unshared_dict_set (k : string) (v : pyval) (d : list (string * pyval)) :
  Shared.dict_set k (Shared.unshared v)
    (map (fun kv => (fst kv, Shared.unshared (snd kv))) d) =
  map (fun kv => (fst kv, Shared.unshared (snd kv))) (dict_set k v d).
Proof.
  induction d as [|[k' v'] d IH]; [reflexivity|].
  cbn [map dict_set Shared.dict_set fst snd].
  destruct (String.eqb k' k); [reflexivity|]. rewrite IH. reflexivity.
Qed.

Lemma unshared_dict_del (k : string) (d : list (string * pyval)) :
  Shared.dict_del k (map (fun kv => (fst kv, Shared.unshared (snd kv))) d) =
  match dict_del k d with
  | Ok r => Ok (map (fun kv => (fst kv, Shared.unshared (snd kv))) r)
  | Raise e => Raise e
  end.
Proof.
  induction d as [|[k' v'] d IH]; [reflexivity|].
  cbn [map dict_del Shared.dict_del fst snd].
  destruct (String.eqb k' k); [reflexivity|]. rewrite IH.
  destruct (dict_del k d); reflexivity.
Qed.

Lemma unshared_rename_data (data : list (string * Z)) :
  forall props : list (string * pyval),
    Shared.PageBase.rename_data data
      (map (fun kv => (fst kv, Shared.unshared (snd kv))) props) =
    match PageBase.rename_data data props with
    | Ok r => Ok (map (fun kv => (fst kv, Shared.unshared (snd kv))) r)
    | Raise e => Raise e
    end.
Proof.
  induction data as [|[k i] data IH]; intros props; [reflexivity|].
  cbn [Shared.PageBase.rename_data PageBase.rename_data].
  rewrite unshared_dict_del. destruct (dict_del k props) as [r|e]; cbn [rbind];
    [|reflexivity].
  change (Shared.OInt i) with (Shared.unshared (PInt i)).
  rewrite unshared_dict_set. apply IH.
Qed.

Lemma unshared_scan_fold (h : Shared.store) (props : list (string * pyval)) :
  forall (data : list (string * Z)) (bufs : list pyval),
    fold_left
      (fun (acc : list (string * Z) * list Shared.obj) (kv : string * Shared.obj) =>
         let (data, bufs) := acc in
         match snd kv with
         | Shared.OData f n d =>
             ((data ++ [(fst kv, Z.of_nat (length bufs))])%list,
              (bufs ++ [Shared.Data.dump h f n d])%list)
         | _ => (data, bufs)
         end)
      (map (fun kv => (fst kv, Shared.unshared (snd kv))) props)
      (data, map Shared.unshared bufs) =
    (let r := fold_left
                (fun (acc : list (string * Z) * list pyval) (kv : string * pyval) =>
                   let (data, bufs) := acc in
                   match snd kv with
                   | PData f n d =>
                       ((data ++ [(fst kv, Z.of_nat (length bufs))])%list,
                        (bufs ++ [Data.dump f n d])%list)
                   | _ => (data, bufs)
                   end)
                props (data, bufs) in
     (fst r, map Shared.unshared (snd r))).
Proof.
  induction props as [|[k v] props IH]; intros data bufs; [reflexivity|].
  cbn [map fold_left fst snd].
  destruct v as [ |b|n|s|xs|xs|kvs|f n d|[r|]]; cbn [Shared.unshared]; try apply IH.
  rewrite unshared_Data_dump, length_map.
  change [Shared.unshared (Data.dump f n d)] with (map Shared.unshared [Data.dump f n d]).
  rewrite <- map_app. apply IH.
Qed.

Lemma unshared_scan_data (h : Shared.store) (props : list (string * pyval)) :
  Shared.PageBase.scan_data h (map (fun kv => (fst kv, Shared.unshared (snd kv))) props) =
  (fst (PageBase.scan_data props), map Shared.unshared (snd (PageBase.scan_data props))).
Proof. exact (unshared_scan_fold h props [] []). Qed.

(** [add] on a card that shares nothing is the [add] of the first part,
    and leaves the store alone. *)
Lemma add_unshared (key card : pyval) (p : PageBase) (h : Shared.store) :
  Shared.PageBase.add (Shared.unshared key) (Shared.unshared card) (unshared_page p, h) =
  (fst (PageBase.add key card p), (unshared_page (snd (PageBase.add key card p)), h)).
Proof.
  unfold Shared.PageBase.add, PageBase.add.
  destruct key as [ |b|n|k|xs|xs|kvs|f n d|[r|]]; try reflexivity.
  cbn [Shared.unshared].
  rewrite unshared_is_dict, unshared_can_dump.
  assert (Hprops :
            (if is_dict card then Ok (Shared.unshared card)
             else if _can_dump card
                  then Shared._dump (S (length h)) h [] (Shared.unshared card)
                  else Ok Shared.ONone) =
            Ok (Shared.unshared (if is_dict card then card
                                 else if _can_dump card then _dump card else PNone))).
  { destruct (is_dict card); [reflexivity|]. destruct (_can_dump card); [|reflexivity].
    apply unshared_dump. }
  rewrite Hprops.
  destruct (if is_dict card then card else if _can_dump card then _dump card else PNone)
    as [ |b|n|s|xs|xs|props|f n d|[r|]]; try reflexivity.
  cbn [Shared.unshared Shared.is_dict Shared.items].
  rewrite unshared_scan_data.
  destruct (PageBase.scan_data props) as [data bufs]. cbn [fst snd].
  unfold bind, lift. rewrite unshared_rename_data.
  destruct (PageBase.rename_data data props) as [props'|e]; [|reflexivity].
  destruct bufs as [|b bufs]; cbn [map]; unfold PageBase._track, ret, unshared_page;
    cbn [url _changes fst snd]; rewrite map_app; reflexivity.
Qed.

Lemma setitem_unshared (self : Ref) (key value : pyval) (p : PageBase)
  (h : Shared.store) :
  Shared.Ref.__setitem__ self (Shared.unshared key) (Shared.unshared value)
    (unshared_page p, h) =
  (fst (Ref.__setitem__ self key value p),
   (unshared_page (snd (Ref.__setitem__ self key value p)), h)).
Proof.
  unfold Shared.Ref.__setitem__, Ref.__setitem__.
  rewrite unshared_is_Data. destruct (is_Data value); [reflexivity|].
  unfold Shared.bind, Shared.reading, bind, lift. cbn [snd].
  rewrite unshared_dump.
  unfold Shared._set_op, _set_op. rewrite unshared_guard_key, unshared_py_str.
  destruct (_guard_key key) as [[]|e]; cbn [rbind]; [|reflexivity].
  destruct (_dump value) as [ |b|n|s|xs|xs|kvs|f n d|[r|]] eqn:Hd;
    cbn [Shared.unshared]; unfold Shared.PageBase._track, PageBase._track, unshared_page;
    cbn [fst snd url _changes Shared.url Shared._changes]; rewrite ?map_app;
    try reflexivity.
  rewrite unshared_Data_dump.
  unfold Data.dump. destruct (truthy d), (is_dict d), (n <? 0), (n =? 0);
    cbn; rewrite map_app; reflexivity.
Qed.

(** Every mutation on trees is the mutation of the first part. *)
Lemma perform_unshared (m : mutation) (p : PageBase) (h : Shared.store) :
  Shared.perform (unshared_mutation m) (unshared_page p, h) =
  (fst (perform m p), (unshared_page (snd (perform m p)), h)).
Proof.
  destruct m as [key card|ref key value|ref key value|key| ];
    cbn [unshared_mutation Shared.perform perform].
  - unfold Shared.PageBase.__setitem__, PageBase.__setitem__, Shared.bind, bind.
    rewrite add_unshared. destruct (PageBase.add key card p) as [[r|e] p']; reflexivity.
  - unfold Shared.Ref.__setattr__. rewrite setattr_is_setitem.
    apply (setitem_unshared ref (PStr key) value).
  - apply setitem_unshared.
  - unfold Shared.PageBase.__delitem__, PageBase.__delitem__, Shared.PageBase._track,
      PageBase._track, unshared_page. cbn. rewrite map_app. reflexivity.
  - unfold Shared.PageBase.drop, PageBase.drop, Shared.PageBase._track,
      PageBase._track, unshared_page. cbn. rewrite map_app. reflexivity.
Qed.

Lemma perform_all_unshared (ms : list mutation) (p : PageBase) (h : Shared.store) :
  Shared.perform_all (map unshared_mutation ms) (unshared_page p, h) =
  (fst (perform_all ms p), (unshared_page (snd (perform_all ms p)), h)).
Proof.
  revert p. induction ms as [|m ms IH]; intros p; [reflexivity|].
  cbn [map Shared.perform_all perform_all]. unfold Shared.bind, bind.
  rewrite perform_unshared. destruct (perform m p) as [[[]|e] p']; cbn [fst snd];
    [apply IH|reflexivity].
Qed.

(** And so is the flush. *)
Lemma diff_unshared (p : PageBase) (h : Shared.store) :
  Shared.PageBase._diff (unshared_page p, h) =
  (fst (PageBase._diff p), (unshared_page (snd (PageBase._diff p)), h)).
Proof.
  unfold Shared.PageBase._diff, PageBase._diff, unshared_page.
  cbn [Shared._changes Shared.url fst snd].
  destruct (_changes p) as [|c cs] eqn:Hc; [cbn; rewrite Hc; reflexivity|].
  change (Shared.ODict [("d", Shared.OList (map Shared.unshared (c :: cs)))])
    with (Shared.unshared (PDict [("d", PList (c :: cs))])).
  cbn [map]. rewrite unshared_marshal.
  destruct (marshal (PDict [("d", PList (c :: cs))])) as [d|e]; cbn; [reflexivity|].
  rewrite Hc. reflexivity.
Qed.

(** ** Distinct names are kept *)

Lemma each_ok {A B : Type} (f : A -> result B) (l : list A) (l' : list B) :
  Shared.each f l = Ok l' -> Forall2 (fun x y => f x = Ok y) l l'.
Proof.
  revert l'. induction l as [|x l IH]; intros l'; cbn [Shared.each].
  - intros [= <-]. constructor.
  - destruct (f x) as [y|e] eqn:Hx; cbn [rbind]; [|discriminate].
    destruct (Shared.each f l) as [ys|e]; cbn [rbind]; [|discriminate].
    intros [= <-]. constructor; [exact Hx|apply IH; reflexivity].
Qed.

Lemma each_value_ok {A B : Type} (f : A -> result B) (kvs : list (string * A))
  (kvs' : list (string * B)) :
  Shared.each_value f kvs = Ok kvs' ->
  Forall2 (fun kv kv' => fst kv' = fst kv /\ f (snd kv) = Ok (snd kv')) kvs kvs'.
Proof.
  revert kvs'. induction kvs as [|kv kvs IH]; intros kvs'; cbn [Shared.each_value].
  - intros [= <-]. constructor.
  - destruct (f (snd kv)) as [y|e] eqn:Hx; cbn [rbind]; [|discriminate].
    destruct (Shared.each_value f kvs) as [ys|e]; cbn [rbind]; [|discriminate].
    intros [= <-]. constructor; [split; [reflexivity|exact Hx]|apply IH; reflexivity].
Qed.

Lemma each_value_keys {A B : Type} (f : A -> result B) (kvs : list (string * A))
  (kvs' : list (string * B)) :
  Shared.each_value f kvs = Ok kvs' -> map fst kvs' = map fst kvs.
Proof.
  intros H. apply each_value_ok in H.
  induction H as [|kv kv' kvs kvs' [Hk _] _ IH]; [reflexivity|].
  cbn [map]. rewrite Hk, IH. reflexivity.
Qed.

Lemma distinct_cell_at (h : Shared.store) (a : Shared.addr) :
  forallb Shared.distinct_cell h = true -> Shared.distinct_cell (Shared.cell h a) = true.
Proof.
  intros Hh. unfold Shared.cell.
  destruct (Nat.lt_ge_cases a (length h)) as [Ha|Ha].
  - rewrite forallb_forall in Hh. apply Hh, nth_In, Ha.
  - rewrite (nth_overflow h [] Ha). reflexivity.
Qed.

Lemma distinct_Data_dump (h : Shared.store) (f : Shared.obj) (n : Z) (d : Shared.obj) :
  Shared.distinct f = true -> Shared.distinct d = true ->
  Shared.distinct (Shared.Data.dump h f n d) = true.
Proof.
  intros Hf Hd. unfold Shared.Data.dump.
  destruct (Shared.truthy h d), (Shared.is_dict d), (n <? 0), (n =? 0); cbn;
    rewrite ?Hf, ?Hd; reflexivity.
Qed.

(** What [_dump] returns has distinct names where its argument and the
    store have. *)
Lemma distinct_dump (h : Shared.store) (fuel : nat) :
  forallb Shared.distinct_cell h = true ->
  forall (path : list Shared.addr) (v v' : Shared.obj),
    Shared.distinct v = true -> Shared._dump fuel h path v = Ok v' ->
    Shared.distinct v' = true.
Proof.
  intros Hh. induction fuel as [|fuel IH]; intros path v; [discriminate|].
  assert (Hvals : forall (g : Shared.obj -> result Shared.obj) kvs kvs',
             Forall (fun kv => forall v', Shared.distinct (snd kv) = true ->
                                          g (snd kv) = Ok v' ->
                                          Shared.distinct v' = true) kvs ->
             forallb (fun kv => Shared.distinct (snd kv)) kvs = true ->
             Shared.each_value g kvs = Ok kvs' ->
             forallb (fun kv => Shared.distinct (snd kv)) kvs' = true).
  { intros g kvs kvs' Hall Hd He. apply each_value_ok in He.
    induction He as [|kv kv' kvs kvs' [_ Hg] _ IHe]; [reflexivity|].
    cbn [forallb] in Hd |- *. apply andb_prop in Hd. destruct Hd as [Hd1 Hd2].
    inversion Hall as [|? ? Hkv Hall']; subst.
    rewrite (Hkv _ Hd1 Hg), (IHe Hall' Hd2). reflexivity. }
  induction v as [ |b|n|s|xs IHxs|xs IHxs|kvs IHkvs|a|f n d _ _| |r _]
    using Shared.obj_ind; intros v' Hv; rewrite dump_eq;
    try (intros [= <-]; exact Hv).
  - destruct (Shared.each _ xs) as [l'|e] eqn:He; cbn [rbind]; [|discriminate].
    intros [= <-]. cbn [Shared.distinct] in Hv |- *. apply each_ok in He.
    induction He as [|x y xs ys Hxy _ IHe]; [reflexivity|].
    cbn [forallb] in Hv |- *. apply andb_prop in Hv. destruct Hv as [Hv1 Hv2].
    inversion IHxs as [|? ? Hx Hxs]; subst.
    rewrite (Hx y Hv1 Hxy), (IHe Hxs Hv2). reflexivity.
  - destruct (Shared.each _ xs) as [l'|e] eqn:He; cbn [rbind]; [|discriminate].
    intros [= <-]. cbn [Shared.distinct] in Hv |- *. apply each_ok in He.
    induction He as [|x y xs ys Hxy _ IHe]; [reflexivity|].
    cbn [forallb] in Hv |- *. apply andb_prop in Hv. destruct Hv as [Hv1 Hv2].
    inversion IHxs as [|? ? Hx Hxs]; subst.
    rewrite (Hx y Hv1 Hxy), (IHe Hxs Hv2). reflexivity.
  - destruct (Shared.each_value _ kvs) as [kvs'|e] eqn:He; cbn [rbind]; [|discriminate].
    intros [= <-]. cbn [Shared.distinct] in Hv |- *.
    apply andb_prop in Hv. destruct Hv as [Hk Hv].
    rewrite (each_value_keys _ _ _ He), Hk. cbn [andb].
    exact (Hvals (Shared._dump (S fuel) h path) kvs kvs' IHkvs Hv He).
  - destruct (existsb (Nat.eqb a) path); [discriminate|].
    destruct (Shared.each_value _ (Shared.cell h a)) as [kvs'|e] eqn:He; cbn [rbind];
      [|discriminate].
    intros [= <-]. cbn [Shared.distinct].
    pose proof (distinct_cell_at h a Hh) as Hc. unfold Shared.distinct_cell in Hc.
    apply andb_prop in Hc. destruct Hc as [Hk Hc].
    rewrite (each_value_keys _ _ _ He), Hk. cbn [andb].
    apply (Hvals (Shared._dump fuel h (a :: path)) (Shared.cell h a) kvs');
      [|exact Hc|exact He].
    apply Forall_forall. intros kv _ v'' H1 H2. exact (IH _ _ _ H1 H2).
  - intros [= <-]. cbn [Shared.distinct] in Hv. apply andb_prop in Hv.
    destruct Hv as [Hf Hd]. apply distinct_Data_dump; assumption.
Qed.

(** A walk of [json.dumps] that returns has met no object, and the tree
    it returns has distinct names. *)
Lemma snapshot_plain (h : Shared.store) (fuel : nat) :
  forallb Shared.distinct_cell h = true ->
  forall (path : list Shared.addr) (v : Shared.obj) (t : pyval),
    Shared.distinct v = true -> Shared.snapshot fuel h path v = Ok t ->
    plain t = true.
Proof.
  intros Hh. induction fuel as [|fuel IH]; intros path v; [discriminate|].
  assert (Hvals : forall (g : Shared.obj -> result pyval) kvs kts,
             Forall (fun kv => forall t, Shared.distinct (snd kv) = true ->
                                         g (snd kv) = Ok t -> plain t = true) kvs ->
             forallb (fun kv => Shared.distinct (snd kv)) kvs = true ->
             Shared.each_value g kvs = Ok kts ->
             forallb (fun kv => plain (snd kv)) kts = true).
  { intros g kvs kts Hall Hd He. apply each_value_ok in He.
    induction He as [|kv kv' kvs kts [_ Hg] _ IHe]; [reflexivity|].
    cbn [forallb] in Hd |- *. apply andb_prop in Hd. destruct Hd as [Hd1 Hd2].
    inversion Hall as [|? ? Hkv Hall']; subst.
    rewrite (Hkv _ Hd1 Hg), (IHe Hall' Hd2). reflexivity. }
  induction v as [ |b|n|s|xs IHxs|xs IHxs|kvs IHkvs|a|f n d _ _| |r _]
    using Shared.obj_ind; intros t Hv; rewrite snapshot_eq;
    try (intros [= <-]; reflexivity); try discriminate.
  - destruct (Shared.each _ xs) as [ts|e] eqn:He; cbn [rbind]; [|discriminate].
    intros [= <-]. cbn [Shared.distinct] in Hv. cbn [plain]. apply each_ok in He.
    induction He as [|x y xs ys Hxy _ IHe]; [reflexivity|].
    cbn [forallb] in Hv |- *. apply andb_prop in Hv. destruct Hv as [Hv1 Hv2].
    inversion IHxs as [|? ? Hx Hxs]; subst.
    rewrite (Hx y Hv1 Hxy), (IHe Hxs Hv2). reflexivity.
  - destruct (Shared.each _ xs) as [ts|e] eqn:He; cbn [rbind]; [|discriminate].
    intros [= <-]. cbn [Shared.distinct] in Hv. cbn [plain]. apply each_ok in He.
    induction He as [|x y xs ys Hxy _ IHe]; [reflexivity|].
    cbn [forallb] in Hv |- *. apply andb_prop in Hv. destruct Hv as [Hv1 Hv2].
    inversion IHxs as [|? ? Hx Hxs]; subst.
    rewrite (Hx y Hv1 Hxy), (IHe Hxs Hv2). reflexivity.
  - destruct (Shared.each_value _ kvs) as [kts|e] eqn:He; cbn [rbind]; [|discriminate].
    intros [= <-]. cbn [Shared.distinct] in Hv. cbn [plain].
    apply andb_prop in Hv. destruct Hv as [Hk Hv].
    rewrite (each_value_keys _ _ _ He), Hk. cbn [andb].
    exact (Hvals (Shared.snapshot (S fuel) h path) kvs kts IHkvs Hv He).
  - destruct (existsb (Nat.eqb a) path); [discriminate|].
    destruct (Shared.each_value _ (Shared.cell h a)) as [kts|e] eqn:He; cbn [rbind];
      [|discriminate].
    intros [= <-]. cbn [plain].
    pose proof (distinct_cell_at h a Hh) as Hc. unfold Shared.distinct_cell in Hc.
    apply andb_prop in Hc. destruct Hc as [Hk Hc].
    rewrite (each_value_keys _ _ _ He), Hk. cbn [andb].
    apply (Hvals (Shared.snapshot fuel h (a :: path)) (Shared.cell h a) kts);
      [|exact Hc|exact He].
    apply Forall_forall. intros kv _ t' H1 H2. exact (IH _ _ _ H1 H2).
Qed.

Lemma shared_dict_del_In (k : string) (d r : list (string * Shared.obj)) :
  Shared.dict_del k d = Ok r -> forall kv, In kv r -> In kv d.
Proof.
  revert r. induction d as [|[k' v'] d IH]; intros r; cbn [Shared.dict_del];
    [discriminate|].
  destruct (String.eqb k' k).
  - intros [= <-] kv Hin. right. exact Hin.
  - destruct (Shared.dict_del k d) as [r'|e]; cbn [rbind]; [|discriminate].
    intros [= <-] kv [<-|Hin]; [left; reflexivity|right; exact (IH r' eq_refl kv Hin)].
Qed.

Lemma shared_dict_del_NoDup (k : string) (d r : list (string * Shared.obj)) :
  Shared.dict_del k d = Ok r -> NoDup (map fst d) -> NoDup (map fst r).
Proof.
  revert r. induction d as [|[k' v'] d IH]; intros r; cbn [Shared.dict_del];
    [discriminate|].
  destruct (String.eqb k' k).
  - intros [= <-] Hnd. inversion Hnd; assumption.
  - destruct (Shared.dict_del k d) as [r'|e] eqn:Hd; cbn [rbind]; [|discriminate].
    intros [= <-] Hnd. cbn [map fst] in Hnd |- *. inversion Hnd as [|? ? Hnotin Hnd']; subst.
    constructor; [|exact (IH r' eq_refl Hnd')].
    intros Hin. apply Hnotin. apply in_map_iff in Hin. destruct Hin as (kv & Hk & Hin).
    apply in_map_iff. exists kv. split; [exact Hk|exact (shared_dict_del_In k d r' Hd kv Hin)].
Qed.

Lemma shared_dict_set_In (k : string) (v : Shared.obj) (d : list (string * Shared.obj)) :
  forall kv, In kv (Shared.dict_set k v d) -> snd kv = v \/ In kv d.
Proof.
  induction d as [|[k' v'] d IH]; intros kv; cbn [Shared.dict_set].
  - intros [<-|[]]. left. reflexivity.
  - destruct (String.eqb k' k).
    + intros [<-|Hin]; [left; reflexivity|right; right; exact Hin].
    + intros [<-|Hin]; [right; left; reflexivity|].
      destruct (IH kv Hin) as [H|H]; [left; exact H|right; right; exact H].
Qed.

Lemma shared_dict_set_keys (k : string) (v : Shared.obj) (d : list (string * Shared.obj)) :
  forall q, In q (map fst (Shared.dict_set k v d)) -> q = k \/ In q (map fst d).
Proof.
  induction d as [|[k' v'] d IH]; intros q; cbn [Shared.dict_set map fst].
  - intros [<-|[]]. left. reflexivity.
  - destruct (String.eqb_spec k' k) as [->|Hne]; cbn [map fst].
    + intros [<-|Hin]; [left; reflexivity|right; right; exact Hin].
    + intros [<-|Hin]; [right; left; reflexivity|].
      destruct (IH q Hin) as [H|H]; [left; exact H|right; right; exact H].
Qed.

Lemma shared_dict_set_NoDup (k : string) (v : Shared.obj) (d : list (string * Shared.obj)) :
  NoDup (map fst d) -> NoDup (map fst (Shared.dict_set k v d)).
Proof.
  induction d as [|[k' v'] d IH]; cbn [Shared.dict_set map fst].
  - intros _. constructor; [intros []|constructor].
  - intros Hnd. inversion Hnd as [|? ? Hnotin Hnd']; subst.
    destruct (String.eqb_spec k' k) as [->|Hne]; cbn [map fst].
    + constructor; assumption.
    + constructor; [|exact (IH Hnd')].
      intros Hin. destruct (shared_dict_set_keys k v d k' Hin) as [H|H];
        [exact (Hne H)|exact (Hnotin H)].
Qed.

Lemma distinct_cell_spec (c : list (string * Shared.obj)) :
  Shared.distinct_cell c = true <->
  NoDup (map fst c) /\ forall kv, In kv c -> Shared.distinct (snd kv) = true.
Proof.
  unfold Shared.distinct_cell. rewrite andb_true_iff, nodup_keys_NoDup, forallb_forall.
  reflexivity.
Qed.

Lemma distinct_cell_del (k : string) (d r : list (string * Shared.obj)) :
  Shared.dict_del k d = Ok r -> Shared.distinct_cell d = true ->
  Shared.distinct_cell r = true.
Proof.
  intros Hd Hc. apply distinct_cell_spec in Hc. destruct Hc as [Hnd Hv].
  apply distinct_cell_spec. split; [exact (shared_dict_del_NoDup k d r Hd Hnd)|].
  intros kv Hin. apply Hv. exact (shared_dict_del_In k d r Hd kv Hin).
Qed.

Lemma distinct_cell_set (k : string) (v : Shared.obj) (d : list (string * Shared.obj)) :
  Shared.distinct v = true -> Shared.distinct_cell d = true ->
  Shared.distinct_cell (Shared.dict_set k v d) = true.
Proof.
  intros Hv Hc. apply distinct_cell_spec in Hc. destruct Hc as [Hnd Hd].
  apply distinct_cell_spec. split; [exact (shared_dict_set_NoDup k v d Hnd)|].
  intros kv Hin. destruct (shared_dict_set_In k v d kv Hin) as [->|H];
    [exact Hv|exact (Hd kv H)].
Qed.

Lemma distinct_rename_data (data : list (string * Z)) :
  forall props r : list (string * Shared.obj),
    Shared.PageBase.rename_data data props = Ok r ->
    Shared.distinct_cell props = true -> Shared.distinct_cell r = true.
Proof.
  induction data as [|[k i] data IH]; intros props r; cbn [Shared.PageBase.rename_data].
  - intros [= <-] H. exact H.
  - destruct (Shared.dict_del k props) as [props'|e] eqn:Hd; cbn [rbind]; [|discriminate].
    intros Hr Hc. apply (IH _ r Hr). apply distinct_cell_set; [reflexivity|].
    exact (distinct_cell_del k props props' Hd Hc).
Qed.

Lemma put_length (h : Shared.store) (a : Shared.addr) (c : list (string * Shared.obj)) :
  length (Shared.put h a c) = length h.
Proof.
  revert a. induction h as [|c0 h IH]; intros [|a]; cbn; try reflexivity.
  rewrite IH. reflexivity.
Qed.

Lemma distinct_put (h : Shared.store) (a : Shared.addr) (c : list (string * Shared.obj)) :
  forallb Shared.distinct_cell h = true -> Shared.distinct_cell c = true ->
  forallb Shared.distinct_cell (Shared.put h a c) = true.
Proof.
  revert a. induction h as [|c0 h IH]; intros [|a] Hh Hc; cbn [Shared.put forallb] in *;
    try reflexivity; apply andb_prop in Hh; destruct Hh as [H0 Hh].
  - rewrite Hc, Hh. reflexivity.
  - rewrite H0, (IH a Hh Hc). reflexivity.
Qed.

Lemma distinct_scan_fold (h : Shared.store) (props : list (string * Shared.obj)) :
  forall (data : list (string * Z)) (bufs : list Shared.obj),
    forallb (fun kv => Shared.distinct (snd kv)) props = true ->
    forallb Shared.distinct bufs = true ->
    forallb Shared.distinct
      (snd (fold_left
              (fun (acc : list (string * Z) * list Shared.obj) (kv : string * Shared.obj) =>
                 let (data, bufs) := acc in
                 match snd kv with
                 | Shared.OData f n d =>
                     ((data ++ [(fst kv, Z.of_nat (length bufs))])%list,
                      (bufs ++ [Shared.Data.dump h f n d])%list)
                 | _ => (data, bufs)
                 end)
              props (data, bufs))) = true.
Proof.
  induction props as [|[k v] props IH]; intros data bufs Hp Hb; [exact Hb|].
  cbn [forallb snd] in Hp. apply andb_prop in Hp. destruct Hp as [Hv Hp].
  cbn [fold_left fst snd].
  destruct v as [ |b|n|s|xs|xs|kvs|a|f n d|r]; try (apply IH; assumption).
  apply IH; [exact Hp|]. rewrite forallb_app, Hb. cbn [forallb andb].
  cbn [Shared.distinct] in Hv. apply andb_prop in Hv. destruct Hv as [Hf Hd].
  rewrite (distinct_Data_dump h f n d Hf Hd). reflexivity.
Qed.

Lemma distinct_items (h : Shared.store) (x : Shared.obj) :
  forallb Shared.distinct_cell h = true -> Shared.distinct x = true ->
  Shared.distinct_cell (Shared.items h x) = true.
Proof.
  intros Hh Hx. destruct x; try reflexivity; cbn [Shared.items].
  - exact Hx.
  - apply distinct_cell_at, Hh.
Qed.

(** ** What one mutation does *)

Lemma issued_set_op (h : Shared.store) (self : Ref) (key v op : Shared.obj) :
  Shared._set_op h self key v = Ok op ->
  exists kvs,
    op = Shared.ODict kvs /\
    dict_get "k" (map (fun kv => (fst kv, Shared.shallow (snd kv))) kvs) =
    Some (PStr (__key__ self ++ " " ++ py_str (Shared.shallow key))).
Proof.
  unfold Shared._set_op.
  destruct (_guard_key (Shared.shallow key)) as [[]|e]; cbn [rbind]; [|discriminate].
  destruct v as [ |b|n|s|xs|xs|kvs|a|f n d|r];
    try (intros [= <-]; eexists; split; reflexivity).
  unfold Shared.Data.dump.
  destruct (Shared.truthy h d), (Shared.is_dict d), (n <? 0), (n =? 0);
    intros [= <-]; eexists; split; reflexivity.
Qed.

Lemma distinct_set_op (h : Shared.store) (self : Ref) (key v op : Shared.obj) :
  Shared.distinct v = true -> Shared._set_op h self key v = Ok op ->
  Shared.distinct op = true.
Proof.
  unfold Shared._set_op. intros Hv.
  destruct (_guard_key (Shared.shallow key)) as [[]|e]; cbn [rbind]; [|discriminate].
  destruct v as [ |b|n|s|xs|xs|kvs|a|f n d|r];
    try (intros [= <-]; cbn in Hv |- *; rewrite ?Hv; reflexivity).
  - cbn [Shared.distinct] in Hv. apply andb_prop in Hv. destruct Hv as [Hf Hd].
    unfold Shared.Data.dump.
    destruct (Shared.truthy h d), (Shared.is_dict d), (n <? 0), (n =? 0);
      intros [= <-]; cbn in Hf, Hd |- *; rewrite ?Hf, ?Hd; reflexivity.
Qed.

(** A mutation either appends the one operation it builds, on every page,
    or raises and leaves the page and the store as they were.  The store
    keeps its size; only [add] rewrites a mapping in it. *)
Lemma shared_perform_cases (m : Shared.mutation) (h : Shared.store) :
  (exists op h',
      Shared.tracks h m op h' /\
      Shared.issued m op /\
      length h' = length h /\
      ((forall key card, m <> Shared.MAdd key card) -> h' = h) /\
      (forallb Shared.distinct_cell h = true -> Shared.distinct_mutation m = true ->
       Shared.distinct op = true /\ forallb Shared.distinct_cell h' = true)) \/
  (exists e, forall p, Shared.perform m (p, h) = (Raise e, (p, h))).
Proof.
  unfold Shared.tracks.
  assert (Hset : forall self key value,
             (exists op,
                 (forall p,
                     Shared.Ref.__setitem__ self key value (p, h) =
                     (Ok tt, (Shared.mkPage (Shared.url p) (Shared._changes p ++ [op]), h))) /\
                 (exists kvs,
                     op = Shared.ODict kvs /\
                     dict_get "k" (map (fun kv => (fst kv, Shared.shallow (snd kv))) kvs) =
                     Some (PStr (__key__ self ++ " " ++ py_str (Shared.shallow key)))) /\
                 (forallb Shared.distinct_cell h = true -> Shared.distinct value = true ->
                  Shared.distinct op = true)) \/
             (exists e, forall p,
                 Shared.Ref.__setitem__ self key value (p, h) = (Raise e, (p, h)))).
  { intros self key value. unfold Shared.Ref.__setitem__.
    destruct (Shared.is_Data value); [right; eexists; intros p; reflexivity|].
    unfold Shared.bind, Shared.reading. cbn [snd].
    destruct (Shared._dump (S (length h)) h [] value) as [v|e] eqn:Hd;
      [|right; eexists; intros p; reflexivity].
    destruct (Shared._set_op h self key v) as [op|e] eqn:Hop;
      [|right; eexists; intros p; reflexivity].
    left. exists op. split; [intros p; reflexivity|].
    split; [exact (issued_set_op _ _ _ _ _ Hop)|].
    intros Hh Hv. apply (distinct_set_op h self key v op); [|exact Hop].
    exact (distinct_dump h _ Hh _ _ _ Hv Hd). }
  destruct m as [key card|ref key value|ref key value|key| ]; cbn [Shared.perform].
  - unfold Shared.PageBase.__setitem__, Shared.bind, Shared.PageBase.add.
    destruct key as [ |b|n|k|xs|xs|kvs|a|f n d|r];
      try (right; eexists; intros p; reflexivity).
    destruct (if Shared.is_dict card then Ok card
              else if Shared._can_dump card
                   then Shared._dump (S (length h)) h [] card
                   else Ok Shared.ONone) as [props|e] eqn:Hprops;
      [|right; eexists; intros p; reflexivity].
    destruct (Shared.is_dict props) eqn:Hdict; [|right; eexists; intros p; reflexivity].
    destruct (Shared.PageBase.scan_data h (Shared.items h props)) as [data bufs] eqn:Hscan.
    destruct (Shared.PageBase.rename_data data (Shared.items h props)) as [kvs|e] eqn:Hren;
      [|right; eexists; intros p; reflexivity].
    left.
    assert (Hcard : forall a, card = Shared.OAt a -> props = Shared.OAt a).
    { intros a ->. cbn in Hprops. injection Hprops as <-. reflexivity. }
    assert (Hdist : forallb Shared.distinct_cell h = true ->
                    Shared.distinct card = true ->
                    Shared.distinct_cell kvs = true /\ forallb Shared.distinct bufs = true /\
                    Shared.distinct props = true).
    { intros Hh Hc.
      assert (Hp : Shared.distinct props = true).
      { destruct (Shared.is_dict card); [injection Hprops as <-; exact Hc|].
        destruct (Shared._can_dump card); [|injection Hprops as <-; reflexivity].
        exact (distinct_dump h _ Hh _ _ _ Hc Hprops). }
      pose proof (distinct_items h props Hh Hp) as Hi.
      split; [exact (distinct_rename_data data _ kvs Hren Hi)|]. split; [|exact Hp].
      unfold Shared.PageBase.scan_data in Hscan.
      pose proof (distinct_scan_fold h (Shared.items h props) [] []) as Hb.
      rewrite Hscan in Hb. apply Hb; [|reflexivity].
      apply distinct_cell_spec in Hi. apply forallb_forall. apply Hi. }
    destruct props as [ |b|n|s|xs|xs|props|a|f n d|r]; try discriminate Hdict.
    + exists (match bufs with
              | _ :: _ => Shared.ODict [("k", Shared.OStr k); ("d", Shared.ODict kvs);
                                        ("b", Shared.OList bufs)]
              | [] => Shared.ODict [("k", Shared.OStr k); ("d", Shared.ODict kvs)]
              end), h.
      split; [intros p; destruct bufs; reflexivity|].
      split; [|split; [reflexivity|split]].
      * cbn [Shared.issued]. destruct bufs as [|b bufs].
        -- exists (Shared.ODict kvs), []. split; [reflexivity|]. split; [left; reflexivity|].
           intros a Ha. specialize (Hcard a Ha). discriminate Hcard.
        -- exists (Shared.ODict kvs), [("b", Shared.OList (b :: bufs))].
           split; [reflexivity|]. split.
           ++ right. exists (b :: bufs). split; [discriminate|reflexivity].
           ++ intros a Ha. specialize (Hcard a Ha). discriminate Hcard.
      * intros _. reflexivity.
      * intros Hh Hm. cbn [Shared.distinct_mutation] in Hm. apply andb_prop in Hm.
        destruct Hm as [_ Hc]. destruct (Hdist Hh Hc) as (Hk & Hb & _).
        split; [|exact Hh].
        unfold Shared.distinct_cell in Hk.
        destruct bufs as [|b bufs]; cbn [Shared.distinct map fst forallb snd];
          rewrite Hk; [reflexivity|]. cbn [forallb] in Hb. rewrite Hb. reflexivity.
    + exists (match bufs with
              | _ :: _ => Shared.ODict [("k", Shared.OStr k); ("d", Shared.OAt a);
                                        ("b", Shared.OList bufs)]
              | [] => Shared.ODict [("k", Shared.OStr k); ("d", Shared.OAt a)]
              end), (Shared.put h a kvs).
      split; [intros p; destruct bufs; reflexivity|].
      split; [|split; [apply put_length|split]].
      * cbn [Shared.issued]. destruct bufs as [|b bufs].
        -- exists (Shared.OAt a), []. split; [reflexivity|]. split; [left; reflexivity|].
           intros a' Ha. exact (Hcard a' Ha).
        -- exists (Shared.OAt a), [("b", Shared.OList (b :: bufs))].
           split; [reflexivity|]. split.
           ++ right. exists (b :: bufs). split; [discriminate|reflexivity].
           ++ intros a' Ha. exact (Hcard a' Ha).
      * intros Hno. exfalso. exact (Hno _ _ eq_refl).
      * intros Hh Hm. cbn [Shared.distinct_mutation] in Hm. apply andb_prop in Hm.
        destruct Hm as [_ Hc]. destruct (Hdist Hh Hc) as (Hk & Hb & _).
        split; [|exact (distinct_put h a kvs Hh Hk)].
        destruct bufs as [|b bufs]; cbn [Shared.distinct map fst forallb snd];
          [reflexivity|]. cbn [forallb] in Hb. rewrite Hb. reflexivity.
  - unfold Shared.Ref.__setattr__.
    destruct (Hset ref (Shared.OStr key) value) as [(op & Hop & Hi & Hd)|[e He]];
      [left|right; exists e; exact He].
    exists op, h. split; [exact Hop|]. split; [exact Hi|]. split; [reflexivity|].
    split; [reflexivity|]. intros Hh Hm. split; [exact (Hd Hh Hm)|exact Hh].
  - destruct (Hset ref key value) as [(op & Hop & Hi & Hd)|[e He]];
      [left|right; exists e; exact He].
    exists op, h. split; [exact Hop|]. split; [exact Hi|]. split; [reflexivity|].
    split; [reflexivity|]. intros Hh Hm.
    cbn [Shared.distinct_mutation] in Hm. apply andb_prop in Hm. destruct Hm as [_ Hv].
    split; [exact (Hd Hh Hv)|exact Hh].
  - left. exists (Shared.ODict [("k", key)]), h. split; [intros p; reflexivity|].
    split; [reflexivity|]. split; [reflexivity|]. split; [reflexivity|].
    intros Hh Hm. cbn [Shared.distinct_mutation] in Hm. split; [|exact Hh].
    cbn [Shared.distinct map fst forallb snd]. rewrite Hm. reflexivity.
  - left. exists (Shared.ODict []), h. split; [intros p; reflexivity|].
    split; [reflexivity|]. split; [reflexivity|]. split; [reflexivity|].
    intros Hh _. split; [reflexivity|exact Hh].
Qed.

Lemma tracks_unique_in (h h1 h2 : Shared.store) (m : Shared.mutation)
  (op1 op2 : Shared.obj) :
  Shared.tracks h m op1 h1 -> Shared.tracks h m op2 h2 -> op1 = op2 /\ h1 = h2.
Proof.
  intros H1 H2. specialize (H1 (Shared.mkPage EmptyString [])).
  rewrite (H2 (Shared.mkPage EmptyString [])) in H1. cbn in H1.
  injection H1 as -> ->. split; reflexivity.
Qed.

(** A script that succeeds: one operation for each mutation, in order. *)
Lemma shared_perform_all_ok (ms : list Shared.mutation) :
  forall (p p' : Shared.PageBase) (h h' : Shared.store),
    Shared.perform_all ms (p, h) = (Ok tt, (p', h')) ->
    exists ops,
      Shared.tracks_all h ms ops h' /\
      Forall2 Shared.issued ms ops /\
      Shared.url p' = Shared.url p /\
      Shared._changes p' = (Shared._changes p ++ ops)%list /\
      length h' = length h /\
      (forallb Shared.distinct_cell h = true ->
       forallb Shared.distinct_mutation ms = true ->
       forallb Shared.distinct ops = true /\ forallb Shared.distinct_cell h' = true).
Proof.
  induction ms as [|m ms IH]; intros p p' h h' Hrun.
  - cbn in Hrun. injection Hrun as <- <-. exists [].
    split; [constructor|]. split; [constructor|]. split; [reflexivity|].
    split; [rewrite List.app_nil_r; reflexivity|]. split; [reflexivity|].
    intros Hh _. split; [reflexivity|exact Hh].
  - cbn [Shared.perform_all] in Hrun. unfold Shared.bind in Hrun.
    destruct (shared_perform_cases m h) as [(op & h1 & Hop & Hi & Hlen & _ & Hd)|[e He]].
    + rewrite (Hop p) in Hrun.
      destruct (IH _ _ _ _ Hrun) as (ops & Hall & Hiss & Hurl & Hch & Hlen' & Hd').
      cbn [Shared.url Shared._changes] in Hurl, Hch.
      exists (op :: ops). split; [econstructor; eassumption|].
      split; [constructor; assumption|]. split; [exact Hurl|].
      split; [rewrite Hch, <- List.app_assoc; reflexivity|].
      split; [rewrite Hlen', Hlen; reflexivity|].
      intros Hh Hms. cbn [forallb] in Hms. apply andb_prop in Hms.
      destruct Hms as [Hm Hms]. destruct (Hd Hh Hm) as [Hdop Hh1].
      destruct (Hd' Hh1 Hms) as [Hdops Hh']. split; [|exact Hh'].
      cbn [forallb]. rewrite Hdop, Hdops. reflexivity.
    + rewrite (He p) in Hrun. discriminate Hrun.
Qed.

(** ** What a flush writes *)

Lemma marshal_decodes (x : pyval) (s : string) :
  plain x = true -> marshal x = Ok s -> unmarshal s = Ok (_dump x).
Proof.
  intros Hp Hs. unfold marshal in Hs. rewrite <- (dumps_dump x Hp) in Hs.
  exact (loads_roundtrips _ s (json_value_roundtrips _ (dump_plain x Hp)) Hs).
Qed.

Lemma plain_marshals (x : pyval) : plain x = true -> exists s, marshal x = Ok s.
Proof.
  intros Hp. destruct (json_value_roundtrips _ (dump_plain x Hp)) as (s & Hs & _).
  exists s. unfold marshal. rewrite <- (dumps_dump x Hp). exact Hs.
Qed.

Lemma each_of_Forall2 {A B : Type} (f : A -> result B) (l : list A) (l' : list B) :
  Forall2 (fun x y => f x = Ok y) l l' -> Shared.each f l = Ok l'.
Proof.
  induction 1 as [|x y l l' Hx _ IH]; cbn [Shared.each]; [reflexivity|].
  rewrite Hx, IH. reflexivity.
Qed.

(** The tree of what [_diff] encodes is made of the trees of the operations. *)
Lemma tree_buffer (h : Shared.store) (cs : list Shared.obj) :
  Shared.tree h (Shared.ODict [("d", Shared.OList cs)]) =
  (ts <- Shared.each (Shared.tree h) cs ;; Ok (PDict [("d", PList ts)])).
Proof.
  unfold Shared.tree. rewrite snapshot_eq. cbn [Shared.each_value snd fst].
  rewrite snapshot_eq.
  change (Shared.each (Shared.snapshot (S (length h)) h []) cs)
    with (Shared.each (fun v => Shared.snapshot (S (length h)) h [] v) cs).
  destruct (Shared.each (fun v => Shared.snapshot (S (length h)) h [] v) cs);
    reflexivity.
Qed.

(** The three outcomes of [_diff]: nothing to send; the text of the buffer,
    which decodes to the operations in their order, each as the store shows
    it at the flush; or what the encoder raises. *)
Lemma shared_diff_cases (p : Shared.PageBase) (h : Shared.store) :
  forallb Shared.distinct (Shared._changes p) = true ->
  forallb Shared.distinct_cell h = true ->
  (Shared._changes p = [] -> Shared.PageBase._diff (p, h) = (Ok None, (p, h))) /\
  (Shared._changes p <> [] -> fst (Shared.PageBase._diff (p, h)) <> Ok None) /\
  (forall d w,
      Shared.PageBase._diff (p, h) = (Ok (Some d), w) ->
      w = (Shared.mkPage (Shared.url p) [], h) /\
      exists trees,
        Forall2 (fun op t => Shared.tree h op = Ok t) (Shared._changes p) trees /\
        unmarshal d = Ok (PDict [("d", PList (map _dump trees))])) /\
  (forall trees,
      Shared._changes p <> [] ->
      Forall2 (fun op t => Shared.tree h op = Ok t) (Shared._changes p) trees ->
      exists d,
        Shared.PageBase._diff (p, h) = (Ok (Some d), (Shared.mkPage (Shared.url p) [], h))) /\
  (forall e w, Shared.PageBase._diff (p, h) = (Raise e, w) -> w = (p, h)).
Proof.
  intros Hcs Hh. unfold Shared.PageBase._diff.
  destruct (Shared._changes p) as [|c cs] eqn:Hch.
  - split; [reflexivity|]. split; [intros H; contradiction|].
    split; [discriminate|]. split; [intros trees H; contradiction|]. discriminate.
  - split; [discriminate|].
    assert (Hplain : forall t,
               Shared.tree h (Shared.ODict [("d", Shared.OList (c :: cs))]) = Ok t ->
               plain t = true).
    { intros t Ht. apply (snapshot_plain h _ Hh _ _ t) in Ht; [exact Ht|].
      cbn [Shared.distinct map fst forallb snd]. cbn [forallb] in Hcs. rewrite Hcs.
      reflexivity. }
    unfold Shared.marshal.
    destruct (Shared.tree h (Shared.ODict [("d", Shared.OList (c :: cs))])) as [t|e] eqn:Ht;
      cbn [rbind].
    + pose proof (Hplain t eq_refl) as Hp.
      pose proof Ht as Ht'. rewrite tree_buffer in Ht'.
      destruct (Shared.each (Shared.tree h) (c :: cs)) as [ts|e] eqn:Hts;
        cbn [rbind] in Ht'; [|discriminate]. injection Ht' as <-.
      destruct (plain_marshals _ Hp) as [d Hd]. rewrite Hd.
      split; [discriminate|]. split; [|split].
      * intros d' w [= <- <-]. split; [reflexivity|]. exists ts.
        split; [exact (each_ok _ _ _ Hts)|].
        exact (marshal_decodes _ d Hp Hd).
      * intros _ _ _. exists d. reflexivity.
      * discriminate.
    + split; [discriminate|]. split; [discriminate|]. split.
      * intros trees _ Hall. apply each_of_Forall2 in Hall.
        rewrite tree_buffer, Hall in Ht. discriminate Ht.
      * intros e' w [= _ <-]. reflexivity.
Qed.

(** ** The order of the operations *)

(** C4. Let a sequence of mutations succeed on a page whose mappings have
    distinct names, as every [dict] has.  The buffer grows by exactly one
    operation per mutation, in the order of the mutations: the i-th new
    operation is the one the i-th mutation tracks in the store the mutations
    before it left, and it has the kind and the key of that mutation.  The
    flush that follows is not empty when a mutation was made; the text it
    returns decodes to [{d: operations}], the operations in that same order,
    each as the store shows it at the flush, and the buffer is empty
    afterwards.  It returns a text whenever every operation has a tree, that
    is, holds no object and no cycle. *)
Theorem operations_follow_mutation_order (ms : list Shared.mutation)
  (w w' : Shared.world) :
  Shared.distinct_world w = true ->
  forallb Shared.distinct_mutation ms = true ->
  Shared.perform_all ms w = (Ok tt, w') ->
  exists ops,
    Shared.tracks_all (snd w) ms ops (snd w') /\
    Forall2 Shared.issued ms ops /\
    length ops = length ms /\
    Shared.url (fst w') = Shared.url (fst w) /\
    Shared._changes (fst w') = (Shared._changes (fst w) ++ ops)%list /\
    (ms <> [] -> fst (Shared.PageBase._diff w') <> Ok None) /\
    (forall d w'',
        Shared.PageBase._diff w' = (Ok (Some d), w'') ->
        w'' = (Shared.mkPage (Shared.url (fst w)) [], snd w') /\
        exists trees,
          Forall2 (fun op t => Shared.tree (snd w') op = Ok t)
            (Shared._changes (fst w) ++ ops)%list trees /\
          unmarshal d = Ok (PDict [("d", PList (map _dump trees))])) /\
    (forall trees,
        ms <> [] ->
        Forall2 (fun op t => Shared.tree (snd w') op = Ok t)
          (Shared._changes (fst w) ++ ops)%list trees ->
        exists d,
          Shared.PageBase._diff w' =
          (Ok (Some d), (Shared.mkPage (Shared.url (fst w)) [], snd w'))).
Proof.
  destruct w as [p h], w' as [p' h']. cbn [fst snd]. intros Hw Hms Hrun.
  unfold Shared.distinct_world in Hw. cbn [fst snd] in Hw.
  apply andb_prop in Hw. destruct Hw as [Hcs Hh].
  destruct (shared_perform_all_ok ms p p' h h' Hrun)
    as (ops & Hall & Hiss & Hurl & Hch & _ & Hd).
  destruct (Hd Hh Hms) as [Hops Hh'].
  assert (Hcs' : forallb Shared.distinct (Shared._changes p') = true).
  { rewrite Hch, forallb_app, Hcs, Hops. reflexivity. }
  destruct (shared_diff_cases p' h' Hcs' Hh') as (_ & Hsome & Htext & Hgives & _).
  assert (Hne : ms <> [] -> Shared._changes p' <> []).
  { intros Hms' Hnil. rewrite Hch in Hnil. apply app_eq_nil in Hnil.
    destruct Hnil as [_ ->]. inversion Hiss. subst. contradiction. }
  exists ops. split; [exact Hall|]. split; [exact Hiss|].
  split; [symmetry; exact (Forall2_length Hiss)|]. split; [exact Hurl|].
  split; [exact Hch|]. split; [intros H; exact (Hsome (Hne H))|]. split.
  - intros d w'' Hdiff. destruct (Htext d w'' Hdiff) as [-> (trees & Htrees & Hdec)].
    rewrite Hurl. split; [reflexivity|]. exists trees. rewrite <- Hch.
    split; assumption.
  - intros trees H Htrees. rewrite <- Hch in Htrees. rewrite <- Hurl.
    exact (Hgives trees (Hne H) Htrees).
Qed.

Lemma operations_follow_mutation_order_witness :
  exists ops,
    Shared.tracks_all [[("x", Shared.OData (Shared.OList [Shared.OStr "f"]) 2 Shared.ONone)]]
      [Shared.MAdd (Shared.OStr "a") (Shared.ODict [("o", Shared.OAt 0%nat)]);
       Shared.MAdd (Shared.OStr "b") (Shared.OAt 0%nat);
       Shared.MSetAttr (mkRef "a") "t" (Shared.OInt 1);
       Shared.MDelete (Shared.OStr "a")]
      ops [[("~x", Shared.OInt 0)]] /\
    length ops = 4%nat /\
    exists trees,
      Forall2 (fun op t => Shared.tree [[("~x", Shared.OInt 0)]] op = Ok t) ops trees /\
      unmarshal
        (sq "{'d':[{'k':'a','d':{'o':{'~x':0}}},{'k':'b','d':{'~x':0},'b':[{'f':{'f':['f'],'n':2}}]},{'k':'a t','v':1},{'k':'a'}]}") =
      Ok (PDict [("d", PList (map _dump trees))]).
Proof.
  destruct (operations_follow_mutation_order
              [Shared.MAdd (Shared.OStr "a") (Shared.ODict [("o", Shared.OAt 0%nat)]);
               Shared.MAdd (Shared.OStr "b") (Shared.OAt 0%nat);
               Shared.MSetAttr (mkRef "a") "t" (Shared.OInt 1);
               Shared.MDelete (Shared.OStr "a")]
              (Shared.PageBase.__init__ "/p",
               [[("x", Shared.OData (Shared.OList [Shared.OStr "f"]) 2 Shared.ONone)]])
              (Shared.mkPage "/p"
                 [Shared.ODict [("k", Shared.OStr "a");
                                ("d", Shared.ODict [("o", Shared.OAt 0%nat)])];
                  Shared.ODict [("k", Shared.OStr "b"); ("d", Shared.OAt 0%nat);
                                ("b", Shared.OList
                                        [Shared.ODict
                                           [("f", Shared.ODict
                                                    [("f", Shared.OList [Shared.OStr "f"]);
                                                     ("n", Shared.OInt 2)])]])];
                  Shared.ODict [("k", Shared.OStr "a t"); ("v", Shared.OInt 1)];
                  Shared.ODict [("k", Shared.OStr "a")]],
               [[("~x", Shared.OInt 0)]])
              eq_refl eq_refl eq_refl)
    as (ops & Hall & _ & Hlen & _ & _ & _ & Htext & _).
  exists ops. split; [exact Hall|]. split; [exact Hlen|].
  exact (proj2 (Htext _ _ eq_refl)).
Defined.

(** ** The buffer between two flushes *)

Lemma shared_attempt_all_appends (ms : list Shared.mutation) :
  forall h : Shared.store,
    exists ops h',
      (length ops <= length ms)%nat /\
      length h' = length h /\
      ((forall key card, ~ In (Shared.MAdd key card) ms) -> h' = h) /\
      forall p,
        Shared.attempt_all ms (p, h) =
        (length ops, (Shared.mkPage (Shared.url p) (Shared._changes p ++ ops), h')).
Proof.
  induction ms as [|m ms IH]; intros h.
  - exists [], h. split; [cbn; lia|]. split; [reflexivity|]. split; [reflexivity|].
    intros p. cbn [Shared.attempt_all length]. rewrite List.app_nil_r.
    destruct p; reflexivity.
  - destruct (shared_perform_cases m h) as [(op & h1 & Hop & _ & Hlen & Hsame & _)|[e He]].
    + destruct (IH h1) as (ops & h' & Hle & Hlen' & Hsame' & Hops).
      exists (op :: ops), h'. split; [cbn; lia|]. split; [rewrite Hlen', Hlen; reflexivity|].
      split.
      * intros Hno. rewrite Hsame', Hsame; [reflexivity| |].
        -- intros key card ->. exact (Hno key card (or_introl eq_refl)).
        -- intros key card Hin. exact (Hno key card (or_intror Hin)).
      * intros p. cbn [Shared.attempt_all]. rewrite (Hop p), Hops.
        cbn [Shared.url Shared._changes length]. rewrite <- List.app_assoc. reflexivity.
    + destruct (IH h) as (ops & h' & Hle & Hlen' & Hsame' & Hops).
      exists ops, h'. split; [cbn; lia|]. split; [exact Hlen'|]. split.
      * intros Hno. apply Hsame'. intros key card Hin.
        exact (Hno key card (or_intror Hin)).
      * intros p. cbn [Shared.attempt_all]. rewrite (He p). apply Hops.
Qed.

(** X14. Whatever mutations a caller attempts, catching what they raise,
    the buffer only grows: the url is kept, the operations already buffered
    stay in place, and one operation is appended for each mutation that
    succeeded, none for one that raised.  The operations appended depend on
    the store, not on the page.  The store keeps its size, and it is left as
    it was unless a card was added: what a buffered operation shows of a
    mapping it shares can change by a later [add] only. *)
Theorem buffer_only_grows (ms : list Shared.mutation) (h : Shared.store) :
  exists ops h',
    (length ops <= length ms)%nat /\
    length h' = length h /\
    ((forall key card, ~ In (Shared.MAdd key card) ms) -> h' = h) /\
    forall p,
      Shared.attempt_all ms (p, h) =
      (length ops, (Shared.mkPage (Shared.url p) (Shared._changes p ++ ops), h')).
Proof. exact (shared_attempt_all_appends ms h). Qed.

(** ** A buffer that cannot be encoded *)

Lemma each_raises {A B : Type} (f : A -> result B) (l : list A) (hit : A -> bool) :
  existsb hit l = true ->
  (forall x, In x l -> hit x = true -> exists e, f x = Raise e) ->
  exists e, Shared.each f l = Raise e.
Proof.
  induction l as [|x l IH]; cbn [existsb Shared.each]; [discriminate|].
  intros Hex Hall. destruct (f x) as [y|e] eqn:Hx; cbn [rbind]; [|exists e; reflexivity].
  destruct (hit x) eqn:Hhit.
  - destruct (Hall x (or_introl eq_refl) Hhit) as [e He]. congruence.
  - cbn [orb] in Hex. destruct IH as [e He]; [exact Hex| |].
    + intros x' Hin. apply Hall. right. exact Hin.
    + rewrite He. exists e. reflexivity.
Qed.

Lemma each_value_raises {A B : Type} (f : A -> result B) (l : list (string * A))
  (hit : A -> bool) :
  existsb (fun kv => hit (snd kv)) l = true ->
  (forall kv, In kv l -> hit (snd kv) = true -> exists e, f (snd kv) = Raise e) ->
  exists e, Shared.each_value f l = Raise e.
Proof.
  induction l as [|x l IH]; cbn [existsb Shared.each_value]; [discriminate|].
  intros Hex Hall. destruct (f (snd x)) as [y|e] eqn:Hx; cbn [rbind];
    [|exists e; reflexivity].
  destruct (hit (snd x)) eqn:Hhit.
  - destruct (Hall x (or_introl eq_refl) Hhit) as [e He]. congruence.
  - cbn [orb] in Hex. destruct IH as [e He]; [exact Hex| |].
    + intros x' Hin. apply Hall. right. exact Hin.
    + rewrite He. exists e. reflexivity.
Qed.

(** A value that holds an object outside every shared mapping has no tree. *)
Lemma snapshot_raises (fuel : nat) (h : Shared.store) (path : list Shared.addr)
  (v : Shared.obj) :
  Shared.holds_object v = true -> exists e, Shared.snapshot fuel h path v = Raise e.
Proof.
  destruct fuel as [|fuel]; [intros _; eexists; reflexivity|].
  induction v as [ |b|n|s|xs IHxs|xs IHxs|kvs IHkvs|a|f n d _ _| |r _]
    using Shared.obj_ind; rewrite snapshot_eq; cbn [Shared.holds_object];
    try discriminate; try (intros _; eexists; reflexivity).
  - intros Hex.
    destruct (each_raises (Shared.snapshot (S fuel) h path) xs Shared.holds_object Hex)
      as [e He].
    + intros x Hin. rewrite Forall_forall in IHxs. exact (IHxs x Hin).
    + rewrite He. exists e. reflexivity.
  - intros Hex.
    destruct (each_raises (Shared.snapshot (S fuel) h path) xs Shared.holds_object Hex)
      as [e He].
    + intros x Hin. rewrite Forall_forall in IHxs. exact (IHxs x Hin).
    + rewrite He. exists e. reflexivity.
  - intros Hex.
    destruct (each_value_raises (Shared.snapshot (S fuel) h path) kvs
                Shared.holds_object Hex) as [e He].
    + intros kv Hin. rewrite Forall_forall in IHkvs. exact (IHkvs kv Hin).
    + rewrite He. exists e. reflexivity.
Qed.

Lemma each_raise_class {A B : Type} (f : A -> result B) (l : list A) (P : exn -> Prop) :
  Forall (fun x => forall e, f x = Raise e -> P e) l ->
  forall e, Shared.each f l = Raise e -> P e.
Proof.
  induction 1 as [|x l Hx _ IH]; cbn [Shared.each]; [discriminate|].
  intros e. destruct (f x) as [y|e'] eqn:Hfx; cbn [rbind].
  - destruct (Shared.each f l) as [ys|e'']; cbn [rbind]; [discriminate|].
    intros [= <-]. exact (IH _ eq_refl).
  - intros [= <-]. exact (Hx _ eq_refl).
Qed.

Lemma each_value_raise_class {A B : Type} (f : A -> result B) (l : list (string * A))
  (P : exn -> Prop) :
  Forall (fun kv => forall e, f (snd kv) = Raise e -> P e) l ->
  forall e, Shared.each_value f l = Raise e -> P e.
Proof.
  induction 1 as [|x l Hx _ IH]; cbn [Shared.each_value]; [discriminate|].
  intros e. destruct (f (snd x)) as [y|e'] eqn:Hfx; cbn [rbind].
  - destruct (Shared.each_value f l) as [ys|e'']; cbn [rbind]; [discriminate|].
    intros [= <-]. exact (IH _ eq_refl).
  - intros [= <-]. exact (Hx _ eq_refl).
Qed.

Lemma snapshot_raise_class (h : Shared.store) (fuel : nat) :
  forall (path : list Shared.addr) (v : Shared.obj) (e : exn),
    Shared.snapshot fuel h path v = Raise e ->
    Shared.refusal e \/ e = OutsideModel "fuel".
Proof.
  induction fuel as [|fuel IH]; intros path v e.
  - cbn. intros [= <-]. right. reflexivity.
  - revert e.
    induction v as [ |b|n|s|xs IHxs|xs IHxs|kvs IHkvs|a|f n d _ _| |r _]
      using Shared.obj_ind; intros e; rewrite snapshot_eq; try discriminate.
    + destruct (Shared.each (Shared.snapshot (S fuel) h path) xs) as [ts|e'] eqn:Hts;
        cbn [rbind]; [discriminate|]. intros [= <-].
      exact (each_raise_class _ xs _ IHxs _ Hts).
    + destruct (Shared.each (Shared.snapshot (S fuel) h path) xs) as [ts|e'] eqn:Hts;
        cbn [rbind]; [discriminate|]. intros [= <-].
      exact (each_raise_class _ xs _ IHxs _ Hts).
    + destruct (Shared.each_value (Shared.snapshot (S fuel) h path) kvs) as [ts|e'] eqn:Hts;
        cbn [rbind]; [discriminate|]. intros [= <-].
      exact (each_value_raise_class _ kvs _ IHkvs _ Hts).
    + destruct (existsb (Nat.eqb a) path).
      * intros [= <-]. left. right. reflexivity.
      * destruct (Shared.each_value (Shared.snapshot fuel h (a :: path)) (Shared.cell h a))
          as [ts|e'] eqn:Hts; cbn [rbind]; [discriminate|]. intros [= <-].
        apply (each_value_raise_class _ (Shared.cell h a)
                 (fun e => Shared.refusal e \/ e = OutsideModel "fuel")) with (e := e') in Hts;
          [exact Hts|].
        apply Forall_forall. intros kv _ e Hkv. exact (IH _ _ _ Hkv).
    + intros [= <-]. left. left. eexists. reflexivity.
    + intros [= <-]. left. left. eexists. reflexivity.
    + intros [= <-]. left. left. eexists. reflexivity.
Qed.

Lemma shared_buffer_refused (h : Shared.store) (cs : list Shared.obj) :
  existsb Shared.holds_object cs = true ->
  exists e, Shared.refusal e /\
            Shared.marshal h (Shared.ODict [("d", Shared.OList cs)]) = Raise e.
Proof.
  intros Hex.
  destruct (snapshot_raises (S (length h)) h [] (Shared.ODict [("d", Shared.OList cs)]))
    as [e He].
  { cbn [Shared.holds_object existsb snd orb]. rewrite Hex. reflexivity. }
  exists e. split.
  - destruct (snapshot_raise_class h _ _ _ _ He) as [H|H]; [exact H|].
    exfalso. subst e. exact (tree_in_fuel h _ He).
  - unfold Shared.marshal, Shared.tree. rewrite He. reflexivity.
Qed.

(** X18. An object that stands in a buffered operation outside every shared
    mapping blocks the page for good: [save] raises what the encoder raises
    (TypeError, or ValueError where it meets a mapping that contains itself
    first), sends nothing and keeps the buffer, and no mutation that follows
    can change that, since the buffer only grows and no [add] rewrites what
    is not a mapping of its own card.  This holds for both kinds of page. *)
Theorem unencodable_buffer_is_stuck
  (http : request -> net_result (Z * string)) (send : string -> net_result unit)
  (c : _Config) (w : Shared.world) (ms : list Shared.mutation) :
  existsb Shared.holds_object (Shared._changes (fst w)) = true ->
  exists e,
    Shared.refusal e /\
    (forall wire,
        Shared.Page.save http c (snd (Shared.attempt_all ms w)) wire =
        (NetRaise (PyExn e), snd (Shared.attempt_all ms w), wire)) /\
    (forall wire,
        Shared.AsyncPage.save send (snd (Shared.attempt_all ms w)) wire =
        (NetRaise (PyExn e), snd (Shared.attempt_all ms w), wire)).
Proof.
  destruct w as [p h]. cbn [fst]. intros Hh.
  destruct (shared_attempt_all_appends ms h) as (ops & h' & _ & _ & _ & Hops).
  rewrite (Hops p). cbn [snd].
  assert (Hh' : existsb Shared.holds_object (Shared._changes p ++ ops) = true).
  { rewrite existsb_app, Hh. reflexivity. }
  destruct (shared_buffer_refused h' _ Hh') as (e & Hclass & Hm). exists e.
  assert (Hdiff : Shared.PageBase._diff
                    (Shared.mkPage (Shared.url p) (Shared._changes p ++ ops), h') =
                  (Raise e, (Shared.mkPage (Shared.url p) (Shared._changes p ++ ops), h'))).
  { unfold Shared.PageBase._diff. cbn [Shared._changes Shared.url].
    destruct (Shared._changes p ++ ops)%list as [|x xs] eqn:Hcs; [discriminate Hh'|].
    rewrite Hm. reflexivity. }
  split; [exact Hclass|]. split; intros wire.
  - unfold Shared.Page.save. rewrite Hdiff. reflexivity.
  - unfold Shared.AsyncPage.save. rewrite Hdiff. reflexivity.
Qed.

Lemma unencodable_buffer_is_stuck_witness :
  exists e,
    Shared.refusal e /\
    (forall wire,
        Shared.Page.save (fun _ => NetOk (200, "")) (mkConfig "" "" "http://hub" "" "" 3)
          (snd (Shared.attempt_all [Shared.MAdd (Shared.OStr "b") (Shared.OAt 0%nat)]
                  (Shared.mkPage "/p"
                     [Shared.ODict [("k", Shared.OStr "card x");
                                    ("v", Shared.OObj None)]],
                   [[("x", Shared.OInt 1)]]))) wire =
        (NetRaise (PyExn e),
         snd (Shared.attempt_all [Shared.MAdd (Shared.OStr "b") (Shared.OAt 0%nat)]
                (Shared.mkPage "/p"
                   [Shared.ODict [("k", Shared.OStr "card x");
                                  ("v", Shared.OObj None)]],
                 [[("x", Shared.OInt 1)]])), wire)) /\
    (forall wire,
        Shared.AsyncPage.save (fun _ => NetOk tt)
          (snd (Shared.attempt_all [Shared.MAdd (Shared.OStr "b") (Shared.OAt 0%nat)]
                  (Shared.mkPage "/p"
                     [Shared.ODict [("k", Shared.OStr "card x");
                                    ("v", Shared.OObj None)]],
                   [[("x", Shared.OInt 1)]]))) wire =
        (NetRaise (PyExn e),
         snd (Shared.attempt_all [Shared.MAdd (Shared.OStr "b") (Shared.OAt 0%nat)]
                (Shared.mkPage "/p"
                   [Shared.ODict [("k", Shared.OStr "card x");
                                  ("v", Shared.OObj None)]],
                 [[("x", Shared.OInt 1)]])), wire)).
Proof.
  exact (unencodable_buffer_is_stuck (fun _ => NetOk (200, ""))
           (fun _ => NetOk tt) (mkConfig "" "" "http://hub" "" "" 3)
           (Shared.mkPage "/p"
              [Shared.ODict [("k", Shared.OStr "card x"); ("v", Shared.OObj None)]],
            [[("x", Shared.OInt 1)]])
           [Shared.MAdd (Shared.OStr "b") (Shared.OAt 0%nat)] eq_refl).
Defined.

(** A Data inside a shared mapping does not block the page for good: the
    flush after the first card raises TypeError; the second [add], of the
    shared mapping itself, moves the Data out, and the flush succeeds. *)
Example shared_mapping_unblocks :
  let D := Shared.OData (Shared.OList [Shared.OStr "f"]) 2 Shared.ONone in
  let h := [[("x", D)]] in
  let card := Shared.ODict [("o", Shared.OAt 0%nat)] in
  let w0 := (Shared.PageBase.__init__ "/p", h) in
  let w1 := snd (Shared.perform (Shared.MAdd (Shared.OStr "a") card) w0) in
  let w2 := snd (Shared.perform (Shared.MAdd (Shared.OStr "b") (Shared.OAt 0%nat)) w1) in
  Shared.PageBase._diff w1 =
  (Raise (TypeError "Object of type Data is not JSON serializable"), w1) /\
  existsb Shared.holds_object (Shared._changes (fst w1)) = false /\
  exists d, fst (Shared.PageBase._diff w2) = Ok (Some d).
Proof. split; [reflexivity|]. split; [reflexivity|]. eexists. reflexivity. Qed.
